(** * VirtPilot: panel-response normalizer and alert engine

    A shallow embedding of the pure core of [bot.py]: the helpers that
    locate VM records in a panel's JSON answer ([_normalize_vps_item],
    [_looks_like_vps], [deep_find_vps_list], [pick_vps_list]), the usage
    extractor and classifier ([extract_disk_usage], [extract_bw_usage],
    [compute_percent], [classify_level], [to_int]) and the body of
    [alert_loop] that diffs a freshly classified VM against the stored
    alert state.

    Python values decoded from JSON are a tagged union; a Python [dict] is
    an insertion-ordered association list; Python [float] is the kernel's
    binary64 type, so the arithmetic of [compute_percent] is the one the
    interpreter performs. *)

From Stdlib Require Import ZArith Bool List Ascii String Floats Reals Lra Lia.
From stdpp Require Import base option list strings gmap pretty.

Local Open Scope Z_scope.
Local Open Scope string_scope.
Local Open Scope list_scope.

(** ** Python values *)

Module Py.

(** The values [resp.json()] can produce. *)
#[warnings="-register-all"]
Inductive json : Type :=
| JNull
| JBool (b : bool)
| JInt (z : Z)
| JFloat (f : float)
| JStr (s : string)
| JList (l : list json)
| JDict (d : list (string * json)).

(** An insertion-ordered mapping with string keys (Python's [dict]). *)
Definition odict (V : Type) : Type := list (string * V).
Definition pydict : Type := odict json.

(** Induction over nested values: the elements of a list and the values of
    a mapping are available as induction hypotheses. *)
Definition json_nested_ind (P : json -> Prop)
    (Hnull : P JNull) (Hbool : forall b, P (JBool b)) (Hint : forall z, P (JInt z))
    (Hfloat : forall f, P (JFloat f)) (Hstr : forall s, P (JStr s))
    (Hlist : forall l, Forall P l -> P (JList l))
    (Hdict : forall d, Forall (fun kv => P (snd kv)) d -> P (JDict d)) :
    forall x, P x :=
  fix rec (x : json) : P x :=
    match x with
    | JNull => Hnull
    | JBool b => Hbool b
    | JInt z => Hint z
    | JFloat f => Hfloat f
    | JStr s => Hstr s
    | JList l =>
        Hlist l ((fix elems (l : list json) : Forall P l :=
                    match l with
                    | [] => List.Forall_nil P
                    | i :: r => List.Forall_cons P i r (rec i) (elems r)
                    end) l)
    | JDict d =>
        Hdict d ((fix vals (d : list (string * json)) : Forall (fun kv => P (snd kv)) d :=
                    match d with
                    | [] => List.Forall_nil _
                    | kv :: r => List.Forall_cons _ kv r (rec (snd kv)) (vals r)
                    end) d)
    end.

Section Dict.
Context {V : Type}.

(** [k in d] *)
Fixpoint has (d : odict V) (k : string) : bool :=
  match d with
  | [] => false
  | (k', _) :: r => if String.eqb k' k then true else has r k
  end.

(** [d[k]] when present *)
Fixpoint lookup_key (d : odict V) (k : string) : option V :=
  match d with
  | [] => None
  | (k', v) :: r => if String.eqb k' k then Some v else lookup_key r k
  end.

(** [d[k] = v]: an existing key keeps its position, a new key goes last. *)
Fixpoint setitem (d : odict V) (k : string) (v : V) : odict V :=
  match d with
  | [] => [(k, v)]
  | (k', v') :: r =>
      if String.eqb k' k then (k', v) :: r else (k', v') :: setitem r k v
  end.

(** [d.values()] *)
Definition values (d : odict V) : list V := map snd d.

Definition keys (d : odict V) : list string := map fst d.
End Dict.

(** [d.get(k)]: a missing key reads as [None]. *)
Definition get (d : pydict) (k : string) : json :=
  match lookup_key d k with
  | Some v => v
  | None => JNull
  end.

(** Python truthiness ([bool(x)]); a NaN is truthy, both zeros are falsy. *)
Definition truthy (x : json) : bool :=
  match x with
  | JNull => false
  | JBool b => b
  | JInt z => negb (z =? 0)%Z
  | JFloat f => negb (PrimFloat.eqb f 0%float)
  | JStr s => negb (String.eqb s "")
  | JList l => match l with [] => false | _ => true end
  | JDict d => match d with [] => false | _ => true end
  end.

(** [x or y] *)
Definition py_or (x y : json) : json := if truthy x then x else y.

Definition is_dict (x : json) : bool :=
  match x with JDict _ => true | _ => false end.

End Py.
Import Py.

(** ** Response normalizer *)

Definition _normalize_vps_item (item : pydict) : pydict :=
  let item :=
    if has item "vps_id" && negb (has item "vpsid")
    then setitem item "vpsid" (get item "vps_id") else item in
  let item :=
    if has item "id" && negb (has item "vpsid")
    then setitem item "vpsid" (get item "id") else item in
  item.

Definition _looks_like_vps (item : pydict) : bool :=
  if has item "vpsid" then true
  else if (has item "hostname" || has item "name" || has item "primary_ip" || has item "ip")
          && negb (has item "uid") then true
  else false.

(** The loop shared by the deep scan and [pick_vps_list]: every mapping
    entry is copied, normalized and kept when it looks like a VM. *)
Fixpoint collect_items (l : list json) : list pydict :=
  match l with
  | [] => []
  | JDict it :: r =>
      let it := _normalize_vps_item it in
      if _looks_like_vps it then it :: collect_items r else collect_items r
  | _ :: r => collect_items r
  end.

(** [walk], the closure of [deep_find_vps_list]; its two [nonlocal]
    variables [visited] and [found] are threaded as a pair. *)
Definition scan_state : Type := Z * list pydict.

Fixpoint walk (limit : Z) (x : json) (st : scan_state) {struct x} : scan_state :=
  let '(visited, found) := st in
  if (limit <? visited)%Z || (500 <? Z.of_nat (length found))%Z then st
  else
    let visited := visited + 1 in
    match x with
    | JList l =>
        let each :=
          fix each (l : list json) (st : scan_state) : scan_state :=
            match l with
            | [] => st
            | i :: r => each r (walk limit i st)
            end in
        if negb (match l with [] => true | _ => false end) && forallb is_dict l then
          let items := collect_items l in
          if (1 <=? length items)%nat then (visited, found ++ items)
          else each l (visited, found)
        else each l (visited, found)
    | JDict d =>
        let each :=
          fix each (d : list (string * json)) (st : scan_state) : scan_state :=
            match d with
            | [] => st
            | kv :: r => each r (walk limit (snd kv) st)
            end in
        if negb (match d with [] => true | _ => false end) && forallb is_dict (values d) then
          let items := collect_items (values d) in
          if (1 <=? length items)%nat then (visited, found ++ items)
          else each d (visited, found)
        else each d (visited, found)
    | _ => (visited, found)
    end.

(** What the model takes from the interpreter without defining it:
    [str()] of a float or of a container, and [float()] of a non-empty
    string.  Every statement below holds for any choice of the two. *)
Class PyBuiltins : Type := {
  py_repr : json -> string;
  float_of_literal : string -> option float
}.

Section Normalizer.
Context `{PyBuiltins}.

(** [str(x)] *)
Definition py_str (x : json) : string :=
  match x with
  | JNull => "None"
  | JBool true => "True"
  | JBool false => "False"
  | JInt z => pretty z
  | JStr s => s
  | _ => py_repr x
  end.

(** [str(it.get("vpsid") or "")] *)
Definition vid_of (it : pydict) : string :=
  py_str (py_or (get it "vpsid") (JStr "")).

(** The dedupe loop of [deep_find_vps_list]: [uniq[vid] = it] for every
    entry whose [vid] is not empty. *)
Fixpoint dedupe_loop (found : list pydict) (uniq : odict pydict) : odict pydict :=
  match found with
  | [] => uniq
  | it :: r =>
      let vid := vid_of it in
      if negb (String.eqb vid "") then dedupe_loop r (setitem uniq vid it)
      else dedupe_loop r uniq
  end.

(** [list(uniq.values()) if uniq else found] *)
Definition dedupe (found : list pydict) : list pydict :=
  match dedupe_loop found [] with
  | [] => found
  | uniq => values uniq
  end.

Definition deep_find_vps_list (obj : json) (limit : Z) : list pydict :=
  dedupe (snd (walk limit obj (0, []))).

(** The [for key in ("vs", "vps", "data", "result")] loop of
    [pick_vps_list]; [None] when the loop ends without a [return]. *)
Fixpoint pick_from_keys (api_data : pydict) (ks : list string) : option (list pydict) :=
  match ks with
  | [] => None
  | key :: rest =>
      match get api_data key with
      | JList l =>
          match collect_items l with
          | [] => pick_from_keys api_data rest
          | out => Some out
          end
      | JDict d =>
          match collect_items (values d) with
          | [] => pick_from_keys api_data rest
          | out => Some out
          end
      | _ => pick_from_keys api_data rest
      end
  end.

Definition pick_vps_list (api_data : json) : list pydict :=
  match api_data with
  | JDict d =>
      match pick_from_keys d ["vs"; "vps"; "data"; "result"] with
      | Some out => out
      | None => deep_find_vps_list api_data 5000
      end
  | _ => []
  end.

Fixpoint details_from_keys (api_data : pydict) (ks : list string) : option pydict :=
  match ks with
  | [] => None
  | key :: rest =>
      match get api_data key with
      | JDict v =>
          if existsb (has v) ["vpsid"; "hostname"; "name"; "primary_ip"; "ip"]
          then Some v else details_from_keys api_data rest
      | _ => details_from_keys api_data rest
      end
  end.

Definition pick_vps_details (api_data : json) : pydict :=
  match api_data with
  | JDict d =>
      match details_from_keys d ["info"; "vps"; "vs"; "data"; "result"] with
      | Some v => v
      | None => d
      end
  | _ => []
  end.
End Normalizer.

(** ** Floating point *)

Inductive pyexn : Set := ValueError | OverflowError | TypeError.

(** A call either returns or raises. *)
Inductive outcome (A : Type) : Type :=
| Returns (a : A)
| Raises (e : pyexn).
Arguments Returns {A} a.
Arguments Raises {A} e.

Definition signed (s : bool) (m : positive) : Z :=
  if s then Z.neg m else Z.pos m.

(** [floor (m * 2^e)] for integers [m] and [e]. *)
Definition floor_scaled (m e : Z) : Z :=
  if (0 <=? e)%Z then m * 2 ^ e else m / 2 ^ (- e).

(** [m * 2^e] rounded toward zero. *)
Definition trunc_scaled (m e : Z) : Z :=
  if (0 <=? e)%Z then m * 2 ^ e else Z.quot m (2 ^ (- e)).

(** [math.floor(f)] *)
Definition math_floor (f : float) : outcome Z :=
  match Prim2SF f with
  | S754_zero _ => Returns 0
  | S754_infinity _ => Raises OverflowError
  | S754_nan => Raises ValueError
  | S754_finite s m e => Returns (floor_scaled (signed s m) e)
  end.

(** [int(f)] for a float [f] *)
Definition int_of_float (f : float) : outcome Z :=
  match Prim2SF f with
  | S754_zero _ => Returns 0
  | S754_infinity _ => Raises OverflowError
  | S754_nan => Raises ValueError
  | S754_finite s m e => Returns (trunc_scaled (signed s m) e)
  end.

(** [float(z)] for an integer: the nearest binary64, or [OverflowError]. *)
Definition float_of_Z (z : Z) : outcome float :=
  match binary_normalize prec emax z 0 false with
  | S754_infinity _ => Raises OverflowError
  | r => Returns (SF2Prim r)
  end.

Definition compute_percent (used total : float) : outcome (option Z) :=
  if PrimFloat.leb total 0 then Returns None
  else
    match math_floor (used / total * 100)%float with
    | Returns n => Returns (Some n)
    | Raises e => Raises e
    end.

(** ** Classifier *)

Definition classify_level (pct : option Z) (warn critical : Z) : option string :=
  match pct with
  | None => None
  | Some pct =>
      if (critical <=? pct)%Z then Some "critical"
      else if (warn <=? pct)%Z then Some "warn"
      else Some "ok"
  end.

(** ** Usage extractor *)

Section Usage.
Context `{PyBuiltins}.

(** [float(x)] *)
Definition py_float (x : json) : outcome float :=
  match x with
  | JNull => Raises TypeError
  | JBool b => Returns (if b then 1 else 0)%float
  | JInt z => float_of_Z z
  | JFloat f => Returns f
  | JStr s =>
      if String.eqb s "" then Raises ValueError
      else match float_of_literal s with
           | Some f => Returns f
           | None => Raises ValueError
           end
  | JList _ | JDict _ => Raises TypeError
  end.

(** [a or b or c or d] over four aliases of one mapping *)
Definition first_truthy (info : pydict) (a b c d : string) : json :=
  py_or (py_or (py_or (get info a) (get info b)) (get info c)) (get info d).

(** [try: return float(used), float(total) / except Exception: return None, None] *)
Definition float_pair (used total : json) : option float * option float :=
  match py_float used, py_float total with
  | Returns u, Returns t => (Some u, Some t)
  | _, _ => (None, None)
  end.

Definition extract_disk_usage (info : pydict) : option float * option float :=
  let used := first_truthy info "disk_used" "used_disk" "hdd_used" "used_hdd" in
  let total := first_truthy info "disk" "vps_disk" "hdd" "total_hdd" in
  float_pair used total.

Definition extract_bw_usage (info : pydict) : option float * option float :=
  let used := first_truthy info "bandwidth_used" "bw_used" "used_bandwidth" "used_bw" in
  let total := first_truthy info "bandwidth" "bw" "total_bandwidth" "total_bw" in
  float_pair used total.

(** [to_int(x, default)] *)
Definition to_int (x : json) (default : Z) : Z :=
  match py_float x with
  | Returns f =>
      match int_of_float f with
      | Returns n => n
      | Raises _ => default
      end
  | Raises _ => default
  end.

(** Truthiness of an [Optional[float]]. *)
Definition opt_truthy (x : option float) : bool :=
  match x with
  | Some f => truthy (JFloat f)
  | None => false
  end.

(** [compute_percent(used or 0, total or 0) if (used and total) else None] *)
Definition usage_percent (usage : option float * option float) : outcome (option Z) :=
  match usage with
  | (Some used, Some total) =>
      if opt_truthy (Some used) && opt_truthy (Some total)
      then compute_percent used total
      else Returns None
  | _ => Returns None
  end.
End Usage.

(** ** Alert engine *)

(** A row of [alert_settings], as [get_alert_settings] returns it. *)
Record alert_settings : Type := {
  alerts_enabled : bool;
  disk_warn : Z;
  disk_critical : Z;
  bw_warn : Z;
  bw_critical : Z;
  suspend_alerts : bool
}.

(** What [get_alert_state] returns; a missing row reads as three [None]. *)
Record alert_state : Type := {
  last_disk_level : option string;
  last_bw_level : option string;
  last_suspend : option Z
}.

(** The table [alert_state], keyed by (user_id, profile_id, vps_id). *)
Abbreviation alert_db := (gmap (Z * Z * string) alert_state).

Definition get_alert_state (db : alert_db) (user_id profile_id : Z) (vps_id : string)
    : alert_state :=
  match db !! (user_id, profile_id, vps_id) with
  | Some r => r
  | None => {| last_disk_level := None; last_bw_level := None; last_suspend := None |}
  end.

(** The upsert of [set_alert_state]. *)
Definition set_alert_state (db : alert_db) (user_id profile_id : Z) (vps_id : string)
    (disk_level bw_level : option string) (suspend : option Z) : alert_db :=
  <[(user_id, profile_id, vps_id) :=
      {| last_disk_level := disk_level; last_bw_level := bw_level;
         last_suspend := suspend |}]> db.

(** One constructor per [bot.send_message] call of [alert_loop], with the
    values its text interpolates. *)
Inductive message : Type :=
| DiskAlert (level : string) (name ip : json) (pct : option Z)
| BwAlert (level : string) (name ip : json) (pct : option Z)
| SuspendNotice (name ip : json)
| UnsuspendNotice (name ip : json).

(** [level in ("warn", "critical") and level != prev] *)
Definition level_changed (level prev : option string) : bool :=
  match level with
  | Some l =>
      (String.eqb l "warn" || String.eqb l "critical")
      && negb (bool_decide (level = prev))
  | None => false
  end.

Section AlertLoop.
Context `{PyBuiltins}.

(** [to_int(info.get("suspended") or info.get("is_suspended") or 0, 0)] *)
Definition observed_suspended (info : pydict) : Z :=
  to_int (py_or (py_or (get info "suspended") (get info "is_suspended")) (JInt 0)) 0.
(** The body of the innermost loop of [alert_loop], from the line after
    the detail fetch to [set_alert_state]: the messages sent to
    [user_id], in order, and the table afterwards.  An exception of
    [compute_percent] leaves the body before anything is sent or
    written. *)
Definition alert_vm (s : alert_settings) (user_id profile_id : Z) (vps_id : string)
    (info : pydict) (db : alert_db) : outcome (list message * alert_db) :=
  let name := py_or (py_or (get info "hostname") (get info "name"))
                    (JStr ("VPS " ++ vps_id)) in
  let ip := py_or (py_or (py_or (get info "primary_ip") (get info "ip"))
                         (get info "ipaddress")) (JStr "-") in
  let suspended := observed_suspended info in
  match usage_percent (extract_disk_usage info) with
  | Raises e => Raises e
  | Returns disk_pct =>
      match usage_percent (extract_bw_usage info) with
      | Raises e => Raises e
      | Returns bw_pct =>
          let disk_level := classify_level disk_pct s.(disk_warn) s.(disk_critical) in
          let bw_level := classify_level bw_pct s.(bw_warn) s.(bw_critical) in
          let prev := get_alert_state db user_id profile_id vps_id in
          let m1 :=
            if level_changed disk_level prev.(last_disk_level)
            then [DiskAlert (default "" disk_level) name ip disk_pct] else [] in
          let m2 :=
            if level_changed bw_level prev.(last_bw_level)
            then [BwAlert (default "" bw_level) name ip bw_pct] else [] in
          let m3 :=
            if s.(suspend_alerts) then
              match prev.(last_suspend) with
              | Some p =>
                  (if (suspended =? 1)%Z && (p =? 0)%Z then [SuspendNotice name ip] else [])
                  ++ (if (suspended =? 0)%Z && (p =? 1)%Z then [UnsuspendNotice name ip] else [])
              | None => []
              end
            else [] in
          Returns (m1 ++ m2 ++ m3,
                   set_alert_state db user_id profile_id vps_id
                     disk_level bw_level (Some suspended))
      end
  end.

(** The [for v in vps_list] loop of [alert_loop] for one profile.
    [fetch vps_id] is the detail of a VM as the request and
    [pick_vps_details] give it, [None] when the request raises.  A VM
    without identifier and a VM whose fetch fails are skipped; an
    exception of the body leaves the loop with what was sent and written
    before it (only the outermost [try] of [alert_loop] catches it). *)
Fixpoint alert_vps_list (s : alert_settings) (user_id profile_id : Z)
    (fetch : string -> option pydict) (vps_list : list pydict)
    (log : list message) (db : alert_db) : list message * alert_db * option pyexn :=
  match vps_list with
  | [] => (log, db, None)
  | v :: rest =>
      let vps_id := vid_of v in
      if String.eqb vps_id "" then
        alert_vps_list s user_id profile_id fetch rest log db
      else
        match fetch vps_id with
        | None => alert_vps_list s user_id profile_id fetch rest log db
        | Some info =>
            match alert_vm s user_id profile_id vps_id info db with
            | Raises e => (log, db, Some e)
            | Returns (msgs, db') =>
                alert_vps_list s user_id profile_id fetch rest (log ++ msgs) db'
            end
        end
  end.

End AlertLoop.


(** ** Vocabulary of the statements *)

(** The mapping entries of a sequence, in order. *)
Fixpoint dicts_of (l : list json) : list pydict :=
  match l with
  | [] => []
  | JDict d :: r => d :: dicts_of r
  | _ :: r => dicts_of r
  end.

(** The specification's reading of one candidate value: the mapping
    entries of a sequence, or the mapping values of a mapping, normalized
    and passed through the VM-likeness filter. *)
Definition candidate_records (v : json) : list pydict :=
  match v with
  | JList l => List.filter _looks_like_vps (map _normalize_vps_item (dicts_of l))
  | JDict d => List.filter _looks_like_vps (map _normalize_vps_item (dicts_of (values d)))
  | _ => []
  end.

Definition well_known_keys : list string := ["vs"; "vps"; "data"; "result"].

Definition nonempty {A : Type} (l : list A) : bool :=
  match l with [] => false | _ => true end.

(** [extractVmList] as the specification words it: the first well-known
    key whose filtered candidate is not empty decides; the deep scan runs
    only when there is none. *)
Definition extractVmList `{PyBuiltins} (root : pydict) : list pydict :=
  match List.find (fun k => nonempty (candidate_records (get root k))) well_known_keys with
  | Some k => candidate_records (get root k)
  | None => deep_find_vps_list (JDict root) 5000
  end.

(** The children [walk] descends into. *)
Definition children (x : json) : list json :=
  match x with
  | JList l => l
  | JDict d => values d
  | _ => []
  end.

(** A non-empty sequence of mappings, or a non-empty mapping of mappings. *)
Definition list_like (x : json) : bool :=
  nonempty (children x) && forallb is_dict (children x).

(** [for i in children: walk(i)] *)
Definition walk_each (limit : Z) (cs : list json) (st : scan_state) : scan_state :=
  fold_left (fun st c => walk limit c st) cs st.

(** The last entry of [found] whose identifier is [vid]. *)
Definition last_with `{PyBuiltins} (vid : string) (found : list pydict) : option pydict :=
  List.find (fun it => String.eqb (vid_of it) vid) (rev found).




(** An interpreter whose [float()] knows no string and whose [str()] prints
    every float and container alike; enough to run the examples. *)
Definition plain_builtins : PyBuiltins :=
  {| py_repr := fun _ => "?"; float_of_literal := fun _ => None |}.




(** The settings a new user gets from [alert_settings]' column defaults. *)
Definition default_settings : alert_settings :=
  {| alerts_enabled := true; disk_warn := 80; disk_critical := 100;
     bw_warn := 80; bw_critical := 100; suspend_alerts := true |}.


(** Scenario B: the disk level stored for VM "101" is "warn" and the
    detail now reports a full disk. *)
Definition scenario_B_info : pydict := [("disk_used", JInt 50); ("disk", JInt 50)].
Definition scenario_B_db : alert_db :=
  set_alert_state ∅ 7 1 "101" (Some "warn") None (Some 0).

(** Scenario E: the detail of VM "101" is fetched, the fetch of "102"
    fails. *)
Definition scenario_E_list : list pydict :=
  [[("vpsid", JStr "101")]; [("vpsid", JStr "102")]].
Definition scenario_E_fetch (vps_id : string) : option pydict :=
  if String.eqb vps_id "101" then Some scenario_B_info else None.



(** ** Binary64 values

    The reals the floats stand for, and the vocabulary of the rounding
    performed by the division and the multiplication of
    [compute_percent]. *)

Section FloatValues.
Local Open Scope R_scope.

Definition bpow (e : Z) : R := powerRZ 2 e.

(** Where a real sits relative to an integer: on it, in the lower half of
    the unit interval above it, at its middle, or in its upper half. *)
Definition located (x : R) (m : Z) (l : location) : Prop :=
  match l with
  | loc_Exact => x = IZR m
  | loc_Inexact Lt => IZR m < x < IZR m + / 2
  | loc_Inexact Eq => x = IZR m + / 2
  | loc_Inexact Gt => IZR m + / 2 < x < IZR m + 1
  end.

(** The final (mantissa, exponent) of [binary_round_aux], before the
    overflow test. *)
Definition round_mag (m e : Z) (l : location) : Z * Z :=
  let '(mrs', e') := shr_fexp prec emax m e l in
  let '(mrs'', e'') :=
    shr_fexp prec emax (round_nearest_even (shr_m mrs') (loc_of_shr_record mrs')) e' loc_Exact in
  (shr_m mrs'', e'').

Definition sign_factor (s : bool) : R := if s then -1 else 1.

(** The real a finite float stands for (0 for zeros; also 0, by
    convention, for infinities and NaN). *)
Definition SFval (x : spec_float) : R :=
  match x with
  | S754_finite s m e => sign_factor s * (IZR (Z.pos m) * bpow e)
  | _ => 0
  end.

Definition SFfinite (x : spec_float) : bool :=
  match x with
  | S754_zero _ | S754_finite _ _ _ => true
  | _ => false
  end.

(** [res] is the rounding, with sign [s], of the non-negative real [r];
    [v] is the magnitude of the rounded value. *)
Definition rounds_to (r : R) (s : bool) (res : spec_float) (v : R) : Prop :=
  exists (m e : Z) (l : location),
    (0 <= m)%Z /\ located (r / bpow e) m l /\
    (e <= fexp prec emax (Zdigits2 m + e))%Z /\
    res = binary_round_aux prec emax s m e l /\
    v = IZR (fst (round_mag m e l)) * bpow (snd (round_mag m e l)).

(** The constant 100.0 *)
Definition hundred : spec_float := S754_finite false 7036874417766400 (-46).

(** [(x / y) * 100] on specification floats *)
Definition scaled_ratio (x y : spec_float) : spec_float :=
  SFmul prec emax (SFdiv prec emax x y) hundred.

(** [used / total * 100] computed exactly, on the reals the two floats
    stand for. *)
Definition exact_percent (used total : float) : R :=
  SFval (Prim2SF used) / SFval (Prim2SF total) * 100.

End FloatValues.

(** ** Responses and their mappings *)

(** The last two statements of [v_api_request]: a decoded body that is
    not a mapping is returned under the key "raw". *)
Definition wrap_response (data : json) : json :=
  match data with
  | JDict _ => data
  | _ => JDict [("raw", data)]
  end.

(** Every mapping that occurs in a value, the value itself included, in
    document order. *)
Fixpoint mappings (x : json) : list pydict :=
  match x with
  | JList l =>
      (fix each (l : list json) : list pydict :=
         match l with
         | [] => []
         | i :: r => mappings i ++ each r
         end) l
  | JDict d =>
      d :: (fix each (d : list (string * json)) : list pydict :=
              match d with
              | [] => []
              | kv :: r => mappings (snd kv) ++ each r
              end) d
  | _ => []
  end.

(** The keys [_looks_like_vps] and [pick_vps_details] take as the mark of
    a VM record when there is no identifier. *)
Definition descriptive_keys : list string := ["hostname"; "name"; "primary_ip"; "ip"].

(** The identifiers of a list of records, each once, in the order of
    their first occurrence; records without identifier are left out. *)
Fixpoint first_ids `{PyBuiltins} (seen : list string) (found : list pydict) : list string :=
  match found with
  | [] => []
  | it :: r =>
      let vid := vid_of it in
      if String.eqb vid "" then first_ids seen r
      else if existsb (String.eqb vid) seen then first_ids seen r
      else vid :: first_ids (vid :: seen) r
  end.

(** Severity order of the classifier's answers. *)
Definition severity (level : option string) : Z :=
  match level with
  | Some l =>
      if String.eqb l "critical" then 2
      else if String.eqb l "warn" then 1
      else 0
  | None => 0
  end.

(** ** Settings table *)

(** A row of [alert_settings] without its key: the six INTEGER columns. *)
Record settings_row : Type := {
  c_alerts_enabled : Z;
  c_disk_warn : Z;
  c_disk_critical : Z;
  c_bw_warn : Z;
  c_bw_critical : Z;
  c_suspend_alerts : Z
}.

(** The table [alert_settings], keyed by user_id. *)
Abbreviation settings_table := (gmap Z settings_row).

(** The column defaults of [init_db]. *)
Definition default_row : settings_row :=
  {| c_alerts_enabled := 1; c_disk_warn := 80; c_disk_critical := 100;
     c_bw_warn := 80; c_bw_critical := 100; c_suspend_alerts := 1 |}.

Definition ensure_alert_settings (t : settings_table) (user_id : Z) : settings_table :=
  match t !! user_id with
  | Some _ => t
  | None => <[user_id := default_row]> t
  end.

(** The dictionary [get_alert_settings] builds from a row: [bool()] of the
    two switches, [int()] of the four thresholds. *)
Definition settings_of_row (r : settings_row) : alert_settings :=
  {| alerts_enabled := negb (c_alerts_enabled r =? 0)%Z;
     disk_warn := c_disk_warn r;
     disk_critical := c_disk_critical r;
     bw_warn := c_bw_warn r;
     bw_critical := c_bw_critical r;
     suspend_alerts := negb (c_suspend_alerts r =? 0)%Z |}.

(** [get_alert_settings]: the settings read and the table afterwards (the
    row is created when it is missing). *)
Definition get_alert_settings (t : settings_table) (user_id : Z)
    : alert_settings * settings_table :=
  let t := ensure_alert_settings t user_id in
  (settings_of_row (default default_row (t !! user_id)), t).

(** A keyword argument of [update_alert_settings], as the handlers pass
    them: a [bool] for a switch, an [int] for a threshold. *)
Inductive kwarg : Type :=
| KBool (b : bool)
| KInt (z : Z).

Definition kwarg_truthy (v : kwarg) : bool :=
  match v with
  | KBool b => b
  | KInt z => negb (z =? 0)%Z
  end.

(** [1 if v else 0 if isinstance(v, bool) else v]: the conditional
    expression associates to the right, so the test on [v] comes first. *)
Definition bound_value (v : kwarg) : Z :=
  if kwarg_truthy v then 1
  else match v with
       | KBool _ => 0
       | KInt z => z
       end.

(** [SET k=?] on one row; [None] when the table has no column [k]. *)
Definition set_column (r : settings_row) (k : string) (x : Z) : option settings_row :=
  if String.eqb k "alerts_enabled" then
    Some {| c_alerts_enabled := x; c_disk_warn := c_disk_warn r;
            c_disk_critical := c_disk_critical r; c_bw_warn := c_bw_warn r;
            c_bw_critical := c_bw_critical r; c_suspend_alerts := c_suspend_alerts r |}
  else if String.eqb k "disk_warn" then
    Some {| c_alerts_enabled := c_alerts_enabled r; c_disk_warn := x;
            c_disk_critical := c_disk_critical r; c_bw_warn := c_bw_warn r;
            c_bw_critical := c_bw_critical r; c_suspend_alerts := c_suspend_alerts r |}
  else if String.eqb k "disk_critical" then
    Some {| c_alerts_enabled := c_alerts_enabled r; c_disk_warn := c_disk_warn r;
            c_disk_critical := x; c_bw_warn := c_bw_warn r;
            c_bw_critical := c_bw_critical r; c_suspend_alerts := c_suspend_alerts r |}
  else if String.eqb k "bw_warn" then
    Some {| c_alerts_enabled := c_alerts_enabled r; c_disk_warn := c_disk_warn r;
            c_disk_critical := c_disk_critical r; c_bw_warn := x;
            c_bw_critical := c_bw_critical r; c_suspend_alerts := c_suspend_alerts r |}
  else if String.eqb k "bw_critical" then
    Some {| c_alerts_enabled := c_alerts_enabled r; c_disk_warn := c_disk_warn r;
            c_disk_critical := c_disk_critical r; c_bw_warn := c_bw_warn r;
            c_bw_critical := x; c_suspend_alerts := c_suspend_alerts r |}
  else if String.eqb k "suspend_alerts" then
    Some {| c_alerts_enabled := c_alerts_enabled r; c_disk_warn := c_disk_warn r;
            c_disk_critical := c_disk_critical r; c_bw_warn := c_bw_warn r;
            c_bw_critical := c_bw_critical r; c_suspend_alerts := x |}
  else None.

(** The [SET] list of the UPDATE, one assignment per keyword (the
    keywords of a call are pairwise distinct). *)
Fixpoint assign (r : settings_row) (kwargs : list (string * kwarg)) : option settings_row :=
  match kwargs with
  | [] => Some r
  | (k, v) :: rest =>
      match set_column r k (bound_value v) with
      | Some r' => assign r' rest
      | None => None
      end
  end.

(** [update_alert_settings]: the table afterwards, and whether the call
    returned ([false]: the UPDATE named an unknown column and raised; the
    row created by [ensure_alert_settings] stays). *)
Definition update_alert_settings (t : settings_table) (user_id : Z)
    (kwargs : list (string * kwarg)) : settings_table * bool :=
  let t := ensure_alert_settings t user_id in
  match kwargs with
  | [] => (t, true)
  | _ =>
      match assign (default default_row (t !! user_id)) kwargs with
      | Some r => (<[user_id := r]> t, true)
      | None => (t, false)
      end
  end.

(** The database work of [cb_alerts_toggle]: read, write the negated
    switch, read again; the settings shown and the table afterwards. *)
Definition cb_alerts_toggle (t : settings_table) (user_id : Z)
    : alert_settings * settings_table :=
  let '(s, t) := get_alert_settings t user_id in
  let '(t, _) := update_alert_settings t user_id
                   [("alerts_enabled", KBool (negb (alerts_enabled s)))] in
  get_alert_settings t user_id.

(** The database work of [cb_alerts_suspend_toggle]. *)
Definition cb_alerts_suspend_toggle (t : settings_table) (user_id : Z)
    : alert_settings * settings_table :=
  let '(s, t) := get_alert_settings t user_id in
  let '(t, _) := update_alert_settings t user_id
                   [("suspend_alerts", KBool (negb (suspend_alerts s)))] in
  get_alert_settings t user_id.

(** The call [st_bw_crit] makes once the four thresholds are entered. *)
Definition save_thresholds (t : settings_table) (user_id : Z)
    (disk_warn disk_critical bw_warn bw_critical : Z) : settings_table * bool :=
  update_alert_settings t user_id
    [("disk_warn", KInt disk_warn); ("disk_critical", KInt disk_critical);
     ("bw_warn", KInt bw_warn); ("bw_critical", KInt bw_critical)].

(** ** Profile table *)

(** A row of [api_profiles] without its key. *)
Record profile_row : Type := {
  c_user_id : Z;
  c_title : string;
  c_panel_url : string;
  c_api_key : string;
  c_api_pass : string;
  c_verify_ssl : Z
}.

(** The table [api_profiles], keyed by its primary key [id]. *)
Abbreviation profiles_table := (gmap Z profile_row).

(** What [get_profile] returns. *)
Record profile : Type := {
  p_id : Z;
  p_title : string;
  p_panel_url : string;
  p_api_key : string;
  p_api_pass : string;
  p_verify_ssl : bool
}.

(** [add_profile]; [new_id] is the rowid the engine assigns to the
    inserted row. *)
Definition add_profile (t : profiles_table) (new_id : Z) (user_id : Z)
    (title panel_url api_key api_pass : string) (verify_ssl : bool) : profiles_table :=
  <[new_id := {| c_user_id := user_id; c_title := title; c_panel_url := panel_url;
                 c_api_key := api_key; c_api_pass := api_pass;
                 c_verify_ssl := if verify_ssl then 1 else 0 |}]> t.

(** [get_profile]: the row with this id, when it belongs to [user_id]. *)
Definition get_profile (t : profiles_table) (user_id profile_id : Z) : option profile :=
  match t !! profile_id with
  | Some r =>
      if (c_user_id r =? user_id)%Z then
        Some {| p_id := profile_id; p_title := c_title r; p_panel_url := c_panel_url r;
                p_api_key := c_api_key r; p_api_pass := c_api_pass r;
                p_verify_ssl := negb (c_verify_ssl r =? 0)%Z |}
      else None
  | None => None
  end.

(** The two tables [delete_profile] writes. *)
Record database : Type := {
  profiles : profiles_table;
  states : alert_db
}.

(** [delete_profile]: the profile row with this id and owner, and every
    [alert_state] row of this user and profile. *)
Definition delete_profile (db : database) (user_id profile_id : Z) : database :=
  {| profiles :=
       filter (fun kv => ~ (c_user_id (snd kv) = user_id /\ fst kv = profile_id))
              (profiles db);
     states :=
       filter (fun kv => ~ (fst (fst (fst kv)) = user_id /\ snd (fst (fst kv)) = profile_id))
              (states db) |}.

(** The identifiers of the VMs a sweep does not skip for want of one. *)
Definition identified `{PyBuiltins} (vps_list : list pydict) : list string :=
  List.filter (fun k => negb (String.eqb k "")) (map vid_of vps_list).

(** ** Listing profiles *)

(** What [list_profiles] returns for one row: the credentials are not
    selected. *)
Record profile_entry : Type := {
  e_id : Z;
  e_title : string;
  e_panel_url : string;
  e_verify_ssl : bool
}.

Definition entry_of (kv : Z * profile_row) : profile_entry :=
  {| e_id := fst kv; e_title := c_title (snd kv); e_panel_url := c_panel_url (snd kv);
     e_verify_ssl := negb (c_verify_ssl (snd kv) =? 0)%Z |}.

(** [ORDER BY id DESC], by insertion. *)
Fixpoint insert_desc (kv : Z * profile_row) (l : list (Z * profile_row))
    : list (Z * profile_row) :=
  match l with
  | [] => [kv]
  | x :: r => if (fst x <=? fst kv)%Z then kv :: x :: r else x :: insert_desc kv r
  end.

Definition sort_desc (l : list (Z * profile_row)) : list (Z * profile_row) :=
  fold_right insert_desc [] l.

(** [list_profiles]: the rows of [user_id], highest id first. *)
Definition list_profiles (t : profiles_table) (user_id : Z) : list profile_entry :=
  map entry_of
      (sort_desc (List.filter (fun kv => (c_user_id (snd kv) =? user_id)%Z) (map_to_list t))).

(** A strictly decreasing sequence of ids. *)
Fixpoint decreasing (l : list Z) : Prop :=
  match l with
  | a :: r => match r with b :: _ => b < a | [] => True end /\ decreasing r
  | [] => True
  end.

(** ** One pass of the alert loop *)

(** The panels as the two requests of [alert_loop] see them: the decoded
    body of the answer, [None] when the request raises. *)
Record panel : Type := {
  list_body : profile -> option json;
  detail_body : profile -> string -> option json
}.

Section AlertPass.
Context `{PyBuiltins}.

(** [pick_vps_details(await v_api_request(..., act="managevs", ...))] *)
Definition fetch_details (net : panel) (p : profile) (vps_id : string) : option pydict :=
  match detail_body net p vps_id with
  | Some body => Some (pick_vps_details (wrap_response body))
  | None => None
  end.

(** The [for pr in profiles] loop for one user: a profile that cannot be
    read or whose listing request raises is skipped; an exception of a
    loop body ends the loop. *)
Fixpoint alert_profiles (net : panel) (t : profiles_table) (s : alert_settings)
    (user_id : Z) (entries : list profile_entry)
    (log : list message) (db : alert_db) : list message * alert_db * option pyexn :=
  match entries with
  | [] => (log, db, None)
  | pr :: rest =>
      match get_profile t user_id (e_id pr) with
      | None => alert_profiles net t s user_id rest log db
      | Some p =>
          match list_body net p with
          | None => alert_profiles net t s user_id rest log db
          | Some body =>
              match alert_vps_list s user_id (p_id p) (fetch_details net p)
                      (pick_vps_list (wrap_response body)) log db with
              | (log', db', Some e) => (log', db', Some e)
              | (log', db', None) => alert_profiles net t s user_id rest log' db'
              end
          end
      end
  end.

(** The [for user_id in users] loop, the body of the [try] of
    [alert_loop]: the settings table (a missing row is created when the
    settings are read), the messages sent with their recipients, the
    alert states, and the exception that ended the pass, if any. *)
Fixpoint alert_users (net : panel) (t : profiles_table) (users : list Z)
    (st : settings_table) (log : list (Z * message)) (db : alert_db)
    : settings_table * list (Z * message) * alert_db * option pyexn :=
  match users with
  | [] => (st, log, db, None)
  | user_id :: rest =>
      let '(s, st') := get_alert_settings st user_id in
      if negb (alerts_enabled s) then alert_users net t rest st' log db
      else
        match alert_profiles net t s user_id (list_profiles t user_id) [] db with
        | (msgs, db', Some e) => (st', log ++ map (pair user_id) msgs, db', Some e)
        | (msgs, db', None) =>
            alert_users net t rest st' (log ++ map (pair user_id) msgs) db'
        end
  end.

End AlertPass.

(** Scenario F: users 7 and 8 own one profile each (ids 1 and 2); both
    panels list the VM "101" with a disk of 50, of which user 8's VM uses
    50 and user 7's VM uses [used_of_7]. *)
Definition scenario_F_profiles : profiles_table :=
  add_profile (add_profile ∅ 1 7 "a" "https://a.example" "k" "p" true)
              2 8 "b" "https://b.example" "k" "p" true.

Definition scenario_F_panel (used_of_7 : json) : panel :=
  {| list_body := fun _ => Some (JDict [("vs", JList [JDict [("vpsid", JStr "101")]])]);
     detail_body := fun p _ =>
       Some (JDict [("info", JDict [("hostname", JStr "h");
                                    ("disk_used", if (p_id p =? 1)%Z then used_of_7 else JInt 50);
                                    ("disk", JInt 50)])]) |}.

(** ** The deep scan under the recursion limit *)





(** Two scans for the dedupe step: VM "7" is listed under two keys, and
    two entries without identifier. *)
Definition twice_listed : json :=
  JDict [("a", JList [JDict [("vpsid", JStr "7"); ("name", JStr "old")]]);
         ("b", JList [JDict [("vpsid", JStr "7"); ("name", JStr "new")];
                      JDict [("vpsid", JInt 8)]])].
Definition unidentified : json :=
  JList [JDict [("name", JStr "x")]; JDict [("name", JStr "x")]].



(** * Properties *)

(** ** Mappings *)

Section DictFacts.
Context {V : Type}.
Implicit Types (d : odict V) (k : string) (v : V).

Lemma has_lookup_key d k : has d k = true <-> exists v, lookup_key d k = Some v.
Proof.
  induction d as [|[k' v'] d IH]; simpl.
  - split; [discriminate | intros [v Hv]; discriminate].
  - destruct (String.eqb k' k); [split; eauto | exact IH].
Qed.

Lemma has_setitem d k k' v :
  has (setitem d k v) k' = (String.eqb k k' || has d k').
Proof.
  induction d as [|[k0 v0] d IH]; simpl.
  - destruct (String.eqb k k'); reflexivity.
  - destruct (String.eqb k0 k) eqn:E0; simpl.
    + apply String.eqb_eq in E0; subst k0.
      destruct (String.eqb k k'); reflexivity.
    + rewrite IH. destruct (String.eqb k0 k'), (String.eqb k k'); reflexivity.
Qed.

Lemma lookup_key_setitem d k k' v :
  lookup_key (setitem d k v) k' =
  if String.eqb k k' then Some v else lookup_key d k'.
Proof.
  induction d as [|[k0 v0] d IH]; simpl.
  - destruct (String.eqb k k'); reflexivity.
  - destruct (String.eqb k0 k) eqn:E0; simpl.
    + apply String.eqb_eq in E0; subst k0.
      destruct (String.eqb k k'); reflexivity.
    + rewrite IH. destruct (String.eqb k k') eqn:E1; [|reflexivity].
      apply String.eqb_eq in E1; subst k'. rewrite E0. reflexivity.
Qed.

Lemma keys_setitem d k v :
  keys (setitem d k v) = if has d k then keys d else keys d ++ [k].
Proof.
  unfold keys. induction d as [|[k0 v0] d IH]; simpl; [reflexivity|].
  destruct (String.eqb k0 k) eqn:E0; simpl; [reflexivity|].
  rewrite IH. destruct (has d k); reflexivity.
Qed.

Lemma has_keys d k : has d k = true <-> k ∈ keys d.
Proof.
  induction d as [|[k0 v0] d IH]; simpl.
  - split; [discriminate | intros Hin; inversion Hin].
  - rewrite elem_of_cons. destruct (String.eqb k0 k) eqn:E0.
    + apply String.eqb_eq in E0. split; auto.
    + apply String.eqb_neq in E0. rewrite IH. split; [auto | intros [->|?]; [congruence | auto]].
Qed.
End DictFacts.

(** ** Normalizer *)

Lemma collect_items_spec (l : list json) :
  collect_items l = List.filter _looks_like_vps (map _normalize_vps_item (dicts_of l)).
Proof.
  induction l as [|x l IH]; [reflexivity|].
  destruct x; simpl; try exact IH.
  rewrite IH. reflexivity.
Qed.

Lemma pick_from_keys_find `{PyBuiltins} (root : pydict) (ks : list string) :
  pick_from_keys root ks =
  match List.find (fun k => nonempty (candidate_records (get root k))) ks with
  | Some k => Some (candidate_records (get root k))
  | None => None
  end.
Proof.
  induction ks as [|k ks IH]; [reflexivity|].
  simpl. destruct (get root k) as [| | | | |l|d] eqn:E; simpl; try exact IH.
  - rewrite <- collect_items_spec.
    destruct (collect_items l) eqn:El; simpl; [exact IH|].
    rewrite E. simpl. rewrite <- collect_items_spec, El. reflexivity.
  - rewrite <- collect_items_spec.
    destruct (collect_items (values d)) eqn:El; simpl; [exact IH|].
    rewrite E. simpl. rewrite <- collect_items_spec, El. reflexivity.
Qed.

(** C8. [pick_vps_list] tries the keys vs, vps, data, result in that
    order; a sequence candidate contributes its mapping entries that pass
    the VM-likeness filter, a mapping candidate its mapping values under
    the same filter; the first non-empty filtered candidate is returned,
    and neither a later key nor the deep scan is consulted.  The root
    [{"vs": {"101": {...}, "102": {...}}}] yields exactly the two records
    with ids "101" and "102". *)
Theorem pick_vps_list_well_known_keys `{PyBuiltins} :
  (forall root : pydict, pick_vps_list (JDict root) = extractVmList root) /\
  let r101 := [("hostname", JStr "a"); ("vpsid", JStr "101")] in
  let r102 := [("hostname", JStr "b"); ("vpsid", JStr "102")] in
  let root := JDict [("vs", JDict [("101", JDict r101); ("102", JDict r102)])] in
  pick_vps_list root = [r101; r102] /\
  map (fun r => get r "vpsid") (pick_vps_list root) = [JStr "101"; JStr "102"].
Proof.
  split.
  - intros root. unfold pick_vps_list, extractVmList.
    rewrite pick_from_keys_find. fold well_known_keys.
    destruct (List.find _ well_known_keys); reflexivity.
  - split; reflexivity.
Qed.

(** ** Deep scan *)

Lemma walk_each_cons limit c cs st :
  walk_each limit (c :: cs) st = walk_each limit cs (walk limit c st).
Proof. reflexivity. Qed.

(** One unfolding of [walk], with the two branches of the source merged
    over [children]. *)
Lemma walk_unfold (limit : Z) (x : json) (visited : Z) (found : list pydict) :
  walk limit x (visited, found) =
  if (limit <? visited)%Z || (500 <? Z.of_nat (length found))%Z then (visited, found)
  else if list_like x && nonempty (collect_items (children x))
       then (visited + 1, found ++ collect_items (children x))
       else walk_each limit (children x) (visited + 1, found).
Proof.
  assert (Hlen : forall A (l : list A), (1 <=? length l)%nat = nonempty l)
    by (intros A [|? ?]; reflexivity).
  destruct x as [| | | | |l|d]; cbn [walk];
    destruct ((limit <? visited)%Z || (500 <? Z.of_nat (length found))%Z);
    try reflexivity.
  - assert (Heach : forall cs st,
      (fix each (l : list json) (st : scan_state) {struct l} : scan_state :=
         match l with
         | [] => st
         | i :: r => each r (walk limit i st)
         end) cs st = walk_each limit cs st).
    { induction cs as [|c cs IH]; intros st; [reflexivity|]. rewrite IH. reflexivity. }
    rewrite Heach, Hlen. unfold list_like. simpl.
    destruct l as [|c l]; [reflexivity|]. simpl.
    destruct (is_dict c && forallb is_dict l); [|reflexivity].
    destruct (nonempty (collect_items (c :: l))); reflexivity.
  - assert (Heach : forall cs st,
      (fix each (d : list (string * json)) (st : scan_state) {struct d} : scan_state :=
         match d with
         | [] => st
         | kv :: r => each r (walk limit (snd kv) st)
         end) cs st = walk_each limit (values cs) st).
    { induction cs as [|c cs IH]; intros st; [reflexivity|]. rewrite IH. reflexivity. }
    rewrite Heach, Hlen. unfold list_like. simpl.
    destruct d as [|c d]; [reflexivity|]. simpl.
    destruct (is_dict (snd c) && forallb is_dict (values d)); [|reflexivity].
    destruct (nonempty (collect_items (values (c :: d)))); reflexivity.
Qed.

(** A property of the scan state that survives counting a node and
    appending the filtered entries of a node survives the whole walk. *)
Lemma walk_invariant (I : scan_state -> Prop) (limit : Z) :
  (forall v f, v <= limit -> Z.of_nat (length f) <= 500 -> I (v, f) -> I (v + 1, f)) ->
  (forall v f cs, I (v, f) -> I (v, f ++ collect_items cs)) ->
  forall x st, I st -> I (walk limit x st).
Proof.
  intros Hcount Hextend.
  assert (Heach : forall cs, Forall (fun c => forall st, I st -> I (walk limit c st)) cs ->
                    forall st, I st -> I (walk_each limit cs st)).
  { induction cs as [|c cs IH]; intros Hall st Hst; [exact Hst|].
    apply Forall_cons in Hall as [Hc Hcs].
    rewrite walk_each_cons. apply IH; [exact Hcs | apply Hc, Hst]. }
  assert (Hnode : forall x,
             Forall (fun c => forall st, I st -> I (walk limit c st)) (children x) ->
             forall st, I st -> I (walk limit x st)).
  { intros x Hall [v f] Hst. rewrite walk_unfold.
    destruct ((limit <? v)%Z || (500 <? Z.of_nat (length f))%Z) eqn:Hguard; [exact Hst|].
    apply orb_false_iff in Hguard as [Hv Hf].
    apply Z.ltb_ge in Hv, Hf.
    destruct (list_like x && nonempty (collect_items (children x))).
    - apply Hextend, Hcount; assumption.
    - apply Heach; [exact Hall | apply Hcount; assumption]. }
  induction x as [| | | | |l IH|d IH] using json_nested_ind;
    try (apply Hnode; simpl; constructor).
  - apply Hnode. exact IH.
  - apply Hnode. simpl. unfold values. apply Forall_map. exact IH.
Qed.

Lemma walk_found_all (P : pydict -> Prop) (limit : Z) (x : json) (st : scan_state) :
  (forall it, _looks_like_vps (_normalize_vps_item it) = true -> P (_normalize_vps_item it)) ->
  Forall P (snd st) -> Forall P (snd (walk limit x st)).
Proof.
  intros HP.
  apply (walk_invariant (fun st => Forall P (snd st))); simpl; [auto|].
  intros _ f cs Hf. apply Forall_app. split; [exact Hf|].
  rewrite collect_items_spec.
  induction (dicts_of cs) as [|d ds IH]; simpl; [constructor|].
  destruct (_looks_like_vps (_normalize_vps_item d)) eqn:E; [|exact IH].
  constructor; [apply HP, E | exact IH].
Qed.

(** ** Deduplication *)

Lemma find_app_first {A : Type} (p : A -> bool) (l1 l2 : list A) :
  List.find p (l1 ++ l2) =
  match List.find p l1 with
  | Some x => Some x
  | None => List.find p l2
  end.
Proof.
  induction l1 as [|a l1 IH]; simpl; [reflexivity|].
  destruct (p a); [reflexivity | exact IH].
Qed.

Lemma elem_of_map {A B : Type} (f : A -> B) (l : list A) (y : B) :
  y ∈ map f l <-> exists x, y = f x /\ x ∈ l.
Proof.
  rewrite list_elem_of_In, List.in_map_iff.
  split; intros [x [Hx Hin]]; exists x; (split; [congruence|]);
    apply list_elem_of_In; exact Hin.
Qed.

Lemma lookup_key_elem {V : Type} (d : odict V) (k : string) (v : V) :
  lookup_key d k = Some v -> (k, v) ∈ d.
Proof.
  induction d as [|[k0 v0] d IH]; simpl; [discriminate|].
  destruct (String.eqb k0 k) eqn:E.
  - apply String.eqb_eq in E. intros [= ->]. subst. left.
  - intros Hl. right. exact (IH Hl).
Qed.

Lemma elem_lookup_key {V : Type} (d : odict V) (k : string) (v : V) :
  NoDup (keys d) -> (k, v) ∈ d -> lookup_key d k = Some v.
Proof.
  unfold keys. induction d as [|[k0 v0] d IH]; simpl; intros Hnd Hin.
  - inversion Hin.
  - apply NoDup_cons in Hnd as [Hk0 Hnd].
    apply elem_of_cons in Hin as [Heq|Hin].
    + injection Heq as -> ->. rewrite String.eqb_refl. reflexivity.
    + destruct (String.eqb k0 k) eqn:E; [|exact (IH Hnd Hin)].
      apply String.eqb_eq in E. subst k0. exfalso. apply Hk0.
      apply elem_of_map. exists (k, v). split; [reflexivity | exact Hin].
Qed.

Section DedupeFacts.
Context `{PyBuiltins}.

Lemma last_with_cons (vid : string) (it : pydict) (found : list pydict) :
  last_with vid (it :: found) =
  match last_with vid found with
  | Some r => Some r
  | None => if String.eqb (vid_of it) vid then Some it else None
  end.
Proof. unfold last_with. simpl. rewrite find_app_first. reflexivity. Qed.

Lemma last_with_some (vid : string) (found : list pydict) (r : pydict) :
  last_with vid found = Some r -> r ∈ found /\ vid_of r = vid.
Proof.
  unfold last_with. intros Hf. apply List.find_some in Hf as [Hin Hp].
  split.
  - apply list_elem_of_In. apply List.in_rev. exact Hin.
  - apply String.eqb_eq. exact Hp.
Qed.

Lemma last_with_none (vid : string) (found : list pydict) :
  last_with vid found = None -> forall it, it ∈ found -> vid_of it <> vid.
Proof.
  unfold last_with. intros Hf it Hin Heq.
  apply list_elem_of_In, List.in_rev in Hin.
  pose proof (List.find_none _ _ Hf it Hin) as Hp. simpl in Hp.
  apply String.eqb_neq in Hp. contradiction.
Qed.

(** What the mapping [uniq] holds under each key once the loop is over. *)
Lemma dedupe_loop_lookup (found : list pydict) (uniq : odict pydict) (vid : string) :
  lookup_key (dedupe_loop found uniq) vid =
  if String.eqb vid "" then lookup_key uniq vid
  else match last_with vid found with
       | Some r => Some r
       | None => lookup_key uniq vid
       end.
Proof.
  revert uniq. induction found as [|it found IH]; intros uniq.
  - simpl. destruct (String.eqb vid ""); reflexivity.
  - simpl. rewrite last_with_cons.
    destruct (String.eqb (vid_of it) "") eqn:Eit; simpl; rewrite IH.
    + destruct (String.eqb vid "") eqn:Ev; [reflexivity|].
      destruct (last_with vid found); [reflexivity|].
      destruct (String.eqb (vid_of it) vid) eqn:E; [|reflexivity].
      apply String.eqb_eq in E, Eit. apply String.eqb_neq in Ev. congruence.
    + rewrite lookup_key_setitem.
      destruct (String.eqb vid "") eqn:Ev.
      * destruct (String.eqb (vid_of it) vid) eqn:E; [|reflexivity].
        apply String.eqb_eq in E, Ev. apply String.eqb_neq in Eit. congruence.
      * destruct (last_with vid found); [reflexivity|].
        destruct (String.eqb (vid_of it) vid); reflexivity.
Qed.

Lemma dedupe_loop_keys (found : list pydict) (uniq : odict pydict) :
  NoDup (keys uniq) -> NoDup (keys (dedupe_loop found uniq)).
Proof.
  revert uniq. induction found as [|it found IH]; intros uniq Hnd; [exact Hnd|].
  simpl. destruct (negb (String.eqb (vid_of it) "")); [|exact (IH _ Hnd)].
  apply IH. rewrite keys_setitem.
  destruct (has uniq (vid_of it)) eqn:Eh; [exact Hnd|].
  apply NoDup_app. split; [exact Hnd|]. split.
  - intros k Hk Hk'. apply list_elem_of_singleton in Hk'. subst k.
    apply has_keys in Hk. congruence.
  - apply NoDup_singleton.
Qed.

Lemma dedupe_loop_nil (found : list pydict) :
  dedupe_loop found [] = [] <-> forall it, it ∈ found -> vid_of it = "".
Proof.
  split.
  - intros Hnil it Hin.
    destruct (String.eqb (vid_of it) "") eqn:E; [apply String.eqb_eq, E|].
    pose proof (dedupe_loop_lookup found [] (vid_of it)) as Hl.
    rewrite Hnil, E in Hl. simpl in Hl.
    destruct (last_with (vid_of it) found) eqn:El; [discriminate|].
    exfalso. exact (last_with_none _ _ El it Hin eq_refl).
  - induction found as [|it found IH]; intros Hall; [reflexivity|].
    simpl. rewrite (Hall it) by left. simpl.
    apply IH. intros it' Hin. apply Hall. right. exact Hin.
Qed.

(** The records of a non-empty [uniq], read through their identifiers. *)
Lemma dedupe_loop_values (found : list pydict) (r : pydict) :
  r ∈ values (dedupe_loop found []) <->
  exists vid, vid <> "" /\ last_with vid found = Some r.
Proof.
  pose proof (dedupe_loop_keys found [] (NoDup_nil_2)) as Hnd.
  split.
  - intros Hin. unfold values in Hin. apply elem_of_map in Hin as [[k v] [-> Hin]].
    simpl. apply (elem_lookup_key _ _ _ Hnd) in Hin.
    rewrite dedupe_loop_lookup in Hin. exists k.
    destruct (String.eqb k "") eqn:Ek; simpl in Hin; [discriminate|].
    apply String.eqb_neq in Ek. split; [exact Ek|].
    destruct (last_with k found); [exact Hin | discriminate].
  - intros [vid [Hvid Hlast]].
    pose proof (dedupe_loop_lookup found [] vid) as Hl.
    apply String.eqb_neq in Hvid. rewrite Hvid, Hlast in Hl.
    apply lookup_key_elem in Hl. unfold values.
    apply elem_of_map. exists (vid, r). split; [reflexivity | exact Hl].
Qed.

Lemma dedupe_loop_vids (found : list pydict) :
  map vid_of (values (dedupe_loop found [])) = keys (dedupe_loop found []).
Proof.
  pose proof (dedupe_loop_keys found [] (NoDup_nil_2)) as Hnd.
  assert (Hall : forall k v, (k, v) ∈ dedupe_loop found [] -> vid_of v = k).
  { intros k v Hin. apply (elem_lookup_key _ _ _ Hnd) in Hin.
    rewrite dedupe_loop_lookup in Hin.
    destruct (String.eqb k ""); simpl in Hin; [discriminate|].
    destruct (last_with k found) eqn:El; [|discriminate].
    injection Hin as ->. exact (proj2 (last_with_some _ _ _ El)). }
  revert Hall. unfold values, keys.
  generalize (dedupe_loop found []). intros u Hall.
  induction u as [|[k v] u IH]; simpl; [reflexivity|].
  rewrite (Hall k v) by left. f_equal. apply IH.
  intros k' v' Hin. apply Hall. right. exact Hin.
Qed.

Lemma dedupe_elem (found : list pydict) (r : pydict) :
  r ∈ dedupe found -> r ∈ found.
Proof.
  unfold dedupe. destruct (dedupe_loop found []) as [|kv u] eqn:E; [auto|].
  rewrite <- E. intros Hin. apply dedupe_loop_values in Hin as [vid [_ Hl]].
  exact (proj1 (last_with_some _ _ _ Hl)).
Qed.
End DedupeFacts.

(** C7. The identifier of an entry is what its [vpsid] field prints as,
    and empty when the field is missing or falsy.  After the scan the
    accumulated entries are deduplicated by identifier, the last
    accumulated occurrence of an identifier winning: when some
    accumulated entry carries an identifier, the result holds one record
    for each identifier, and a record is in the result exactly when it
    is the last entry accumulated under its identifier.  When no
    accumulated entry carries an identifier the accumulated list is
    returned as it is.  So of a VM listed under two keys the later
    record is returned, once, and two entries without identifier are
    both returned, equal as they are. *)
Theorem deep_find_dedupe `{PyBuiltins} :
  (forall (it : pydict) (s : string), get it "vpsid" = JStr s -> vid_of it = s) /\
  (forall (it : pydict) (z : Z), get it "vpsid" = JInt z -> z <> 0 -> vid_of it = pretty z) /\
  (forall it : pydict, truthy (get it "vpsid") = false -> vid_of it = "") /\
  (forall (obj : json) (limit : Z),
      let found := snd (walk limit obj (0, [])) in
      (forall it, it ∈ found -> vid_of it = "") ->
      deep_find_vps_list obj limit = found) /\
  (forall (obj : json) (limit : Z),
      let found := snd (walk limit obj (0, [])) in
      (exists it, it ∈ found /\ vid_of it <> "") ->
      NoDup (map vid_of (deep_find_vps_list obj limit)) /\
      forall r, r ∈ deep_find_vps_list obj limit <->
                exists vid, vid <> "" /\ last_with vid found = Some r) /\
  snd (walk 5000 twice_listed (0, [])) =
    [[("vpsid", JStr "7"); ("name", JStr "old")];
     [("vpsid", JStr "7"); ("name", JStr "new")];
     [("vpsid", JInt 8)]] /\
  deep_find_vps_list twice_listed 5000 =
    [[("vpsid", JStr "7"); ("name", JStr "new")]; [("vpsid", JInt 8)]] /\
  deep_find_vps_list unidentified 5000 =
    [[("name", JStr "x")]; [("name", JStr "x")]].
Proof.
  split; [|split; [|split; [|split; [|split; [|split; [|split]]]]]].
  - intros it s Hget. unfold vid_of, py_or. rewrite Hget. cbn [truthy].
    destruct (String.eqb_spec s "") as [->|_]; reflexivity.
  - intros it z Hget Hz. unfold vid_of, py_or. rewrite Hget. cbn [truthy].
    destruct (Z.eqb_spec z 0) as [|_]; [contradiction|reflexivity].
  - intros it Hfalsy. unfold vid_of, py_or. rewrite Hfalsy. reflexivity.
  - intros obj limit found Hall. unfold deep_find_vps_list, dedupe. fold found.
    rewrite (proj2 (dedupe_loop_nil found) Hall). reflexivity.
  - intros obj limit found [it [Hin Hvid]].
    assert (Hne : dedupe_loop found [] <> []).
    { intros Hnil. apply Hvid. exact (proj1 (dedupe_loop_nil found) Hnil it Hin). }
    assert (Hd : deep_find_vps_list obj limit = values (dedupe_loop found [])).
    { unfold deep_find_vps_list, dedupe. fold found.
      destruct (dedupe_loop found []); [contradiction | reflexivity]. }
    rewrite Hd. split.
    + rewrite dedupe_loop_vids. apply dedupe_loop_keys. apply NoDup_nil_2.
    + intros r. apply dedupe_loop_values.
  - vm_compute. reflexivity.
  - vm_compute. reflexivity.
  - vm_compute. reflexivity.
Qed.

Lemma normalize_has_vpsid (it : pydict) :
  has (_normalize_vps_item it) "vps_id" || has (_normalize_vps_item it) "id" = true ->
  has (_normalize_vps_item it) "vpsid" = true.
Proof.
  unfold _normalize_vps_item.
  destruct (has it "vps_id") eqn:E1, (has it "vpsid") eqn:E2; simpl;
    repeat (rewrite ?has_setitem, ?E1, ?E2; simpl);
    try (intros _; reflexivity);
    try (destruct (has it "id") eqn:E3; simpl; rewrite ?has_setitem, ?E1, ?E2, ?E3; simpl;
         intros; try reflexivity; try discriminate).
Qed.

(** C5, as the code has it.  A processed node that is a non-empty sequence
    of mappings, or a non-empty mapping of mappings, is taken as the list
    when at least one of its entries passes the VM-likeness filter: the
    passing entries, normalized, are appended and the scan does not
    descend.  When no entry passes, the scan goes on into the children of
    the node. *)
Theorem walk_list_like (limit : Z) (x : json) (visited : Z) (found : list pydict) :
  visited <= limit -> Z.of_nat (length found) <= 500 -> list_like x = true ->
  (candidate_records x <> [] ->
   walk limit x (visited, found) = (visited + 1, found ++ candidate_records x)) /\
  (candidate_records x = [] ->
   walk limit x (visited, found) = walk_each limit (children x) (visited + 1, found)).
Proof.
  intros Hv Hf Hll.
  assert (Hc : candidate_records x = collect_items (children x)).
  { destruct x; try discriminate Hll; simpl; rewrite collect_items_spec; reflexivity. }
  rewrite walk_unfold, Hll, Hc.
  replace ((limit <? visited)%Z || (500 <? Z.of_nat (length found))%Z) with false
    by (symmetry; apply orb_false_iff; split; apply Z.ltb_ge; lia).
  simpl. split; intros Hitems.
  - destruct (collect_items (children x)); [contradiction | reflexivity].
  - rewrite Hitems. reflexivity.
Qed.

Lemma walk_list_like_witness :
  walk 5000 (JList [JDict [("id", JInt 7)]; JDict [("uid", JInt 1)]]) (0, []) =
  (1, [[("id", JInt 7); ("vpsid", JInt 7)]]).
Proof.
  apply (proj1 (walk_list_like 5000 (JList [JDict [("id", JInt 7)]; JDict [("uid", JInt 1)]])
                  0 [] ltac:(lia) ltac:(simpl; lia) eq_refl)).
  discriminate.
Defined.

(** C5 as stated fails: the outer sequence below is a non-empty sequence
    of mappings none of which passes the filter, and the scan descends
    into it and finds the record two levels down. *)
Lemma walk_list_like_descends :
  list_like (JList [JDict [("k", JList [JDict [("vpsid", JStr "7")]])]]) = true /\
  candidate_records (JList [JDict [("k", JList [JDict [("vpsid", JStr "7")]])]]) = [] /\
  walk 5000 (JList [JDict [("k", JList [JDict [("vpsid", JStr "7")]])]]) (0, []) =
    (3, [[("vpsid", JStr "7")]]) /\
  walk 5000 (JList [JDict [("k", JList [JDict [("vpsid", JStr "7")]])]]) (0, []) <>
    (1, [] ++ candidate_records (JList [JDict [("k", JList [JDict [("vpsid", JStr "7")]])]])).
Proof. repeat split; try reflexivity. vm_compute. discriminate. Qed.

(** ** The deep scan under the recursion limit *)












(** C6, as the code has it.  Every record [pick_vps_list] returns passes
    the VM-likeness filter: it has a [vpsid] key, or it has no [uid] and
    one of hostname, name, primary_ip, ip; and a record that has [vps_id]
    or [id] has [vpsid] too.  Nothing makes the identifier a string, or
    non-empty, or present. *)
Theorem pick_vps_list_records `{PyBuiltins} (root : json) :
  Forall (fun r => _looks_like_vps r = true /\
                   (has r "vps_id" || has r "id" = true -> has r "vpsid" = true))
         (pick_vps_list root).
Proof.
  set (P := fun r : pydict => _looks_like_vps r = true /\
                   (has r "vps_id" || has r "id" = true -> has r "vpsid" = true)).
  assert (Hnorm : forall it, _looks_like_vps (_normalize_vps_item it) = true ->
                             P (_normalize_vps_item it)).
  { intros it Hl. split; [exact Hl | apply normalize_has_vpsid]. }
  assert (Hcand : forall v, Forall P (candidate_records v)).
  { assert (Hfl : forall ds, Forall P (List.filter _looks_like_vps (map _normalize_vps_item ds))).
    { induction ds as [|d ds IH]; simpl; [constructor|].
      destruct (_looks_like_vps (_normalize_vps_item d)) eqn:E; [|exact IH].
      constructor; [apply Hnorm, E | exact IH]. }
    intros [| | | | |l|d]; simpl; try constructor; apply Hfl. }
  destruct root as [| | | | | |d]; try (simpl; constructor).
  unfold pick_vps_list. rewrite pick_from_keys_find.
  destruct (List.find _ _) as [k|]; [apply Hcand|].
  unfold deep_find_vps_list. apply Forall_forall. intros r Hin.
  apply dedupe_elem in Hin.
  pose proof (walk_found_all P 5000 (JDict d) (0, []) Hnorm (Forall_nil_2 P)) as Hall.
  rewrite Forall_forall in Hall. exact (Hall r Hin).
Qed.

(** C6 as stated fails: a record accepted on its hostname alone comes
    back without any identifier, and an identifier that is present can be
    an integer or the empty string. *)
Lemma pick_vps_list_no_identifier :
  @pick_vps_list plain_builtins (JDict [("vs", JList [JDict [("hostname", JStr "a")]])]) =
    [[("hostname", JStr "a")]] /\
  has [("hostname", JStr "a")] "vpsid" = false /\
  @pick_vps_list plain_builtins
     (JDict [("vs", JList [JDict [("id", JInt 101)]; JDict [("vpsid", JStr "")]])]) =
    [[("id", JInt 101); ("vpsid", JInt 101)]; [("vpsid", JStr "")]].
Proof. repeat split. Qed.

(** ** Classifier *)

(** C3. [classify_level] is [None] on an unknown percentage; otherwise
    "critical" when [pct >= critical], else "warn" when [pct >= warn], else
    "ok".  Both comparisons are inclusive and the critical test comes
    first, whatever the order of the two thresholds; "warn" is reported
    exactly for [warn <= pct < critical]. *)
Theorem classify_level_spec (warn critical : Z) :
  classify_level None warn critical = None /\
  (forall pct : Z,
      (critical <= pct -> classify_level (Some pct) warn critical = Some "critical") /\
      (pct < critical -> warn <= pct -> classify_level (Some pct) warn critical = Some "warn") /\
      (pct < critical -> pct < warn -> classify_level (Some pct) warn critical = Some "ok") /\
      (classify_level (Some pct) warn critical = Some "warn" <-> warn <= pct < critical) /\
      (classify_level (Some pct) warn critical = Some "critical" <-> critical <= pct)).
Proof.
  split; [reflexivity|].
  intros pct. unfold classify_level.
  destruct (Z.leb_spec critical pct) as [Hc|Hc];
    destruct (Z.leb_spec warn pct) as [Hw|Hw];
    repeat split; intros; try lia; try reflexivity; try discriminate.
Qed.

(** ** Usage extractor *)

Section UsageFacts.
Context `{PyBuiltins}.

Lemma first_truthy_falsy (info : pydict) (a b c d : string) :
  truthy (get info a) = false -> truthy (get info b) = false ->
  truthy (get info c) = false ->
  first_truthy info a b c d = get info d.
Proof.
  intros Ha Hb Hc. unfold first_truthy, py_or. rewrite Ha, Hb, Hc. reflexivity.
Qed.

(** [float()] of a falsy value raises or returns a zero. *)
Lemma py_float_falsy (x : json) (f : float) :
  truthy x = false -> py_float x = Returns f -> truthy (JFloat f) = false.
Proof.
  destruct x as [|b|z|g|s|l|d]; simpl; intros Hx Hf; try discriminate.
  - subst b. injection Hf as <-. reflexivity.
  - apply negb_false_iff, Z.eqb_eq in Hx. subst z. injection Hf as <-. reflexivity.
  - injection Hf as <-. exact Hx.
  - apply negb_false_iff in Hx. rewrite Hx in Hf. discriminate.
Qed.

Lemma usage_percent_falsy (used total : json) :
  truthy used = false -> usage_percent (float_pair used total) = Returns None.
Proof.
  intros Hu. unfold float_pair.
  destruct (py_float used) as [u|e] eqn:Eu; [|reflexivity].
  destruct (py_float total) as [t|e]; [|reflexivity].
  unfold usage_percent, opt_truthy. rewrite (py_float_falsy used u Hu Eu). reflexivity.
Qed.

Lemma float_pair_raises (used total : json) (e : pyexn) :
  py_float used = Raises e -> float_pair used total = (None, None).
Proof. intros Hu. unfold float_pair. rewrite Hu. reflexivity. Qed.
End UsageFacts.

(** C10, as the code has it.  When none of the four used-aliases holds a
    truthy value the [or]-chain yields the value under the LAST alias
    ([used_hdd], [used_bw]), whatever the earlier aliases hold: the
    extractor returns [(None, None)] when [float()] of that value raises
    (the alias is absent, [None], an empty string or container), and the
    pair of floats otherwise (the last alias is itself 0, 0.0 or False).
    Either way the alert engine gets no percentage, and the level is
    [None] rather than "ok". *)
Theorem zero_usage_is_unknown `{PyBuiltins} (info : pydict) (warn critical : Z) :
  (truthy (get info "disk_used") = false -> truthy (get info "used_disk") = false ->
   truthy (get info "hdd_used") = false -> truthy (get info "used_hdd") = false ->
   (forall e, py_float (get info "used_hdd") = Raises e ->
              extract_disk_usage info = (None, None)) /\
   (forall u t, py_float (get info "used_hdd") = Returns u ->
                py_float (first_truthy info "disk" "vps_disk" "hdd" "total_hdd") = Returns t ->
                extract_disk_usage info = (Some u, Some t)) /\
   usage_percent (extract_disk_usage info) = Returns None /\
   classify_level None warn critical = None) /\
  (truthy (get info "bandwidth_used") = false -> truthy (get info "bw_used") = false ->
   truthy (get info "used_bandwidth") = false -> truthy (get info "used_bw") = false ->
   (forall e, py_float (get info "used_bw") = Raises e ->
              extract_bw_usage info = (None, None)) /\
   (forall u t, py_float (get info "used_bw") = Returns u ->
                py_float (first_truthy info "bandwidth" "bw" "total_bandwidth" "total_bw")
                  = Returns t ->
                extract_bw_usage info = (Some u, Some t)) /\
   usage_percent (extract_bw_usage info) = Returns None /\
   classify_level None warn critical = None).
Proof.
  split; intros H1 H2 H3 H4.
  - unfold extract_disk_usage. rewrite (first_truthy_falsy _ _ _ _ _ H1 H2 H3).
    repeat split.
    + intros e He. exact (float_pair_raises _ _ e He).
    + intros u t Hu Ht. unfold float_pair. rewrite Hu, Ht. reflexivity.
    + apply usage_percent_falsy, H4.
  - unfold extract_bw_usage. rewrite (first_truthy_falsy _ _ _ _ _ H1 H2 H3).
    repeat split.
    + intros e He. exact (float_pair_raises _ _ e He).
    + intros u t Hu Ht. unfold float_pair. rewrite Hu, Ht. reflexivity.
    + apply usage_percent_falsy, H4.
Qed.

(** C10 as stated fails when the zero sits under the last alias: the
    extractor then returns the zero and the total. *)
Lemma zero_under_last_alias :
  @extract_disk_usage plain_builtins [("used_hdd", JInt 0); ("disk", JInt 50)] =
    (Some 0%float, Some 50%float) /\
  @extract_bw_usage plain_builtins [("used_bw", JInt 0); ("bandwidth", JInt 50)] =
    (Some 0%float, Some 50%float) /\
  @extract_disk_usage plain_builtins [("disk_used", JInt 0); ("used_hdd", JBool false); ("disk", JInt 50)] =
    (Some 0%float, Some 50%float).
Proof. repeat split; vm_compute; reflexivity. Qed.

(** ** Alert engine *)



Section AlertFacts.
Context `{PyBuiltins}.

(** The shape of a completed run of the loop body. *)
Lemma alert_vm_returns (s : alert_settings) (user_id profile_id : Z) (vps_id : string)
    (info : pydict) (db : alert_db) (msgs : list message) (db' : alert_db) :
  alert_vm s user_id profile_id vps_id info db = Returns (msgs, db') ->
  exists disk_pct bw_pct name ip,
    usage_percent (extract_disk_usage info) = Returns disk_pct /\
    usage_percent (extract_bw_usage info) = Returns bw_pct /\
    let disk_level := classify_level disk_pct (disk_warn s) (disk_critical s) in
    let bw_level := classify_level bw_pct (bw_warn s) (bw_critical s) in
    let prev := get_alert_state db user_id profile_id vps_id in
    let flag := observed_suspended info in
    db' = set_alert_state db user_id profile_id vps_id disk_level bw_level (Some flag) /\
    msgs =
      (if level_changed disk_level (last_disk_level prev)
       then [DiskAlert (default "" disk_level) name ip disk_pct] else [])
      ++ (if level_changed bw_level (last_bw_level prev)
          then [BwAlert (default "" bw_level) name ip bw_pct] else [])
      ++ (if suspend_alerts s then
            match last_suspend prev with
            | Some q =>
                (if (flag =? 1)%Z && (q =? 0)%Z then [SuspendNotice name ip] else [])
                ++ (if (flag =? 0)%Z && (q =? 1)%Z then [UnsuspendNotice name ip] else [])
            | None => []
            end
          else []).
Proof.
  unfold alert_vm. intros Hrun.
  destruct (usage_percent (extract_disk_usage info)) as [disk_pct|e]; [|discriminate].
  destruct (usage_percent (extract_bw_usage info)) as [bw_pct|e]; [|discriminate].
  injection Hrun as <- <-. do 4 eexists. repeat split.
Qed.

Lemma get_set_alert_state (db : alert_db) (user_id profile_id : Z) (vps_id : string)
    (disk_level bw_level : option string) (suspend : option Z) :
  get_alert_state (set_alert_state db user_id profile_id vps_id disk_level bw_level suspend)
    user_id profile_id vps_id =
  {| last_disk_level := disk_level; last_bw_level := bw_level; last_suspend := suspend |}.
Proof.
  unfold get_alert_state, set_alert_state. rewrite lookup_insert_eq. reflexivity.
Qed.
End AlertFacts.







(** A VM the sweep processes contributes the messages of the loop body,
    and the body's table is the one the next VM is diffed against. *)
Lemma alert_vps_list_processed `{PyBuiltins} (s : alert_settings) (user_id profile_id : Z)
    (fetch : string -> option pydict) (v : pydict) (rest : list pydict)
    (log : list message) (db : alert_db)
    (info : pydict) (msgs : list message) (db' : alert_db) :
  vid_of v <> "" -> fetch (vid_of v) = Some info ->
  alert_vm s user_id profile_id (vid_of v) info db = Returns (msgs, db') ->
  alert_vps_list s user_id profile_id fetch (v :: rest) log db =
  alert_vps_list s user_id profile_id fetch rest (log ++ msgs) db'.
Proof.
  intros Hid Hfetch Hrun. cbn [alert_vps_list].
  apply String.eqb_neq in Hid. rewrite Hid, Hfetch, Hrun. reflexivity.
Qed.

(** A VM without identifier or whose detail cannot be fetched is skipped:
    nothing is sent and its alert state is not touched. *)
Lemma alert_vps_list_skipped `{PyBuiltins} (s : alert_settings) (user_id profile_id : Z)
    (fetch : string -> option pydict) (v : pydict) (rest : list pydict)
    (log : list message) (db : alert_db) :
  vid_of v = "" \/ fetch (vid_of v) = None ->
  alert_vps_list s user_id profile_id fetch (v :: rest) log db =
  alert_vps_list s user_id profile_id fetch rest log db.
Proof.
  intros Hskip. cbn [alert_vps_list].
  destruct (String.eqb_spec (vid_of v) "") as [_|Hid]; [reflexivity|].
  destruct Hskip as [Hempty|Hfetch]; [contradiction|].
  rewrite Hfetch. reflexivity.
Qed.

(** Scenario E: VM "101" is processed, the failed fetch of "102" leaves no
    row for it, and the loop runs to its end. *)
Example sweep_isolates_failed_fetch :
  exists msgs db',
    @alert_vps_list plain_builtins default_settings 7 1 scenario_E_fetch scenario_E_list
                    [] scenario_B_db = (msgs, db', None) /\
    msgs = [DiskAlert "critical" (JStr "VPS 101") (JStr "-") (Some 100)] /\
    last_disk_level (get_alert_state db' 7 1 "101") = Some "critical" /\
    db' !! (7, 1, "102") = None.
Proof. do 2 eexists. split; [vm_compute; reflexivity|]. repeat split. Qed.


Lemma zero_usage_is_unknown_witness :
  @extract_disk_usage plain_builtins [("disk_used", JInt 0); ("disk", JInt 50)] = (None, None) /\
  @usage_percent (@extract_disk_usage plain_builtins [("disk_used", JInt 0); ("disk", JInt 50)])
    = Returns None /\
  @extract_bw_usage plain_builtins [("bw_used", JFloat 0); ("bandwidth", JInt 50)] = (None, None) /\
  @usage_percent (@extract_bw_usage plain_builtins [("bw_used", JFloat 0); ("bandwidth", JInt 50)])
    = Returns None.
Proof.
  pose proof (proj1 (@zero_usage_is_unknown plain_builtins
                       [("disk_used", JInt 0); ("disk", JInt 50)] 80 100)
                eq_refl eq_refl eq_refl eq_refl) as (Hd & _ & Hdp & _).
  pose proof (proj2 (@zero_usage_is_unknown plain_builtins
                       [("bw_used", JFloat 0); ("bandwidth", JInt 50)] 80 100)
                eq_refl eq_refl eq_refl eq_refl) as (Hb & _ & Hbp & _).
  split; [exact (Hd TypeError eq_refl)|].
  split; [exact Hdp|].
  split; [exact (Hb TypeError eq_refl) | exact Hbp].
Defined.

(** ** Binary64 rounding

    The division and the multiplication of [compute_percent] each round
    their exact result to the nearest binary64; rounding is monotone,
    hence so is the percentage. *)

Section FloatRounding.
Local Open Scope R_scope.

Lemma bpow_pos (e : Z) : 0 < bpow e.
Proof. apply powerRZ_lt. lra. Qed.

Lemma bpow_add (e1 e2 : Z) : bpow (e1 + e2) = bpow e1 * bpow e2.
Proof. apply powerRZ_add. lra. Qed.

Lemma bpow_IZR (n : Z) : (0 <= n)%Z -> bpow n = IZR (2 ^ n).
Proof.
  intros Hn. unfold bpow. rewrite <- (Z2Nat.id n Hn) at 1.
  rewrite <- pow_powerRZ, pow_IZR, Z2Nat.id by exact Hn. reflexivity.
Qed.

Lemma bpow_ge_1 (n : Z) : (0 <= n)%Z -> 1 <= bpow n.
Proof.
  intros Hn. rewrite bpow_IZR by exact Hn. apply IZR_le.
  pose proof (Z.pow_pos_nonneg 2 n ltac:(lia) Hn). lia.
Qed.

Lemma bpow_le (e1 e2 : Z) : (e1 <= e2)%Z -> bpow e1 <= bpow e2.
Proof.
  intros Hle. replace e2 with (e1 + (e2 - e1))%Z by lia. rewrite bpow_add.
  pose proof (bpow_pos e1). pose proof (bpow_ge_1 (e2 - e1) ltac:(lia)). nra.
Qed.

Lemma bpow_lt (e1 e2 : Z) : (e1 < e2)%Z -> bpow e1 < bpow e2.
Proof.
  intros Hlt. replace e2 with (e1 + 1 + (e2 - e1 - 1))%Z by lia. rewrite !bpow_add.
  pose proof (bpow_pos e1). pose proof (bpow_ge_1 (e2 - e1 - 1) ltac:(lia)).
  replace (bpow 1) with 2 by (unfold bpow; simpl; lra). nra.
Qed.

Lemma bpow_succ (e : Z) : bpow (e + 1) = 2 * bpow e.
Proof. rewrite bpow_add. unfold bpow at 2. simpl. lra. Qed.

Lemma bpow_0 : bpow 0 = 1.
Proof. reflexivity. Qed.

Lemma bpow_opp (e : Z) : bpow (- e) = / bpow e.
Proof. apply powerRZ_neg'. Qed.

Lemma bpow_sub (e1 e2 : Z) : bpow (e1 - e2) = bpow e1 / bpow e2.
Proof. unfold Z.sub. rewrite bpow_add, bpow_opp. reflexivity. Qed.

(** Number of binary digits. *)
Lemma digits2_pos_bounds (p : positive) :
  (2 ^ (Z.pos (digits2_pos p) - 1) <= Z.pos p < 2 ^ Z.pos (digits2_pos p))%Z.
Proof.
  induction p as [p IH|p IH|]; simpl digits2_pos.
  - rewrite Pos2Z.inj_succ, Z.pow_succ_r by lia.
    replace (Z.succ (Z.pos (digits2_pos p)) - 1)%Z with (Z.succ (Z.pos (digits2_pos p) - 1)) by lia.
    rewrite Z.pow_succ_r by lia. lia.
  - rewrite Pos2Z.inj_succ, Z.pow_succ_r by lia.
    replace (Z.succ (Z.pos (digits2_pos p)) - 1)%Z with (Z.succ (Z.pos (digits2_pos p) - 1)) by lia.
    rewrite Z.pow_succ_r by lia. lia.
  - simpl. lia.
Qed.

Lemma Zdigits2_nonneg (m : Z) : (0 <= Zdigits2 m)%Z.
Proof. destruct m; simpl; lia. Qed.

(** For [m >= 0]: [m < 2^digits], and [2^(digits-1) <= m] when [m > 0]. *)
Lemma Zdigits2_upper (m : Z) : (0 <= m)%Z -> IZR m < bpow (Zdigits2 m).
Proof.
  intros Hm. rewrite bpow_IZR by apply Zdigits2_nonneg. apply IZR_lt.
  destruct m as [|p|p]; simpl; [lia | apply digits2_pos_bounds | lia].
Qed.

Lemma Zdigits2_lower (m : Z) : (0 < m)%Z -> bpow (Zdigits2 m - 1) <= IZR m.
Proof.
  intros Hm. destruct m as [|p|p]; try lia. simpl Zdigits2.
  rewrite bpow_IZR by lia. apply IZR_le. apply digits2_pos_bounds.
Qed.

Lemma located_bounds (x : R) (m : Z) (l : location) :
  located x m l -> IZR m <= x < IZR m + 1.
Proof. destruct l as [|[| |]]; simpl; lra. Qed.

Lemma located_shr_record (m : Z) (l : location) :
  shr_m (shr_record_of_loc m l) = m /\
  loc_of_shr_record (shr_record_of_loc m l) = l.
Proof. destruct l as [|[| |]]; split; reflexivity. Qed.

Lemma IZR_xO (p : positive) : IZR (Z.pos p~0) = 2 * IZR (Z.pos p).
Proof. rewrite Pos2Z.inj_xO, mult_IZR. reflexivity. Qed.

Lemma IZR_xI (p : positive) : IZR (Z.pos p~1) = 2 * IZR (Z.pos p) + 1.
Proof. rewrite Pos2Z.inj_xI, plus_IZR, mult_IZR. reflexivity. Qed.

(** One step of [shr] halves the represented real. *)
Lemma shr_1_located (mrs : shr_record) (x : R) :
  (0 <= shr_m mrs)%Z ->
  located x (shr_m mrs) (loc_of_shr_record mrs) ->
  (0 <= shr_m (shr_1 mrs))%Z /\
  located (x / 2) (shr_m (shr_1 mrs)) (loc_of_shr_record (shr_1 mrs)).
Proof.
  destruct mrs as [m r s]. simpl shr_m. intros Hm.
  destruct m as [|[p|p|]|p]; try lia;
    destruct r, s; cbn [shr_1 shr_m loc_of_shr_record located orb];
    try rewrite (IZR_xO p); try rewrite (IZR_xI p); intros Hx; (split; [lia | lra]).
Qed.

Lemma iter_shr_1_located (p : positive) :
  forall (mrs : shr_record) (x : R),
    (0 <= shr_m mrs)%Z ->
    located x (shr_m mrs) (loc_of_shr_record mrs) ->
    (0 <= shr_m (SpecFloat.iter_pos shr_1 p mrs))%Z /\
    located (x / bpow (Z.pos p)) (shr_m (SpecFloat.iter_pos shr_1 p mrs))
            (loc_of_shr_record (SpecFloat.iter_pos shr_1 p mrs)).
Proof.
  induction p as [p IH|p IH|]; intros mrs x Hm Hx; simpl SpecFloat.iter_pos.
  - destruct (shr_1_located mrs x Hm Hx) as [Hm1 Hx1].
    destruct (IH _ _ Hm1 Hx1) as [Hm2 Hx2].
    destruct (IH _ _ Hm2 Hx2) as [Hm3 Hx3].
    split; [exact Hm3|].
    replace (x / bpow (Z.pos p~1)) with (x / 2 / bpow (Z.pos p) / bpow (Z.pos p)); [exact Hx3|].
    rewrite Pos2Z.inj_xI. replace (2 * Z.pos p + 1)%Z with (Z.pos p + Z.pos p + 1)%Z by lia.
    rewrite bpow_succ, bpow_add. pose proof (bpow_pos (Z.pos p)). field. lra.
  - destruct (IH _ _ Hm Hx) as [Hm2 Hx2].
    destruct (IH _ _ Hm2 Hx2) as [Hm3 Hx3].
    split; [exact Hm3|].
    replace (x / bpow (Z.pos p~0)) with (x / bpow (Z.pos p) / bpow (Z.pos p)); [exact Hx3|].
    rewrite Pos2Z.inj_xO. replace (2 * Z.pos p)%Z with (Z.pos p + Z.pos p)%Z by lia.
    rewrite bpow_add. pose proof (bpow_pos (Z.pos p)). field. lra.
  - replace (bpow 1) with 2 by (unfold bpow; simpl; lra).
    apply shr_1_located; assumption.
Qed.

Lemma fexp_eq (e : Z) : fexp prec emax e = Z.max (e - 53) (-1074).
Proof. reflexivity. Qed.

(** [shr_fexp] moves a located real to the exponent [max e (fexp (digits + e))]. *)
Lemma shr_fexp_located (m e : Z) (l : location) (r : R) (mrs' : shr_record) (e' : Z) :
  (0 <= m)%Z -> located (r / bpow e) m l ->
  shr_fexp prec emax m e l = (mrs', e') ->
  e' = Z.max e (fexp prec emax (Zdigits2 m + e)) /\
  (0 <= shr_m mrs')%Z /\
  located (r / bpow e') (shr_m mrs') (loc_of_shr_record mrs').
Proof.
  intros Hm Hloc. unfold shr_fexp, shr.
  destruct (located_shr_record m l) as [Hsm Hsl].
  destruct (fexp prec emax (Zdigits2 m + e) - e)%Z as [|p|p] eqn:Hn;
    intros [= <- <-].
  - rewrite Hsm, Hsl. repeat split; [lia | exact Hm | exact Hloc].
  - destruct (iter_shr_1_located p (shr_record_of_loc m l) (r / bpow e)) as [Hm' Hloc'].
    + rewrite Hsm. exact Hm.
    + rewrite Hsm, Hsl. exact Hloc.
    + repeat split; [lia | exact Hm' |].
      replace (r / bpow (e + Z.pos p)) with (r / bpow e / bpow (Z.pos p)); [exact Hloc'|].
      rewrite bpow_add. pose proof (bpow_pos e). pose proof (bpow_pos (Z.pos p)).
      field. lra.
  - rewrite Hsm, Hsl. repeat split; [lia | exact Hm | exact Hloc].
Qed.

Lemma rne_bounds (x : R) (m : Z) (l : location) :
  (m <= round_nearest_even m l <= m + 1)%Z.
Proof.
  destruct l as [|[| |]]; simpl; try lia. destruct (Z.even m); lia.
Qed.

Lemma rne_mono (x1 x2 : R) (m1 m2 : Z) (l1 l2 : location) :
  located x1 m1 l1 -> located x2 m2 l2 -> x1 <= x2 ->
  (round_nearest_even m1 l1 <= round_nearest_even m2 l2)%Z.
Proof.
  intros H1 H2 Hx.
  pose proof (rne_bounds x1 m1 l1) as B1. pose proof (rne_bounds x2 m2 l2) as B2.
  pose proof (located_bounds _ _ _ H1) as L1. pose proof (located_bounds _ _ _ H2) as L2.
  destruct (Z.compare_spec m1 m2) as [Heq|Hlt|Hgt].
  - subst m2.
    destruct l1 as [|[| |]], l2 as [|[| |]]; simpl in *;
      try destruct (Z.even m1); try lia; exfalso; lra.
  - lia.
  - exfalso. assert (IZR m2 + 1 <= IZR m1) by (rewrite <- plus_IZR; apply IZR_le; lia). lra.
Qed.

Lemma binary_round_aux_mag (s : bool) (m e : Z) (l : location) :
  binary_round_aux prec emax s m e l =
  match fst (round_mag m e l) with
  | Z0 => S754_zero s
  | Zpos p =>
      if (snd (round_mag m e l) <=? emax - prec)%Z
      then S754_finite s p (snd (round_mag m e l)) else S754_infinity s
  | Zneg _ => S754_nan
  end.
Proof.
  unfold binary_round_aux, round_mag.
  destruct (shr_fexp prec emax m e l) as [mrs' e'].
  destruct (shr_fexp prec emax _ e' loc_Exact) as [mrs'' e'']. reflexivity.
Qed.

Lemma Zdigits2_le_prec (m : Z) : (0 <= m < 2 ^ 53)%Z -> (Zdigits2 m <= 53)%Z.
Proof.
  intros [Hm0 Hm]. destruct m as [|p|p]; simpl; try lia.
  pose proof (digits2_pos_bounds p) as [Hlo _].
  apply Z.le_ngt. intros Hd.
  assert (2 ^ 53 <= 2 ^ (Z.pos (digits2_pos p) - 1))%Z by (apply Z.pow_le_mono_r; lia).
  lia.
Qed.

Lemma shr_1_carry :
  shr_1 {| shr_m := (2 ^ 53)%Z; shr_r := false; shr_s := false |} =
  {| shr_m := (2 ^ 52)%Z; shr_r := false; shr_s := false |}.
Proof. reflexivity. Qed.

Lemma IZR_carry : IZR (2 ^ 53)%Z = 2 * IZR (2 ^ 52)%Z.
Proof. rewrite <- mult_IZR. apply f_equal. reflexivity. Qed.

(** The second [shr_fexp] of [binary_round_aux] only renormalizes. *)
Lemma renormalize_exact (m E : Z) (mrs : shr_record) (e'' : Z) :
  (0 <= m <= 2 ^ 53)%Z -> (-1074 <= E)%Z ->
  shr_fexp prec emax m E loc_Exact = (mrs, e'') ->
  (0 <= shr_m mrs)%Z /\ IZR (shr_m mrs) * bpow e'' = IZR m * bpow E.
Proof.
  intros [Hm0 Hm] HE. destruct (Z.eq_dec m (2 ^ 53)%Z) as [Heq|Hne].
  - rewrite Heq. unfold shr_fexp.
    replace (Zdigits2 (2 ^ 53)%Z) with 54%Z by reflexivity. rewrite fexp_eq.
    replace (Z.max (54 + E - 53) (-1074) - E)%Z with 1%Z by lia.
    unfold shr, shr_record_of_loc, SpecFloat.iter_pos. rewrite shr_1_carry.
    intros [= <- <-]. unfold shr_m. split; [apply Z.pow_nonneg; lia|].
    rewrite IZR_carry, bpow_succ. ring.
  - unfold shr_fexp, shr. rewrite fexp_eq.
    pose proof (Zdigits2_le_prec m ltac:(lia)) as Hd.
    destruct (Z.max (Zdigits2 m + E - 53) (-1074) - E)%Z as [|p|p] eqn:Hn; try lia;
      intros [= <- <-]; cbn [shr_m shr_record_of_loc]; (split; [exact Hm0 | reflexivity]).
Qed.

Lemma rescale (r : R) (e E : Z) : r / bpow E = r / bpow e * bpow (e - E).
Proof.
  rewrite bpow_sub. pose proof (bpow_pos e). pose proof (bpow_pos E). field. lra.
Qed.

Lemma IZR_lt_bpow (m n : Z) : (0 <= n)%Z -> IZR m < bpow n -> (m < 2 ^ n)%Z.
Proof. intros Hn H. rewrite bpow_IZR in H by exact Hn. apply lt_IZR, H. Qed.

Lemma bpow_le_IZR (m n : Z) : (0 <= n)%Z -> bpow n < IZR m + 1 -> (2 ^ n <= m)%Z.
Proof.
  intros Hn H. rewrite bpow_IZR, <- plus_IZR in H by exact Hn.
  apply lt_IZR in H. lia.
Qed.

(** What [round_mag] computes for a real presented finely enough: the
    real is located on the grid of exponent [E = fexp (digits + e)], the
    located mantissa has at most 53 bits (exactly 53 above the subnormal
    range), and the result is its rounding to nearest-even on that grid. *)
Lemma round_mag_spec (m e : Z) (l : location) (r : R) (mf ef : Z) :
  (0 <= m)%Z -> located (r / bpow e) m l ->
  (e <= fexp prec emax (Zdigits2 m + e))%Z ->
  round_mag m e l = (mf, ef) ->
  exists (E m' : Z) (l' : location),
    (-1074 <= E)%Z /\
    located (r / bpow E) m' l' /\
    (0 <= m' < 2 ^ 53)%Z /\
    (-1074 < E -> 2 ^ 52 <= m')%Z /\
    (0 <= mf)%Z /\
    IZR mf * bpow ef = IZR (round_nearest_even m' l') * bpow E.
Proof.
  intros Hm Hloc Hfine. unfold round_mag.
  destruct (shr_fexp prec emax m e l) as [mrs' E] eqn:Hs1.
  destruct (shr_fexp prec emax _ E loc_Exact) as [mrs'' e''] eqn:Hs2.
  intros [= <- <-].
  destruct (shr_fexp_located m e l r mrs' E Hm Hloc Hs1) as (HE & Hm' & Hloc').
  rewrite fexp_eq in HE, Hfine.
  pose proof (located_bounds _ _ _ Hloc) as [Hlo Hhi].
  pose proof (located_bounds _ _ _ Hloc') as [Hlo' Hhi'].
  pose proof (Zdigits2_nonneg m) as Hd0.
  pose proof (bpow_pos e) as He. pose proof (bpow_pos E) as HEp.
  assert (Hlt : (shr_m mrs' < 2 ^ 53)%Z).
  { apply IZR_lt_bpow; [lia|].
    assert (r / bpow e < bpow (Zdigits2 m)).
    { pose proof (Zdigits2_upper m Hm) as Hu.
      rewrite (bpow_IZR (Zdigits2 m)) in Hu |- * by exact Hd0. apply lt_IZR in Hu.
      assert (IZR (m + 1) <= IZR (2 ^ Zdigits2 m)) by (apply IZR_le; lia).
      rewrite plus_IZR in *. lra. }
    rewrite (rescale r e E) in Hlo'.
    pose proof (bpow_pos (e - E)) as Hp.
    assert (r / bpow e * bpow (e - E) < bpow (Zdigits2 m) * bpow (e - E)) by nra.
    rewrite <- bpow_add in *.
    pose proof (bpow_le (Zdigits2 m + (e - E)) 53 ltac:(lia)). lra. }
  assert (Hge : (-1074 < E -> 2 ^ 52 <= shr_m mrs')%Z).
  { intros HEn. apply bpow_le_IZR; [lia|].
    assert (Hmpos : (0 < m)%Z).
    { destruct (Z.eq_dec m 0%Z) as [->|]; [simpl in *; lia | lia]. }
    pose proof (Zdigits2_lower m Hmpos) as Hl.
    rewrite (rescale r e E) in Hhi'.
    pose proof (bpow_pos (e - E)) as Hp.
    assert (bpow (Zdigits2 m - 1) * bpow (e - E) <= r / bpow e * bpow (e - E)) by nra.
    rewrite <- bpow_add in *.
    replace (Zdigits2 m - 1 + (e - E))%Z with 52%Z in * by lia. lra. }
  destruct (renormalize_exact (round_nearest_even (shr_m mrs') (loc_of_shr_record mrs'))
              E mrs'' e'') as [Hmf Hval].
  - pose proof (rne_bounds (r / bpow E) (shr_m mrs') (loc_of_shr_record mrs')). lia.
  - lia.
  - exact Hs2.
  - exists E, (shr_m mrs'), (loc_of_shr_record mrs').
    repeat split; try assumption; lia.
Qed.

(** Rounding is monotone in the real it rounds. *)
Lemma round_mag_mono (m1 e1 : Z) (l1 : location) (r1 : R) (mf1 ef1 : Z)
                     (m2 e2 : Z) (l2 : location) (r2 : R) (mf2 ef2 : Z) :
  (0 <= m1)%Z -> located (r1 / bpow e1) m1 l1 ->
  (e1 <= fexp prec emax (Zdigits2 m1 + e1))%Z ->
  round_mag m1 e1 l1 = (mf1, ef1) ->
  (0 <= m2)%Z -> located (r2 / bpow e2) m2 l2 ->
  (e2 <= fexp prec emax (Zdigits2 m2 + e2))%Z ->
  round_mag m2 e2 l2 = (mf2, ef2) ->
  r1 <= r2 ->
  IZR mf1 * bpow ef1 <= IZR mf2 * bpow ef2.
Proof.
  intros Hm1 Hl1 Hf1 Hr1 Hm2 Hl2 Hf2 Hr2 Hle.
  destruct (round_mag_spec _ _ _ _ _ _ Hm1 Hl1 Hf1 Hr1)
    as (E1 & m1' & l1' & HE1 & Hloc1 & [Hm1a Hm1b] & Hm1c & _ & ->).
  destruct (round_mag_spec _ _ _ _ _ _ Hm2 Hl2 Hf2 Hr2)
    as (E2 & m2' & l2' & HE2 & Hloc2 & [Hm2a Hm2b] & Hm2c & _ & ->).
  pose proof (rne_bounds (r1 / bpow E1) m1' l1') as B1.
  pose proof (rne_bounds (r2 / bpow E2) m2' l2') as B2.
  pose proof (located_bounds _ _ _ Hloc1) as [Hlo1 Hhi1].
  pose proof (located_bounds _ _ _ Hloc2) as [Hlo2 Hhi2].
  pose proof (bpow_pos E1) as HE1p. pose proof (bpow_pos E2) as HE2p.
  destruct (Z.compare_spec E1 E2) as [Heq|Hlt|Hgt].
  - subst E2.
    assert (Hx : r1 / bpow E1 <= r2 / bpow E1).
    { unfold Rdiv. apply Rmult_le_compat_r; [|exact Hle].
      apply Rlt_le, Rinv_0_lt_compat, HE1p. }
    pose proof (rne_mono _ _ _ _ _ _ Hloc1 Hloc2 Hx) as Hrn.
    apply IZR_le in Hrn. nra.
  - (* the larger real is rounded on a coarser grid *)
    specialize (Hm2c ltac:(lia)).
    assert (H1 : IZR (round_nearest_even m1' l1') <= bpow 53).
    { rewrite bpow_IZR by lia. apply IZR_le. lia. }
    assert (H2 : bpow 52 <= IZR (round_nearest_even m2' l2')).
    { rewrite bpow_IZR by lia. apply IZR_le. lia. }
    assert (H3 : bpow (53 + E1) <= bpow (52 + E2)) by (apply bpow_le; lia).
    rewrite !bpow_add in H3.
    pose proof (bpow_pos 52). pose proof (bpow_pos 53). nra.
  - (* impossible: the smaller real would need the coarser grid *)
    exfalso. specialize (Hm1c ltac:(lia)).
    assert (H1 : bpow 52 <= IZR m1') by (rewrite bpow_IZR by lia; apply IZR_le; lia).
    assert (H2 : IZR m2' + 1 <= bpow 53).
    { rewrite bpow_IZR, <- plus_IZR by lia. apply IZR_le. lia. }
    assert (H3 : bpow (53 + E2) <= bpow (52 + E1)) by (apply bpow_le; lia).
    rewrite !bpow_add in H3.
    assert (Hr1' : bpow 52 * bpow E1 <= r1).
    { apply (Rmult_le_compat_r (bpow E1)) in Hlo1; [|lra].
      unfold Rdiv in Hlo1. rewrite Rmult_assoc, Rinv_l in Hlo1 by lra. nra. }
    assert (Hr2' : r2 < bpow 53 * bpow E2).
    { apply (Rmult_lt_compat_r (bpow E2)) in Hhi2; [|lra].
      unfold Rdiv in Hhi2. rewrite Rmult_assoc, Rinv_l in Hhi2 by lra. nra. }
    lra.
Qed.

(** The location [new_location] assigns to a remainder. *)
Lemma new_location_located (nb k q : Z) :
  (0 <= k < nb)%Z ->
  located (IZR q + IZR k / IZR nb) q (new_location nb k).
Proof.
  intros [Hk Hnb].
  assert (Hnbp : 0 < IZR nb) by (apply IZR_lt; lia).
  assert (Hfrac : forall a b : Z, (a < b)%Z -> IZR a / IZR nb < IZR b / IZR nb).
  { intros a b Hab. unfold Rdiv. apply Rmult_lt_compat_r.
    - apply Rinv_0_lt_compat, Hnbp.
    - apply IZR_lt, Hab. }
  assert (Hhalf : IZR nb / IZR nb = 1) by (field; lra).
  assert (Hzero : IZR 0 / IZR nb = 0) by (unfold Rdiv; lra).
  assert (Hdbl : forall a : Z, IZR (2 * a) / IZR nb = 2 * (IZR a / IZR nb)).
  { intros a. rewrite mult_IZR. field. lra. }
  unfold new_location.
  destruct (Z.even nb) eqn:Hev; unfold new_location_even, new_location_odd;
    (destruct (Z.eqb_spec k 0%Z) as [Hk0|Hk0]; [subst k; cbn [located]; lra|]);
    pose proof (Hfrac 0%Z k ltac:(lia)) as Hpos;
    pose proof (Hfrac k nb Hnb) as Hlt1.
  - destruct (Z.compare_spec (2 * k)%Z nb) as [Heq|Hlt|Hgt]; cbn [located].
    + pose proof (Hdbl k) as H2. rewrite Heq, Hhalf in H2. lra.
    + pose proof (Hfrac _ _ Hlt) as H2. rewrite Hdbl in H2. lra.
    + pose proof (Hfrac _ _ Hgt) as H2. rewrite Hdbl in H2. lra.
  - assert (Hodd : (2 * k <> nb)%Z).
    { intros <-. rewrite Z.even_mul in Hev. discriminate. }
    destruct (Z.compare_spec (2 * k + 1)%Z nb) as [Heq|Hlt|Hgt]; cbn [located].
    + pose proof (Hfrac (2 * k)%Z nb ltac:(lia)) as H2. rewrite Hdbl in H2. lra.
    + pose proof (Hfrac (2 * k)%Z nb ltac:(lia)) as H2. rewrite Hdbl in H2. lra.
    + pose proof (Hfrac nb (2 * k)%Z ltac:(lia)) as H2. rewrite Hdbl in H2. lra.
Qed.

Lemma bpow_lt_inv (a b : Z) : bpow a < bpow b -> (a < b)%Z.
Proof.
  intros H. apply Z.lt_nge. intros Hle. pose proof (bpow_le b a Hle). lra.
Qed.

(** The quotient the division core hands to the rounding: it locates the
    exact quotient, at an exponent fine enough for the rounding. *)
Lemma div_core_located (mx : positive) (ex : Z) (my : positive) (ey : Z)
      (q e' : Z) (l : location) :
  SFdiv_core_binary prec emax (Z.pos mx) ex (Z.pos my) ey = (q, e', l) ->
  (0 <= q)%Z /\
  located (IZR (Z.pos mx) * bpow ex / (IZR (Z.pos my) * bpow ey) / bpow e') q l /\
  (e' <= fexp prec emax (Zdigits2 q + e'))%Z.
Proof.
  unfold SFdiv_core_binary.
  set (d1 := Zdigits2 (Z.pos mx)). set (d2 := Zdigits2 (Z.pos my)).
  set (e0 := Z.min (fexp prec emax (d1 + ex - (d2 + ey))) (ex - ey)).
  set (s := (ex - ey - e0)%Z).
  assert (Hs : (0 <= s)%Z) by (unfold s, e0; lia).
  set (m' := match s with Z.pos _ => Z.shiftl (Z.pos mx) s | 0%Z => Z.pos mx | Z.neg _ => 0%Z end).
  assert (Hm' : m' = (Z.pos mx * 2 ^ s)%Z).
  { unfold m'. destruct s as [|p|p] eqn:Es; [lia | | lia].
    rewrite Z.shiftl_mul_pow2 by lia. reflexivity. }
  pose proof (Z_div_mod m' (Z.pos my) ltac:(lia)) as Hdiv.
  destruct (Z.div_eucl m' (Z.pos my)) as [q0 r0]. destruct Hdiv as [Hq Hr].
  intros [= <- <- <-].
  assert (Hmy : 0 < IZR (Z.pos my)) by (apply IZR_lt; lia).
  assert (Hq0 : (0 <= q0)%Z).
  { assert (0 <= m')%Z by (rewrite Hm'; apply Z.mul_nonneg_nonneg; [lia | apply Z.pow_nonneg; lia]).
    nia. }
  assert (Hm'R : IZR m' = IZR (Z.pos mx) * bpow s).
  { rewrite Hm', mult_IZR, bpow_IZR by exact Hs. reflexivity. }
  assert (HqR : IZR m' = IZR (Z.pos my) * IZR q0 + IZR r0)
    by (rewrite Hq, plus_IZR, mult_IZR; reflexivity).
  assert (Hx : IZR (Z.pos mx) * bpow ex / (IZR (Z.pos my) * bpow ey) / bpow e0
               = IZR q0 + IZR r0 / IZR (Z.pos my)).
  { replace ex with (s + ey + e0)%Z by (unfold s; lia).
    rewrite !bpow_add. pose proof (bpow_pos ey). pose proof (bpow_pos e0).
    pose proof (bpow_pos s).
    apply (Rmult_eq_reg_r (IZR (Z.pos my))); [|lra].
    transitivity (IZR (Z.pos mx) * bpow s); [field; lra|].
    rewrite <- Hm'R, HqR. field. lra. }
  split; [exact Hq0|]. split.
  - rewrite Hx. apply new_location_located. exact Hr.
  - (* the quotient has at least d1 + s - d2 digits *)
    apply Z.le_trans with (fexp prec emax (d1 + ex - (d2 + ey))); [unfold e0; lia|].
    rewrite !fexp_eq.
    enough (d1 + s - d2 <= Zdigits2 q0)%Z by (unfold s in *; lia).
    pose proof (Zdigits2_nonneg q0) as Hdq.
    destruct (Z_le_gt_dec (d1 + s - d2)%Z 0%Z) as [Hneg|Hpos]; [lia|].
    pose proof (Zdigits2_upper q0 Hq0) as Hqu.
    pose proof (Zdigits2_lower (Z.pos mx) ltac:(lia)) as Hxl. fold d1 in Hxl.
    pose proof (Zdigits2_upper (Z.pos my) ltac:(lia)) as Hyu. fold d2 in Hyu.
    assert (Hq1 : IZR q0 + 1 <= bpow (Zdigits2 q0)).
    { rewrite bpow_IZR in Hqu |- * by exact Hdq. apply lt_IZR in Hqu.
      rewrite <- plus_IZR. apply IZR_le. lia. }
    assert (Hr0 : IZR r0 < IZR (Z.pos my)) by (apply IZR_lt; lia).
    assert (Hlow : bpow (d1 - 1 + s - d2) < bpow (Zdigits2 q0)).
    { replace (d1 - 1 + s - d2)%Z with ((d1 - 1) + s + - d2)%Z by lia.
      rewrite !bpow_add, bpow_opp.
      pose proof (bpow_pos s). pose proof (bpow_pos d2). pose proof (bpow_pos (d1 - 1)).
      assert (Hq0R : 0 <= IZR q0) by (apply IZR_le; exact Hq0).
      assert (A1 : bpow (d1 - 1) * bpow s <= IZR (Z.pos mx) * bpow s)
        by (apply Rmult_le_compat_r; lra).
      assert (A2 : IZR (Z.pos mx) * bpow s < IZR (Z.pos my) * (IZR q0 + 1)) by lra.
      assert (A3 : IZR (Z.pos my) * (IZR q0 + 1) < bpow d2 * (IZR q0 + 1))
        by (apply Rmult_lt_compat_r; lra).
      assert (bpow (d1 - 1) * bpow s < (IZR q0 + 1) * bpow d2) by lra.
      apply (Rmult_lt_reg_r (bpow d2)); [lra|].
      rewrite Rmult_assoc, Rinv_l by lra. nra. }
    apply bpow_lt_inv in Hlow. lia.
Qed.

Lemma rounds_to_mono (r1 r2 : R) (s1 s2 : bool) (res1 res2 : spec_float) (v1 v2 : R) :
  rounds_to r1 s1 res1 v1 -> rounds_to r2 s2 res2 v2 -> r1 <= r2 -> v1 <= v2.
Proof.
  intros (m1 & e1 & l1 & Hm1 & Hl1 & Hf1 & _ & ->) (m2 & e2 & l2 & Hm2 & Hl2 & Hf2 & _ & ->) Hle.
  apply (round_mag_mono m1 e1 l1 r1 _ _ m2 e2 l2 r2 _ _); try assumption;
    apply surjective_pairing.
Qed.

Lemma rounds_to_cases (r : R) (s : bool) (res : spec_float) (v : R) :
  rounds_to r s res v ->
  (res = S754_zero s /\ v = 0) \/
  (exists p e, res = S754_finite s p e /\ v = IZR (Z.pos p) * bpow e) \/
  res = S754_infinity s.
Proof.
  intros (m & e & l & Hm & Hl & Hf & -> & ->).
  destruct (round_mag_spec m e l r _ _ Hm Hl Hf (surjective_pairing _))
    as (E' & m' & l' & _ & _ & _ & _ & Hmf & _).
  rewrite binary_round_aux_mag.
  destruct (fst (round_mag m e l)) as [|p|p]; [left | right | lia].
  - split; [reflexivity | lra].
  - destruct (snd (round_mag m e l) <=? emax - prec)%Z; [left | right; reflexivity].
    exists p, (snd (round_mag m e l)). split; reflexivity.
Qed.

Lemma SFdiv_rounds (sx : bool) (mx : positive) (ex : Z) (my : positive) (ey : Z) :
  exists v,
    rounds_to (IZR (Z.pos mx) * bpow ex / (IZR (Z.pos my) * bpow ey)) sx
              (SFdiv prec emax (S754_finite sx mx ex) (S754_finite false my ey)) v.
Proof.
  unfold SFdiv.
  destruct (SFdiv_core_binary prec emax (Z.pos mx) ex (Z.pos my) ey) as [[q e'] l] eqn:Hcore.
  destruct (div_core_located _ _ _ _ _ _ _ Hcore) as (Hq & Hloc & Hfine).
  eexists. exists q, e', l. repeat split; try eassumption.
  destruct sx; reflexivity.
Qed.

Lemma SFmul_rounds (sx : bool) (mx : positive) (ex : Z) (my : positive) (ey : Z) :
  (2 ^ 52 <= Z.pos my)%Z ->
  exists v,
    rounds_to (IZR (Z.pos mx) * bpow ex * (IZR (Z.pos my) * bpow ey)) sx
              (SFmul prec emax (S754_finite sx mx ex) (S754_finite false my ey)) v.
Proof.
  intros Hmy. unfold SFmul.
  eexists. exists (Z.pos (mx * my)), (ex + ey)%Z, loc_Exact.
  repeat split.
  - lia.
  - simpl. rewrite Pos2Z.inj_mul, mult_IZR, bpow_add.
    pose proof (bpow_pos ex). pose proof (bpow_pos ey). field. lra.
  - rewrite fexp_eq.
    enough (53 <= Zdigits2 (Z.pos (mx * my)))%Z by lia.
    simpl. pose proof (digits2_pos_bounds (mx * my)) as [_ Hhi].
    apply Z.le_ngt. intros Hd.
    assert (2 ^ Z.pos (digits2_pos (mx * my)) <= 2 ^ 52)%Z by (apply Z.pow_le_mono_r; lia).
    nia.
  - destruct sx; reflexivity.
Qed.

Lemma rounds_to_nonneg (r : R) (s : bool) (res : spec_float) (v : R) :
  rounds_to r s res v -> 0 <= v.
Proof.
  intros (m & e & l & Hm & Hl & Hf & _ & ->).
  destruct (round_mag_spec m e l r _ _ Hm Hl Hf (surjective_pairing _))
    as (E' & m' & l' & _ & _ & _ & _ & Hmf & _).
  apply IZR_le in Hmf. pose proof (bpow_pos (snd (round_mag m e l))). nra.
Qed.

Lemma hundred_val : SFval hundred = 100.
Proof.
  unfold hundred, SFval, sign_factor.
  replace (bpow (-46)) with (/ IZR (2 ^ 46)) by (rewrite <- bpow_IZR, <- bpow_opp by lia; reflexivity).
  change (2 ^ 46)%Z with 70368744177664%Z. lra.
Qed.

(** One finite numerator over a finite positive denominator: the two
    roundings, with the magnitudes they produce. *)
Lemma scaled_ratio_finite (s : bool) (m : positive) (e : Z) (my : positive) (ey : Z) :
  SFfinite (scaled_ratio (S754_finite s m e) (S754_finite false my ey)) = true ->
  exists vq vp : R,
    rounds_to (IZR (Z.pos m) * bpow e / (IZR (Z.pos my) * bpow ey)) s
              (SFdiv prec emax (S754_finite s m e) (S754_finite false my ey)) vq /\
    0 <= vp /\
    SFval (scaled_ratio (S754_finite s m e) (S754_finite false my ey)) = sign_factor s * vp /\
    ((vq = 0 /\ vp = 0) \/
     (0 < vq /\ exists res, rounds_to (vq * 100) s res vp)).
Proof.
  unfold scaled_ratio. intros Hfin.
  destruct (SFdiv_rounds s m e my ey) as [vq Hq].
  exists vq.
  destruct (rounds_to_cases _ _ _ _ Hq) as [[HQ Hvq]|[(p & ef & HQ & Hvq)|HQ]];
    rewrite HQ in Hfin |- *.
  - exists 0. split; [rewrite <- HQ; exact Hq|]. split; [lra|]. split.
    + simpl. lra.
    + left. split; [exact Hvq | reflexivity].
  - destruct (SFmul_rounds s p ef 7036874417766400 (-46) ltac:(vm_compute; discriminate))
      as [vp Hp].
    fold hundred in Hp.
    exists vp. split; [rewrite <- HQ; exact Hq|].
    split; [exact (rounds_to_nonneg _ _ _ _ Hp)|]. split.
    + destruct (rounds_to_cases _ _ _ _ Hp) as [[HP Hvp]|[(p' & ef' & HP & Hvp)|HP]];
        rewrite HP in Hfin |- *.
      * rewrite Hvp. simpl. lra.
      * simpl. rewrite Hvp. reflexivity.
      * discriminate Hfin.
    + right. split.
      * rewrite Hvq. pose proof (bpow_pos ef).
        assert (0 < IZR (Z.pos p)) by (apply IZR_lt; lia). nra.
      * exists (SFmul prec emax (S754_finite s p ef) hundred).
        rewrite Hvq. pose proof hundred_val as Hh. unfold SFval, hundred, sign_factor in Hh.
        replace 100 with (IZR 7036874417766400 * bpow (-46)) by lra. exact Hp.
  - discriminate Hfin.
Qed.

(** Magnitudes are carried monotonically through [(x / y) * 100]. *)
Lemma scaled_ratio_mono (s1 : bool) (m1 : positive) (e1 : Z) (s2 : bool) (m2 : positive) (e2 : Z)
      (my : positive) (ey : Z) :
  IZR (Z.pos m1) * bpow e1 <= IZR (Z.pos m2) * bpow e2 ->
  SFfinite (scaled_ratio (S754_finite s1 m1 e1) (S754_finite false my ey)) = true ->
  SFfinite (scaled_ratio (S754_finite s2 m2 e2) (S754_finite false my ey)) = true ->
  exists v1 v2 : R,
    0 <= v1 <= v2 /\
    SFval (scaled_ratio (S754_finite s1 m1 e1) (S754_finite false my ey)) = sign_factor s1 * v1 /\
    SFval (scaled_ratio (S754_finite s2 m2 e2) (S754_finite false my ey)) = sign_factor s2 * v2.
Proof.
  intros Hle Hf1 Hf2.
  destruct (scaled_ratio_finite _ _ _ _ _ Hf1) as (vq1 & vp1 & Hq1 & Hp1 & Hv1 & Hc1).
  destruct (scaled_ratio_finite _ _ _ _ _ Hf2) as (vq2 & vp2 & Hq2 & Hp2 & Hv2 & Hc2).
  exists vp1, vp2. split; [|split; assumption].
  split; [exact Hp1|].
  assert (Hq : vq1 <= vq2).
  { apply (rounds_to_mono _ _ _ _ _ _ _ _ Hq1 Hq2).
    unfold Rdiv. apply Rmult_le_compat_r; [|exact Hle].
    apply Rlt_le, Rinv_0_lt_compat.
    pose proof (bpow_pos ey). assert (0 < IZR (Z.pos my)) by (apply IZR_lt; lia). nra. }
  destruct Hc1 as [[_ ->]|[Hpos1 [res1 Hr1]]]; [exact Hp2|].
  destruct Hc2 as [[Hz2 _]|[_ [res2 Hr2]]]; [lra|].
  apply (rounds_to_mono _ _ _ _ _ _ _ _ Hr1 Hr2). lra.
Qed.

(** Order of canonical floats of one sign: exponents first, then
    mantissas. *)
Lemma canonical_exponent_order (m1 : positive) (e1 : Z) (m2 : positive) (e2 : Z) :
  canonical_mantissa prec emax m1 e1 = true ->
  canonical_mantissa prec emax m2 e2 = true ->
  (e1 < e2)%Z ->
  IZR (Z.pos m1) * bpow e1 <= IZR (Z.pos m2) * bpow e2.
Proof.
  unfold canonical_mantissa. rewrite !fexp_eq. intros H1 H2 Hlt.
  apply Z.eqb_eq in H1, H2.
  pose proof (Zdigits2_upper (Z.pos m1) ltac:(lia)) as Hu. simpl Zdigits2 in Hu.
  pose proof (Zdigits2_lower (Z.pos m2) ltac:(lia)) as Hl. simpl Zdigits2 in Hl.
  pose proof (bpow_le (Z.pos (digits2_pos m1) + e1) (Z.pos (digits2_pos m2) - 1 + e2) ltac:(lia)) as Hb.
  rewrite !bpow_add in Hb.
  pose proof (bpow_pos e1). pose proof (bpow_pos e2). nra.
Qed.

Lemma canonical_order (m1 : positive) (e1 : Z) (m2 : positive) (e2 : Z) :
  canonical_mantissa prec emax m1 e1 = true ->
  canonical_mantissa prec emax m2 e2 = true ->
  match match (e1 ?= e2)%Z with
        | Lt => Lt
        | Gt => Gt
        | Eq => Pos.compare_cont Eq m1 m2
        end with
  | Gt => IZR (Z.pos m2) * bpow e2 <= IZR (Z.pos m1) * bpow e1
  | Eq => IZR (Z.pos m1) * bpow e1 = IZR (Z.pos m2) * bpow e2
  | Lt => IZR (Z.pos m1) * bpow e1 <= IZR (Z.pos m2) * bpow e2
  end.
Proof.
  intros H1 H2. destruct (Z.compare_spec e1 e2) as [Heq|Hlt|Hgt].
  - subst e2. change (Pos.compare_cont Eq m1 m2) with (Pos.compare m1 m2).
    pose proof (bpow_pos e1).
    destruct (Pos.compare_spec m1 m2) as [Hm|Hm|Hm]; cbv iota.
    + subst. reflexivity.
    + assert (IZR (Z.pos m1) <= IZR (Z.pos m2)) by (apply IZR_le; lia). nra.
    + assert (IZR (Z.pos m2) <= IZR (Z.pos m1)) by (apply IZR_le; lia). nra.
  - apply canonical_exponent_order; assumption.
  - apply canonical_exponent_order; assumption.
Qed.

Lemma floor_scaled_bounds (m e : Z) :
  IZR (floor_scaled m e) <= IZR m * bpow e < IZR (floor_scaled m e) + 1.
Proof.
  unfold floor_scaled. destruct (Z.leb_spec 0%Z e) as [He|He].
  - rewrite mult_IZR, <- bpow_IZR by exact He. lra.
  - assert (Hb : (0 < 2 ^ (- e))%Z) by (apply Z.pow_pos_nonneg; lia).
    pose proof (Z_div_mod_eq_full m (2 ^ (- e))%Z) as Hdm.
    pose proof (Z.mod_pos_bound m (2 ^ (- e))%Z Hb) as [Hr0 Hr1].
    assert (Hbe : bpow e = / IZR (2 ^ (- e))).
    { rewrite <- (Z.opp_involutive e) at 1. rewrite bpow_opp, bpow_IZR by lia. reflexivity. }
    rewrite Hbe.
    assert (HbR : 0 < IZR (2 ^ (- e))) by (apply IZR_lt; exact Hb).
    assert (HmR : IZR m = IZR (2 ^ (- e)) * IZR (m / 2 ^ (- e)) + IZR (m mod 2 ^ (- e)))
      by (rewrite <- mult_IZR, <- plus_IZR; f_equal; exact Hdm).
    apply IZR_le in Hr0. apply IZR_lt in Hr1.
    split.
    + apply (Rmult_le_reg_r (IZR (2 ^ (- e)))); [exact HbR|].
      rewrite Rmult_assoc, Rinv_l by lra. nra.
    + apply (Rmult_lt_reg_r (IZR (2 ^ (- e)))); [exact HbR|].
      rewrite Rmult_assoc, Rinv_l by lra. nra.
Qed.

Lemma IZR_signed (s : bool) (m : positive) :
  IZR (signed s m) = sign_factor s * IZR (Z.pos m).
Proof.
  destruct s; unfold signed, sign_factor; [|lra].
  change (Z.neg m) with (- Z.pos m)%Z. rewrite opp_IZR. lra.
Qed.

(** [math.floor] returns the integer part of the value of its argument. *)
Lemma math_floor_bounds (f : float) (p : Z) :
  math_floor f = Returns p ->
  SFfinite (Prim2SF f) = true /\
  IZR p <= SFval (Prim2SF f) < IZR p + 1.
Proof.
  unfold math_floor. destruct (Prim2SF f) as [s|s| |s m e]; intros [= <-].
  - split; [reflexivity | simpl; lra].
  - split; [reflexivity|]. unfold SFval.
    pose proof (floor_scaled_bounds (signed s m) e) as Hb.
    rewrite IZR_signed in Hb. lra.
Qed.

Lemma valid_canonical (s : bool) (m : positive) (e : Z) :
  valid_binary (S754_finite s m e) = true -> canonical_mantissa prec emax m e = true.
Proof. simpl. unfold bounded. intros H. apply andb_true_iff in H. apply H. Qed.

Lemma scaled_ratio_sign (s : bool) (m : positive) (e : Z) (my : positive) (ey : Z) :
  SFfinite (scaled_ratio (S754_finite s m e) (S754_finite false my ey)) = true ->
  exists v, 0 <= v /\
    SFval (scaled_ratio (S754_finite s m e) (S754_finite false my ey)) = sign_factor s * v.
Proof.
  intros Hf. destruct (scaled_ratio_finite _ _ _ _ _ Hf) as (vq & vp & _ & Hp & Hv & _).
  exists vp. split; assumption.
Qed.

(** [(x / y) * 100] is monotone in [x] for a positive [y], wherever it
    is finite. *)
Lemma scaled_ratio_le (x1 x2 y : spec_float) :
  valid_binary x1 = true -> valid_binary x2 = true ->
  SFleb x1 x2 = true -> SFleb y (S754_zero false) = false ->
  SFfinite (scaled_ratio x1 y) = true -> SFfinite (scaled_ratio x2 y) = true ->
  SFval (scaled_ratio x1 y) <= SFval (scaled_ratio x2 y).
Proof.
  intros Hv1 Hv2 Hle Hy Hf1 Hf2.
  destruct y as [sy|sy| |sy my ey]; try discriminate Hy.
  - (* y infinite *)
    destruct sy; [discriminate Hy|].
    destruct x1 as [s1|s1| |s1 m1 e1]; try discriminate Hf1;
      destruct x2 as [s2|s2| |s2 m2 e2]; try discriminate Hf2; simpl; lra.
  - (* y not a number *)
    destruct x1; discriminate Hf1.
  - (* y finite *)
    destruct sy; [discriminate Hy|].
    destruct x1 as [s1|s1| |s1 m1 e1]; try discriminate Hf1;
      destruct x2 as [s2|s2| |s2 m2 e2]; try discriminate Hf2.
    + simpl. lra.
    + destruct (scaled_ratio_sign _ _ _ _ _ Hf2) as (v & Hv & ->).
      destruct s2; [discriminate Hle|]. simpl. lra.
    + destruct (scaled_ratio_sign _ _ _ _ _ Hf1) as (v & Hv & ->).
      destruct s1; [|discriminate Hle]. simpl. lra.
    + apply valid_canonical in Hv1, Hv2.
      pose proof (canonical_order m1 e1 m2 e2 Hv1 Hv2) as Hord.
      pose proof (canonical_order m2 e2 m1 e1 Hv2 Hv1) as Hord'.
      unfold SFleb, SFcompare in Hle.
      destruct s1, s2; try discriminate Hle.
      * (* both negative *)
        assert (Hmag : IZR (Z.pos m2) * bpow e2 <= IZR (Z.pos m1) * bpow e1).
        { destruct (e1 ?= e2)%Z; [|discriminate Hle|exact Hord].
          destruct (Pos.compare_cont Eq m1 m2); simpl in Hle;
            [rewrite Hord; lra | discriminate Hle | exact Hord]. }
        destruct (scaled_ratio_mono true m2 e2 true m1 e1 my ey Hmag Hf2 Hf1)
          as (v2 & v1 & Hv & -> & ->).
        simpl. lra.
      * (* negative, then positive *)
        destruct (scaled_ratio_sign _ _ _ _ _ Hf1) as (v1 & Hv1' & ->).
        destruct (scaled_ratio_sign _ _ _ _ _ Hf2) as (v2 & Hv2' & ->).
        simpl. lra.
      * (* both positive *)
        assert (Hmag : IZR (Z.pos m1) * bpow e1 <= IZR (Z.pos m2) * bpow e2).
        { destruct (e1 ?= e2)%Z; [|exact Hord|discriminate Hle].
          destruct (Pos.compare_cont Eq m1 m2);
            [rewrite Hord; lra | exact Hord | discriminate Hle]. }
        destruct (scaled_ratio_mono false m1 e1 false m2 e2 my ey Hmag Hf1 Hf2)
          as (v1 & v2 & Hv & -> & ->).
        simpl. lra.
Qed.

Lemma Prim2SF_scaled_ratio (used total : float) :
  Prim2SF (used / total * 100)%float = scaled_ratio (Prim2SF used) (Prim2SF total).
Proof. rewrite mul_spec, div_spec. reflexivity. Qed.

(** [compute_percent] is monotone in [used]. *)
Lemma compute_percent_monotone (used1 used2 total : float) (p1 p2 : Z) :
  PrimFloat.leb used1 used2 = true ->
  compute_percent used1 total = Returns (Some p1) ->
  compute_percent used2 total = Returns (Some p2) ->
  (p1 <= p2)%Z.
Proof.
  unfold compute_percent. intros Hle.
  destruct (PrimFloat.leb total 0) eqn:Htot; [discriminate|].
  destruct (math_floor (used1 / total * 100)) as [n1|] eqn:F1; [|discriminate].
  destruct (math_floor (used2 / total * 100)) as [n2|] eqn:F2; [|discriminate].
  intros [= <-] [= <-].
  apply math_floor_bounds in F1 as [Hf1 [Hlo1 Hhi1]].
  apply math_floor_bounds in F2 as [Hf2 [Hlo2 Hhi2]].
  rewrite Prim2SF_scaled_ratio in *.
  rewrite leb_spec in Hle, Htot.
  pose proof (scaled_ratio_le _ _ _ (Prim2SF_valid used1) (Prim2SF_valid used2)
                Hle Htot Hf1 Hf2) as Hmono.
  assert (IZR n1 < IZR n2 + 1) by lra.
  rewrite <- plus_IZR in H. apply lt_IZR in H. lia.
Qed.

End FloatRounding.

(** ** Percentage *)

(** C4, as the code has it.  [compute_percent] returns [None] exactly
    when [total <= 0].  Otherwise it is [math.floor] of the binary64 value
    of [(used / total) * 100]: when it returns [n], [n] is the integer
    part of that double (the division and the multiplication are each
    rounded to the nearest double first), and when that double is NaN or
    infinite the call raises.  For a fixed [total] the result is monotone
    non-decreasing in [used] wherever it is returned.  It truncates: 79.9
    of 100 is 79, and 40 of 50 is 80. *)
Theorem compute_percent_spec :
  (forall used total : float,
      compute_percent used total = Returns None <-> PrimFloat.leb total 0 = true) /\
  (forall used total : float,
      PrimFloat.leb total 0 = false ->
      compute_percent used total =
      match math_floor (used / total * 100)%float with
      | Returns n => Returns (Some n)
      | Raises e => Raises e
      end) /\
  (forall (used total : float) (n : Z),
      compute_percent used total = Returns (Some n) ->
      SFfinite (Prim2SF (used / total * 100)%float) = true /\
      (IZR n <= SFval (Prim2SF (used / total * 100)%float) < IZR n + 1)%R) /\
  (forall (used1 used2 total : float) (p1 p2 : Z),
      PrimFloat.leb used1 used2 = true ->
      compute_percent used1 total = Returns (Some p1) ->
      compute_percent used2 total = Returns (Some p2) ->
      p1 <= p2) /\
  compute_percent 0x1.3f9999999999ap+6 100 = Returns (Some 79) /\
  compute_percent 40 50 = Returns (Some 80).
Proof.
  split; [|split; [|split; [|split; [|split]]]].
  - intros used total. unfold compute_percent.
    destruct (PrimFloat.leb total 0); [split; reflexivity|].
    split; [|discriminate].
    destruct (math_floor (used / total * 100)); discriminate.
  - intros used total Htot. unfold compute_percent. rewrite Htot. reflexivity.
  - intros used total n. unfold compute_percent.
    destruct (PrimFloat.leb total 0); [discriminate|].
    destruct (math_floor (used / total * 100)) as [k|] eqn:Hfl; [|discriminate].
    intros [= <-]. exact (math_floor_bounds _ _ Hfl).
  - exact compute_percent_monotone.
  - vm_compute. reflexivity.
  - vm_compute. reflexivity.
Qed.

Lemma compute_percent_spec_witness : 40 <= 56.
Proof.
  apply (proj1 (proj2 (proj2 (proj2 compute_percent_spec))) 40%float 57%float 100%float);
    vm_compute; reflexivity.
Defined.

(** C4 as stated fails.  57 of 100 is reported as 56: the double nearest
    to 57/100 lies below it and its product with 100 rounds to
    56.99999999999999, while the exact ratio times 100 is 57.  And an
    infinite or NaN usage over a positive total raises instead of
    returning an integer. *)
Lemma compute_percent_57_of_100 :
  compute_percent 57 100 = Returns (Some 56) /\
  exact_percent 57 100 = 57%R /\
  compute_percent infinity 1 = Raises OverflowError /\
  compute_percent nan 1 = Raises ValueError.
Proof.
  split; [vm_compute; reflexivity|]. split; [|split; vm_compute; reflexivity].
  unfold exact_percent.
  replace (Prim2SF 57) with (S754_finite false 8022036836253696 (-47))
    by (vm_compute; reflexivity).
  replace (Prim2SF 100) with (S754_finite false 7036874417766400 (-46))
    by (vm_compute; reflexivity).
  unfold SFval, sign_factor.
  replace (-46) with (-47 + 1) by lia. rewrite bpow_succ.
  pose proof (bpow_pos (-47)) as Hb.
  field. lra.
Qed.

(** * Beyond the specification

    Properties of the same code that the specification does not state:
    the shape of what the normalizer returns, the range of the
    percentage, what a sweep can and cannot change, and the tables the
    handlers read and write. *)

(** * Further properties of the normalizer *)

Lemma has_cond_setitem {V : Type} (c : bool) (d : odict V) (k k' : string) (v : V) :
  has (if c then setitem d k v else d) k' = has d k' || (c && String.eqb k k').
Proof.
  destruct c; cbn [andb]; [|rewrite orb_false_r; reflexivity].
  rewrite has_setitem. apply orb_comm.
Qed.

Lemma has_normalize (item : pydict) (k : string) :
  has (_normalize_vps_item item) k =
  has item k || (String.eqb "vpsid" k && (has item "vps_id" || has item "id")).
Proof.
  unfold _normalize_vps_item. cbv zeta.
  rewrite !has_cond_setitem.
  change (String.eqb "vpsid" "id") with false.
  change (String.eqb "vpsid" "vpsid") with true.
  destruct (String.eqb "vpsid" k) eqn:Hk.
  - apply String.eqb_eq in Hk. subst k.
    destruct (has item "vps_id"), (has item "vpsid"), (has item "id"); reflexivity.
  - destruct (has item "vps_id"), (has item "vpsid"), (has item "id"), (has item k); reflexivity.
Qed.

Lemma get_lookup_key (d : pydict) (k : string) :
  has d k = true -> lookup_key d k = Some (get d k).
Proof.
  intros Hk. apply has_lookup_key in Hk as [v Hv]. unfold get. rewrite Hv. reflexivity.
Qed.

Lemma has_false_lookup_key {V : Type} (d : odict V) (k : string) :
  has d k = false -> lookup_key d k = None.
Proof.
  intros Hk. destruct (lookup_key d k) eqn:E; [|reflexivity].
  assert (has d k = true) by (apply has_lookup_key; eauto). congruence.
Qed.

Lemma normalize_cases (item : pydict) :
  _normalize_vps_item item =
  if has item "vpsid" then item
  else if has item "vps_id" then setitem item "vpsid" (get item "vps_id")
  else if has item "id" then setitem item "vpsid" (get item "id")
  else item.
Proof.
  unfold _normalize_vps_item. cbv zeta.
  destruct (has item "vpsid") eqn:E2; cbn [negb].
  - rewrite andb_false_r, E2. cbn [negb]. rewrite andb_false_r. reflexivity.
  - rewrite andb_true_r. destruct (has item "vps_id") eqn:E1; cbv iota.
    + rewrite (has_setitem item "vpsid" "vpsid").
      change (String.eqb "vpsid" "vpsid") with true.
      cbn [orb negb]. rewrite andb_false_r. reflexivity.
    + rewrite E2. cbn [negb]. rewrite andb_true_r. reflexivity.
Qed.

Lemma normalize_fixed (item : pydict) :
  has item "vpsid" = true -> _normalize_vps_item item = item.
Proof. intros Hv. rewrite normalize_cases, Hv. reflexivity. Qed.

Lemma normalize_idempotent (item : pydict) :
  _normalize_vps_item (_normalize_vps_item item) = _normalize_vps_item item.
Proof.
  destruct (has (_normalize_vps_item item) "vpsid") eqn:E.
  - apply normalize_fixed. exact E.
  - rewrite has_normalize in E. change (String.eqb "vpsid" "vpsid") with true in E.
    cbn [andb] in E.
    apply orb_false_elim in E as [E1 E2]. apply orb_false_elim in E2 as [E2 E3].
    assert (Hnone : _normalize_vps_item item = item).
    { rewrite normalize_cases, E1, E2, E3. reflexivity. }
    rewrite !Hnone. reflexivity.
Qed.

(** X1. [_normalize_vps_item] only ever adds the key "vpsid": every other
    key reads as before, and "vpsid" reads as the record's own "vpsid"
    when it has one, else as its "vps_id", else as its "id", else stays
    absent.  Normalizing twice is normalizing once. *)
Theorem normalize_vps_item_vpsid (item : pydict) :
  (forall k, k <> "vpsid" ->
             lookup_key (_normalize_vps_item item) k = lookup_key item k) /\
  lookup_key (_normalize_vps_item item) "vpsid" =
    match lookup_key item "vpsid", lookup_key item "vps_id", lookup_key item "id" with
    | Some v, _, _ => Some v
    | None, Some v, _ => Some v
    | None, None, Some v => Some v
    | None, None, None => None
    end /\
  _normalize_vps_item (_normalize_vps_item item) = _normalize_vps_item item.
Proof.
  split; [|split; [|apply normalize_idempotent]].
  - intros k Hk. rewrite normalize_cases.
    assert (Hneq : String.eqb "vpsid" k = false) by (apply String.eqb_neq; congruence).
    destruct (has item "vpsid"), (has item "vps_id"), (has item "id");
      rewrite ?lookup_key_setitem, ?Hneq; reflexivity.
  - rewrite normalize_cases.
    destruct (has item "vpsid") eqn:E2.
    + rewrite (get_lookup_key _ _ E2). reflexivity.
    + rewrite (has_false_lookup_key _ _ E2).
      destruct (has item "vps_id") eqn:E1.
      * rewrite lookup_key_setitem. change (String.eqb "vpsid" "vpsid") with true.
        rewrite (get_lookup_key _ _ E1). reflexivity.
      * rewrite (has_false_lookup_key _ _ E1).
        destruct (has item "id") eqn:E3.
        -- rewrite lookup_key_setitem. change (String.eqb "vpsid" "vpsid") with true.
           rewrite (get_lookup_key _ _ E3). reflexivity.
        -- rewrite (has_false_lookup_key _ _ E2), (has_false_lookup_key _ _ E3). reflexivity.
Qed.

(** X2. After normalization the VM-likeness filter accepts exactly the
    mappings that carry one of "vpsid", "vps_id", "id", or one of the
    descriptive keys and no "uid".  So the "uid" exclusion never applies
    to a mapping with an "id": it is accepted whatever else it holds. *)
Theorem looks_like_vps_normalized (item : pydict) :
  _looks_like_vps (_normalize_vps_item item) =
  (has item "vpsid" || has item "vps_id" || has item "id"
   || (existsb (has item) descriptive_keys && negb (has item "uid"))) /\
  (has item "id" = true -> _looks_like_vps (_normalize_vps_item item) = true).
Proof.
  assert (E : _looks_like_vps (_normalize_vps_item item) =
              (has item "vpsid" || has item "vps_id" || has item "id"
               || (existsb (has item) descriptive_keys && negb (has item "uid")))).
  { unfold _looks_like_vps. rewrite !has_normalize. cbn.
    destruct (has item "vpsid"), (has item "vps_id"), (has item "id"),
      (has item "hostname"), (has item "name"), (has item "primary_ip"),
      (has item "ip"), (has item "uid"); reflexivity. }
  split; [exact E|].
  intros Hid. rewrite E, Hid. rewrite !orb_true_r. reflexivity.
Qed.

(** ** Where the records come from *)

Lemma collect_items_elem (l : list json) (r : pydict) :
  r ∈ collect_items l ->
  exists it, JDict it ∈ l /\ r = _normalize_vps_item it.
Proof.
  induction l as [|x l IH]; cbn [collect_items]; intros Hr.
  - inversion Hr.
  - assert (Hrest : r ∈ collect_items l -> exists it, JDict it ∈ x :: l /\ r = _normalize_vps_item it).
    { intros Hin. destruct (IH Hin) as [it [Hit ->]]. exists it. split; [right; exact Hit|reflexivity]. }
    destruct x; try (apply Hrest; exact Hr).
    destruct (_looks_like_vps (_normalize_vps_item d)); [|apply Hrest; exact Hr].
    apply elem_of_cons in Hr as [->|Hr]; [|apply Hrest; exact Hr].
    exists d. split; [left|reflexivity].
Qed.

Lemma mappings_self (d : pydict) : d ∈ mappings (JDict d).
Proof. cbn [mappings]. left. Qed.

Lemma mappings_child (x c : json) (m : pydict) :
  c ∈ children x -> m ∈ mappings c -> m ∈ mappings x.
Proof.
  intros Hc Hm. destruct x; cbn [children] in Hc; try (inversion Hc; fail).
  - cbn [mappings]. induction l as [|i r IH]; [inversion Hc|].
    apply elem_of_app. apply elem_of_cons in Hc as [->|Hc]; [left; exact Hm|right; auto].
  - cbn [mappings]. right. unfold values in Hc.
    induction d as [|kv r IH]; [inversion Hc|].
    cbn [map] in Hc. apply elem_of_app.
    apply elem_of_cons in Hc as [->|Hc]; [left; exact Hm|right; auto].
Qed.

Lemma collect_children_mappings (x : json) (r : pydict) :
  r ∈ collect_items (children x) ->
  exists d, d ∈ mappings x /\ r = _normalize_vps_item d.
Proof.
  intros Hr. apply collect_items_elem in Hr as [it [Hit ->]].
  exists it. split; [|reflexivity].
  eapply mappings_child; [exact Hit|apply mappings_self].
Qed.

Lemma walk_sound (limit : Z) (x : json) :
  forall (st : scan_state) (r : pydict),
    r ∈ snd (walk limit x st) ->
    r ∈ snd st \/ exists d, d ∈ mappings x /\ r = _normalize_vps_item d.
Proof.
  induction x as [| b | z | f | s | l IH | d IH] using json_nested_ind;
    intros [visited found] r; rewrite walk_unfold;
    destruct ((limit <? visited)%Z || (500 <? Z.of_nat (length found))%Z); cbn [snd];
    try (intros Hr; left; exact Hr).
  - (* sequence *)
    destruct (list_like (JList l) && nonempty (collect_items (children (JList l)))).
    + cbn [snd]. intros Hr. apply elem_of_app in Hr as [Hr|Hr]; [left; exact Hr|].
      right. apply collect_children_mappings. exact Hr.
    + assert (Hgen : forall cs st, (forall c, c ∈ cs -> c ∈ l) ->
                r ∈ snd (walk_each limit cs st) ->
                r ∈ snd st \/ exists d, d ∈ mappings (JList l) /\ r = _normalize_vps_item d).
      { induction cs as [|c cs IHcs]; intros st Hsub Hr; [left; exact Hr|].
        rewrite walk_each_cons in Hr.
        destruct (IHcs _ (fun c' Hc' => Hsub c' (list_elem_of_further _ _ _ Hc')) Hr) as [Hin|Hex];
          [|right; exact Hex].
        assert (Hc : c ∈ l) by (apply Hsub; left).
        rewrite Forall_forall in IH.
        destruct (IH c Hc st r Hin) as [Hst|[d [Hd ->]]]; [left; exact Hst|].
        right. exists d. split; [|reflexivity].
        eapply mappings_child; [exact Hc|exact Hd]. }
      intros Hr. apply (Hgen (children (JList l)) (visited + 1, found)); [auto|exact Hr].
  - (* mapping *)
    destruct (list_like (JDict d) && nonempty (collect_items (children (JDict d)))).
    + cbn [snd]. intros Hr. apply elem_of_app in Hr as [Hr|Hr]; [left; exact Hr|].
      right. apply collect_children_mappings. exact Hr.
    + assert (Hgen : forall cs st, (forall c, c ∈ cs -> c ∈ values d) ->
                r ∈ snd (walk_each limit cs st) ->
                r ∈ snd st \/ exists m, m ∈ mappings (JDict d) /\ r = _normalize_vps_item m).
      { induction cs as [|c cs IHcs]; intros st Hsub Hr; [left; exact Hr|].
        rewrite walk_each_cons in Hr.
        destruct (IHcs _ (fun c' Hc' => Hsub c' (list_elem_of_further _ _ _ Hc')) Hr) as [Hin|Hex];
          [|right; exact Hex].
        assert (Hc : c ∈ values d) by (apply Hsub; left).
        assert (IHc : forall st r, r ∈ snd (walk limit c st) ->
                   r ∈ snd st \/ exists m, m ∈ mappings c /\ r = _normalize_vps_item m).
        { unfold values in Hc. apply elem_of_map in Hc as [kv [-> Hkv]].
          rewrite Forall_forall in IH. exact (IH kv Hkv). }
        destruct (IHc st r Hin) as [Hst|[m [Hm ->]]]; [left; exact Hst|].
        right. exists m. split; [|reflexivity].
        eapply (mappings_child (JDict d)); [exact Hc|exact Hm]. }
      intros Hr. apply (Hgen (children (JDict d)) (visited + 1, found)); [auto|exact Hr].
Qed.

Lemma get_child (d : pydict) (k : string) :
  get d k <> JNull -> get d k ∈ children (JDict d).
Proof.
  unfold get. destruct (lookup_key d k) as [v|] eqn:E; [|congruence].
  intros _. apply lookup_key_elem in E. cbn [children]. unfold values.
  apply elem_of_map. exists (k, v). split; [reflexivity|exact E].
Qed.

Lemma pick_from_keys_sound `{PyBuiltins} (d : pydict) (ks : list string) (out : list pydict)
    (r : pydict) :
  pick_from_keys d ks = Some out -> r ∈ out ->
  exists m, m ∈ mappings (JDict d) /\ r = _normalize_vps_item m.
Proof.
  induction ks as [|key rest IH]; cbn [pick_from_keys]; [discriminate|].
  destruct (get d key) as [| | | | | l | v] eqn:E; try exact IH.
  - destruct (collect_items l) as [|o os] eqn:Ec; [exact IH|].
    intros [= <-] Hr. rewrite <- Ec in Hr.
    destruct (collect_children_mappings (JList l) r Hr) as [m [Hm ->]].
    exists m. split; [|reflexivity].
    eapply (mappings_child (JDict d)); [|exact Hm].
    rewrite <- E. apply get_child. rewrite E. discriminate.
  - destruct (collect_items (values v)) as [|o os] eqn:Ec; [exact IH|].
    intros [= <-] Hr. rewrite <- Ec in Hr.
    destruct (collect_children_mappings (JDict v) r Hr) as [m [Hm ->]].
    exists m. split; [|reflexivity].
    eapply (mappings_child (JDict d)); [|exact Hm].
    rewrite <- E. apply get_child. rewrite E. discriminate.
Qed.

(** X3. [pick_vps_list] invents nothing: every record it returns is the
    normalization of a mapping that occurs in the response, and is left
    unchanged by a further normalization. *)
Theorem pick_vps_list_sound `{PyBuiltins} (root : json) (r : pydict) :
  r ∈ pick_vps_list root ->
  (exists d, d ∈ mappings root /\ r = _normalize_vps_item d) /\
  _normalize_vps_item r = r.
Proof.
  intros Hr.
  assert (Hex : exists d, d ∈ mappings root /\ r = _normalize_vps_item d).
  { destruct root; cbn [pick_vps_list] in Hr; try (inversion Hr; fail).
    destruct (pick_from_keys d ["vs"; "vps"; "data"; "result"]) as [out|] eqn:E.
    - eapply pick_from_keys_sound; eassumption.
    - unfold deep_find_vps_list in Hr. apply dedupe_elem in Hr.
      apply walk_sound in Hr as [Hr|Hr]; [inversion Hr|exact Hr]. }
  split; [exact Hex|].
  destruct Hex as [d [_ ->]]. apply normalize_idempotent.
Qed.

Lemma pick_vps_list_sound_witness :
  (exists d, d ∈ mappings (JDict [("vs", JList [JDict [("id", JInt 7)]])]) /\
             [("id", JInt 7); ("vpsid", JInt 7)] = _normalize_vps_item d) /\
  _normalize_vps_item [("id", JInt 7); ("vpsid", JInt 7)] = [("id", JInt 7); ("vpsid", JInt 7)].
Proof.
  apply (@pick_vps_list_sound plain_builtins
           (JDict [("vs", JList [JDict [("id", JInt 7)]])])).
  vm_compute. left.
Defined.

(** ** The dedupe step *)

Section DedupeOrder.
Context `{PyBuiltins}.

Lemma has_existsb {V : Type} (d : odict V) (k : string) :
  has d k = existsb (String.eqb k) (keys d).
Proof.
  induction d as [|[k' v] d IH]; [reflexivity|].
  cbn [has keys map fst existsb]. rewrite String.eqb_sym.
  destruct (String.eqb k k'); [reflexivity|exact IH].
Qed.

Lemma first_ids_ext (found : list pydict) :
  forall seen1 seen2 : list string,
    (forall k, existsb (String.eqb k) seen1 = existsb (String.eqb k) seen2) ->
    first_ids seen1 found = first_ids seen2 found.
Proof.
  induction found as [|it r IH]; intros seen1 seen2 Hext; [reflexivity|].
  cbn [first_ids]. destruct (String.eqb (vid_of it) ""); [apply IH; exact Hext|].
  rewrite (Hext (vid_of it)).
  destruct (existsb (String.eqb (vid_of it)) seen2); [apply IH; exact Hext|].
  f_equal. apply IH. intros k. cbn [existsb]. rewrite Hext. reflexivity.
Qed.

Lemma dedupe_loop_order (found : list pydict) :
  forall uniq : odict pydict,
    keys (dedupe_loop found uniq) = keys uniq ++ first_ids (keys uniq) found.
Proof.
  induction found as [|it r IH]; intros uniq; cbn [dedupe_loop first_ids].
  - rewrite app_nil_r. reflexivity.
  - destruct (String.eqb (vid_of it) "") eqn:Hempty; cbn [negb]; [apply IH|].
    rewrite IH, keys_setitem, <- has_existsb.
    destruct (has uniq (vid_of it)); [reflexivity|].
    rewrite <- app_assoc. cbn [app]. do 2 f_equal.
    apply first_ids_ext. intros k.
    rewrite existsb_app. cbn [existsb]. rewrite orb_false_r. apply orb_comm.
Qed.

Lemma first_ids_length (found : list pydict) :
  forall seen : list string, (length (first_ids seen found) <= length found)%nat.
Proof.
  induction found as [|it r IH]; intros seen; cbn [first_ids length]; [lia|].
  destruct (String.eqb (vid_of it) ""); [specialize (IH seen); lia|].
  destruct (existsb (String.eqb (vid_of it)) seen);
    [specialize (IH seen); lia|].
  cbn [length]. specialize (IH (vid_of it :: seen)). lia.
Qed.

Lemma dedupe_some (found : list pydict) :
  (exists it, it ∈ found /\ vid_of it <> "") ->
  dedupe found = values (dedupe_loop found []).
Proof.
  intros [it [Hit Hvid]]. unfold dedupe.
  destruct (dedupe_loop found []) as [|kv uniq] eqn:E; [|reflexivity].
  exfalso. apply Hvid. apply (proj1 (dedupe_loop_nil found) E). exact Hit.
Qed.

Lemma setitem_fresh {V : Type} (d : odict V) (k : string) (v : V) :
  has d k = false -> setitem d k v = d ++ [(k, v)].
Proof.
  induction d as [|[k' v'] d IH]; cbn [has setitem app]; [reflexivity|].
  destruct (String.eqb k' k); [discriminate|].
  intros Hk. rewrite (IH Hk). reflexivity.
Qed.

Lemma dedupe_loop_rebuild (U : odict pydict) :
  forall uniq : odict pydict,
    NoDup (keys uniq ++ keys U) ->
    (forall k r, (k, r) ∈ U -> vid_of r = k /\ k <> "") ->
    dedupe_loop (values U) uniq = uniq ++ U.
Proof.
  induction U as [|[k r] U IH]; intros uniq Hnd Hvid; cbn [values map snd dedupe_loop].
  - rewrite app_nil_r. reflexivity.
  - destruct (Hvid k r (list_elem_of_here _ _)) as [Hk Hne].
    rewrite Hk. apply String.eqb_neq in Hne. rewrite Hne. cbn [negb].
    assert (Hfresh : has uniq k = false).
    { destruct (has uniq k) eqn:E; [|reflexivity].
      apply has_keys in E. exfalso.
      apply NoDup_app in Hnd as (_ & Hdisj & _).
      apply (Hdisj k E). cbn [keys map fst]. left. }
    rewrite (setitem_fresh _ _ _ Hfresh).
    change (map snd U) with (values U). rewrite IH.
    + rewrite <- app_assoc. reflexivity.
    + unfold keys. rewrite map_app. cbn [map fst]. rewrite <- app_assoc. exact Hnd.
    + intros k' r' Hin. apply Hvid. right. exact Hin.
Qed.

End DedupeOrder.

(** X4. When at least one accumulated entry has an identifier, the dedupe
    step keeps only entries of [found] that have one (entries without
    identifier are dropped), never returns more entries than it was
    given, and lists the identifiers in the order of their first
    occurrence in [found]. *)
Theorem dedupe_drops_unidentified `{PyBuiltins} (found : list pydict) :
  (exists it, it ∈ found /\ vid_of it <> "") ->
  (forall r, r ∈ dedupe found -> r ∈ found /\ vid_of r <> "") /\
  (length (dedupe found) <= length found)%nat /\
  map vid_of (dedupe found) = first_ids [] found.
Proof.
  intros Hsome. rewrite (dedupe_some found Hsome).
  assert (Hids : map vid_of (values (dedupe_loop found [])) = first_ids [] found).
  { rewrite dedupe_loop_vids, dedupe_loop_order. reflexivity. }
  split; [|split].
  - intros r Hr. apply dedupe_loop_values in Hr as [vid [Hvid Hlast]].
    apply last_with_some in Hlast as [Hin Heq]. split; [exact Hin|congruence].
  - rewrite <- (length_map vid_of), Hids. apply first_ids_length.
  - exact Hids.
Qed.

Lemma dedupe_drops_unidentified_witness :
  (forall r, r ∈ @dedupe plain_builtins
                  [[("vpsid", JStr "b")]; [("name", JStr "x")]; [("vpsid", JStr "a")];
                   [("vpsid", JStr "b"); ("name", JStr "y")]] ->
             r ∈ [[("vpsid", JStr "b")]; [("name", JStr "x")]; [("vpsid", JStr "a")];
                  [("vpsid", JStr "b"); ("name", JStr "y")]] /\
             @vid_of plain_builtins r <> "") /\
  (length (@dedupe plain_builtins
             [[("vpsid", JStr "b")]; [("name", JStr "x")]; [("vpsid", JStr "a")];
              [("vpsid", JStr "b"); ("name", JStr "y")]]) <= 4)%nat /\
  map (@vid_of plain_builtins)
      (@dedupe plain_builtins
         [[("vpsid", JStr "b")]; [("name", JStr "x")]; [("vpsid", JStr "a")];
          [("vpsid", JStr "b"); ("name", JStr "y")]]) = ["b"; "a"].
Proof.
  apply (@dedupe_drops_unidentified plain_builtins
           [[("vpsid", JStr "b")]; [("name", JStr "x")]; [("vpsid", JStr "a")];
            [("vpsid", JStr "b"); ("name", JStr "y")]]).
  exists [("vpsid", JStr "b")]. split; [left|vm_compute; discriminate].
Defined.

(** X5. The dedupe step is idempotent: its result holds no two entries
    with one identifier and no mix of entries with and without
    identifier, so a second pass returns it unchanged. *)
Theorem dedupe_idempotent `{PyBuiltins} (found : list pydict) :
  dedupe (dedupe found) = dedupe found.
Proof.
  assert (Hnd : NoDup (keys (dedupe_loop found []))).
  { apply dedupe_loop_keys. constructor. }
  assert (Hrebuild : dedupe_loop (values (dedupe_loop found [])) [] = dedupe_loop found []).
  { rewrite dedupe_loop_rebuild; [reflexivity|exact Hnd|].
    intros k r Hin. apply (elem_lookup_key _ _ _ Hnd) in Hin.
    rewrite dedupe_loop_lookup in Hin.
    destruct (String.eqb_spec k "") as [->|Hne]; [discriminate|].
    split; [|exact Hne].
    destruct (last_with k found) as [r'|] eqn:Hlast; [|discriminate].
    injection Hin as <-. apply last_with_some in Hlast as [_ Hk]. exact Hk. }
  destruct (dedupe_loop found []) as [|kv U] eqn:E.
  - assert (Hd : dedupe found = found) by (unfold dedupe; rewrite E; reflexivity).
    rewrite Hd. exact Hd.
  - assert (Hd : dedupe found = values (kv :: U)) by (unfold dedupe; rewrite E; reflexivity).
    rewrite Hd. unfold dedupe. rewrite Hrebuild. reflexivity.
Qed.

(** ** Responses that are not mappings *)

Lemma walk_list_like_second (x : json) :
  list_like x = true -> collect_items (children x) <> [] ->
  walk 5000 x (1, []) = (2, collect_items (children x)).
Proof.
  intros Hll Hne. rewrite walk_unfold. cbn [Z.ltb length Z.of_nat orb].
  change ((5000 <? 1)%Z || (500 <? 0)%Z) with false. cbv iota.
  rewrite Hll. destruct (collect_items (children x)) eqn:E; [congruence|].
  reflexivity.
Qed.

(** X6. A body that is not a mapping reaches [pick_vps_list] under the
    key "raw", which is not one of the well-known keys: the records are
    then those of the deep scan of the body, started with one node
    already visited.  In particular an array of VM records is found (and
    deduplicated), and a scalar body gives no record.  A mapping body is
    passed on as it is. *)
Theorem pick_vps_list_raw_body `{PyBuiltins} :
  (forall d, wrap_response (JDict d) = JDict d) /\
  (forall data, is_dict data = false ->
     pick_vps_list (wrap_response data) = dedupe (snd (walk 5000 data (1, [])))) /\
  (forall l, forallb is_dict l = true -> collect_items l <> [] ->
     pick_vps_list (wrap_response (JList l)) = dedupe (collect_items l)) /\
  (forall data, is_dict data = false -> children data = [] ->
     pick_vps_list (wrap_response data) = []).
Proof.
  assert (Hraw : forall data, is_dict data = false ->
     pick_vps_list (wrap_response data) = dedupe (snd (walk 5000 data (1, [])))).
  { intros data Hd.
    assert (Hw : wrap_response data = JDict [("raw", data)])
      by (destruct data; try reflexivity; discriminate).
    rewrite Hw. unfold pick_vps_list. cbn [pick_from_keys get lookup_key String.eqb].
    change (pick_from_keys [("raw", data)] ["vs"; "vps"; "data"; "result"]) with (@None (list pydict)).
    cbv iota. unfold deep_find_vps_list. rewrite walk_unfold.
    change ((5000 <? 0)%Z || (500 <? Z.of_nat (length (@nil pydict)))%Z) with false. cbv iota.
    assert (Hll : list_like (JDict [("raw", data)]) = false).
    { unfold list_like. cbn [children values map snd forallb nonempty andb].
      rewrite Hd. reflexivity. }
    rewrite Hll. cbn [andb children values map snd].
    rewrite walk_each_cons. reflexivity. }
  split; [reflexivity|]. split; [exact Hraw|]. split.
  - intros l Hall Hne. rewrite (Hraw (JList l) eq_refl).
    rewrite (walk_list_like_second (JList l)); [reflexivity| |exact Hne].
    unfold list_like. cbn [children]. rewrite Hall.
    destruct l; [exfalso; apply Hne; reflexivity|reflexivity].
  - intros data Hd Hc. rewrite (Hraw data Hd). rewrite walk_unfold.
    change ((5000 <? 1)%Z || (500 <? Z.of_nat (length (@nil pydict)))%Z) with false. cbv iota.
    unfold list_like. rewrite Hc. reflexivity.
Qed.

(** ** Detail responses *)

(** X7. [pick_vps_details] never searches below the first level: for a
    mapping it answers with the value under the first of "info", "vps",
    "vs", "data", "result" that is a mapping with an identifier or a
    descriptive key, and with the whole response when there is none,
    even when the response itself carries such keys beside a marked
    child; anything that is not a mapping gives the empty mapping. *)
Theorem pick_vps_details_first_marked `{PyBuiltins} (root : pydict) :
  match List.find
          (fun k => match get root k with
                    | JDict v => existsb (has v) ("vpsid" :: descriptive_keys)
                    | _ => false
                    end)
          ["info"; "vps"; "vs"; "data"; "result"] with
  | Some k =>
      get root k = JDict (pick_vps_details (JDict root)) /\
      JDict (pick_vps_details (JDict root)) ∈ children (JDict root) /\
      existsb (has (pick_vps_details (JDict root))) ("vpsid" :: descriptive_keys) = true
  | None => pick_vps_details (JDict root) = root
  end /\
  (forall x, is_dict x = false -> pick_vps_details x = []).
Proof.
  split; [|intros x Hx; destruct x; try reflexivity; discriminate].
  unfold pick_vps_details.
  assert (Hgen : forall ks,
    match List.find
            (fun k => match get root k with
                      | JDict v => existsb (has v) ("vpsid" :: descriptive_keys)
                      | _ => false
                      end) ks with
    | Some k =>
        exists v, details_from_keys root ks = Some v /\ get root k = JDict v /\
                  existsb (has v) ("vpsid" :: descriptive_keys) = true
    | None => details_from_keys root ks = None
    end).
  { induction ks as [|key rest IH]; [reflexivity|].
    cbn [List.find details_from_keys].
    destruct (get root key) as [| | | | | |v] eqn:E; try exact IH.
    change (existsb (has v) ["vpsid"; "hostname"; "name"; "primary_ip"; "ip"])
      with (existsb (has v) ("vpsid" :: descriptive_keys)).
    destruct (existsb (has v) ("vpsid" :: descriptive_keys)) eqn:Em; [|exact IH].
    exists v. rewrite E. auto. }
  specialize (Hgen ["info"; "vps"; "vs"; "data"; "result"]).
  destruct (List.find _ _) as [k|].
  - destruct Hgen as [v [-> [Hk Hm]]]. split; [exact Hk|]. split; [|exact Hm].
    rewrite <- Hk. apply get_child. rewrite Hk. discriminate.
  - rewrite Hgen. reflexivity.
Qed.

(** ** The classifier *)

(** X8. The classifier is monotone: a higher percentage, a lower warning
    threshold or a lower critical threshold never gives a less severe
    level, whatever the order of the two thresholds. *)
Theorem classify_level_monotone (warn critical warn' critical' p q : Z) :
  p <= q -> warn' <= warn -> critical' <= critical ->
  severity (classify_level (Some p) warn critical) <=
  severity (classify_level (Some q) warn' critical').
Proof.
  intros Hpq Hw Hc. unfold classify_level.
  destruct (Z.leb_spec critical p), (Z.leb_spec critical' q),
           (Z.leb_spec warn p), (Z.leb_spec warn' q); cbn; lia.
Qed.

Lemma classify_level_monotone_witness :
  severity (classify_level (Some 79) 80 100) <= severity (classify_level (Some 85) 80 90).
Proof. apply classify_level_monotone; lia. Defined.

(** * Further properties of the alert engine *)

Lemma level_changed_same (level : option string) : level_changed level level = false.
Proof.
  unfold level_changed. destruct level as [l|]; [|reflexivity].
  rewrite bool_decide_eq_true_2 by reflexivity. apply andb_false_r.
Qed.

Lemma set_alert_state_other (db : alert_db) (user_id profile_id : Z) (vps_id : string)
    (disk_level bw_level : option string) (suspend : option Z) (k : Z * Z * string) :
  k <> (user_id, profile_id, vps_id) ->
  set_alert_state db user_id profile_id vps_id disk_level bw_level suspend !! k = db !! k.
Proof.
  intros Hk. unfold set_alert_state. apply lookup_insert_ne. congruence.
Qed.

Lemma alert_vm_writes `{PyBuiltins} (s : alert_settings) (user_id profile_id : Z)
    (vps_id : string) (info : pydict) (db : alert_db) (msgs : list message) (db' : alert_db) :
  alert_vm s user_id profile_id vps_id info db = Returns (msgs, db') ->
  forall k, k <> (user_id, profile_id, vps_id) -> db' !! k = db !! k.
Proof.
  intros Hrun k Hk.
  destruct (alert_vm_returns _ _ _ _ _ _ _ _ Hrun)
    as (disk_pct & bw_pct & name & ip & _ & _ & Hdb & _).
  cbv zeta in Hdb. rewrite Hdb. apply set_alert_state_other. exact Hk.
Qed.

(** X9. One observation is reported once: when the loop body has run for
    a VM, running it again on the same detail and settings sends nothing
    and leaves the table as it is.  A single run sends at most three
    messages. *)
Theorem alert_vm_second_run_silent `{PyBuiltins} (s : alert_settings)
    (user_id profile_id : Z) (vps_id : string) (info : pydict) (db : alert_db)
    (msgs : list message) (db' : alert_db) :
  alert_vm s user_id profile_id vps_id info db = Returns (msgs, db') ->
  alert_vm s user_id profile_id vps_id info db' = Returns ([], db') /\
  (length msgs <= 3)%nat.
Proof.
  intros Hrun.
  destruct (alert_vm_returns _ _ _ _ _ _ _ _ Hrun)
    as (disk_pct & bw_pct & name & ip & Hd & Hb & Hdb & Hmsgs).
  cbv zeta in Hdb, Hmsgs. split.
  - unfold alert_vm. rewrite Hd, Hb. cbv zeta.
    rewrite Hdb at 1 2 3. rewrite !get_set_alert_state.
    cbn [last_disk_level last_bw_level last_suspend].
    rewrite !level_changed_same.
    assert (Hflag : forall z : Z, ((z =? 1)%Z && (z =? 0)%Z = false) /\
                                  ((z =? 0)%Z && (z =? 1)%Z = false)).
    { intros z. destruct (Z.eqb_spec z 1), (Z.eqb_spec z 0); split; try reflexivity; lia. }
    destruct (Hflag (observed_suspended info)) as [-> ->].
    assert (Hsame : set_alert_state db' user_id profile_id vps_id
                      (classify_level disk_pct (disk_warn s) (disk_critical s))
                      (classify_level bw_pct (bw_warn s) (bw_critical s))
                      (Some (observed_suspended info)) = db').
    { rewrite Hdb. unfold set_alert_state. apply insert_insert_eq. }
    rewrite Hsame. destruct (suspend_alerts s); reflexivity.
  - rewrite Hmsgs. rewrite !length_app.
    destruct (level_changed _ _), (level_changed _ _), (suspend_alerts s);
      cbn [length]; try lia;
      destruct (last_suspend (get_alert_state db user_id profile_id vps_id)) as [q|];
      cbn [length]; try lia;
      destruct (Z.eqb_spec (observed_suspended info) 1),
               (Z.eqb_spec (observed_suspended info) 0), (Z.eqb_spec q 0), (Z.eqb_spec q 1);
      cbn [andb app length]; lia.
Qed.

Lemma alert_vm_second_run_silent_witness :
  @alert_vm plain_builtins default_settings 7 1 "101" scenario_B_info
     (set_alert_state scenario_B_db 7 1 "101" (Some "critical") None (Some 0)) =
    Returns ([], set_alert_state scenario_B_db 7 1 "101" (Some "critical") None (Some 0)) /\
  (length [DiskAlert "critical" (JStr "VPS 101") (JStr "-") (Some 100%Z)] <= 3)%nat.
Proof.
  apply (@alert_vm_second_run_silent plain_builtins default_settings 7 1 "101"
           scenario_B_info scenario_B_db).
  vm_compute. reflexivity.
Defined.

(** The rows a sweep can change. *)
Lemma alert_vps_list_writes `{PyBuiltins} (s : alert_settings) (user_id profile_id : Z)
    (fetch : string -> option pydict) (vps_list : list pydict) :
  forall (log : list message) (db : alert_db)
         (log' : list message) (db' : alert_db) (e : option pyexn),
    alert_vps_list s user_id profile_id fetch vps_list log db = (log', db', e) ->
    (exists new, log' = log ++ new) /\
    (forall k,
        (forall v, v ∈ vps_list -> vid_of v <> "" -> fetch (vid_of v) <> None ->
                   k <> (user_id, profile_id, vid_of v)) ->
        db' !! k = db !! k).
Proof.
  induction vps_list as [|v rest IH]; intros log db log' db' e Hrun;
    cbn [alert_vps_list] in Hrun.
  - injection Hrun as <- <- _. split; [exists []; rewrite app_nil_r; reflexivity|auto].
  - assert (Hskip : alert_vps_list s user_id profile_id fetch rest log db = (log', db', e) ->
              (exists new, log' = log ++ new) /\
              (forall k,
                  (forall v0, v0 ∈ v :: rest -> vid_of v0 <> "" -> fetch (vid_of v0) <> None ->
                              k <> (user_id, profile_id, vid_of v0)) ->
                  db' !! k = db !! k)).
    { intros Hrest. destruct (IH _ _ _ _ _ Hrest) as [Hlog Hdb]. split; [exact Hlog|].
      intros k Hk. apply Hdb. intros v0 Hv0. apply Hk. right. exact Hv0. }
    destruct (String.eqb_spec (vid_of v) "") as [Hempty|Hid]; [apply Hskip; exact Hrun|].
    destruct (fetch (vid_of v)) as [info|] eqn:Hfetch; [|apply Hskip; exact Hrun].
    destruct (alert_vm s user_id profile_id (vid_of v) info db) as [[msgs db1]|exn] eqn:Hvm.
    + destruct (IH _ _ _ _ _ Hrun) as [[new Hlog] Hdb]. split.
      * exists (msgs ++ new). rewrite Hlog, app_assoc. reflexivity.
      * intros k Hk. rewrite Hdb.
        -- eapply alert_vm_writes; [exact Hvm|].
           apply Hk; [left|exact Hid|rewrite Hfetch; discriminate].
        -- intros v0 Hv0. apply Hk. right. exact Hv0.
    + injection Hrun as <- <- _. split; [exists []; rewrite app_nil_r; reflexivity|auto].
Qed.

(** X10. A sweep over the VMs of one profile only ever appends to the
    messages already sent, and the only rows of [alert_state] it can
    change are those of this user and profile for a listed VM with an
    identifier whose detail was fetched: rows of other users, of other
    profiles and of skipped VMs stay as they were, also when the sweep
    ends in an exception. *)
Theorem alert_vps_list_frame `{PyBuiltins} (s : alert_settings) (user_id profile_id : Z)
    (fetch : string -> option pydict) (vps_list : list pydict)
    (log : list message) (db : alert_db)
    (log' : list message) (db' : alert_db) (e : option pyexn) :
  alert_vps_list s user_id profile_id fetch vps_list log db = (log', db', e) ->
  (exists new, log' = log ++ new) /\
  (forall k,
      (forall v, v ∈ vps_list -> vid_of v <> "" -> fetch (vid_of v) <> None ->
                 k <> (user_id, profile_id, vid_of v)) ->
      db' !! k = db !! k) /\
  (forall user_id' profile_id' vps_id,
      (user_id', profile_id') <> (user_id, profile_id) ->
      db' !! (user_id', profile_id', vps_id) = db !! (user_id', profile_id', vps_id)).
Proof.
  intros Hrun.
  destruct (alert_vps_list_writes _ _ _ _ _ _ _ _ _ _ Hrun) as [Hlog Hdb].
  split; [exact Hlog|]. split; [exact Hdb|].
  intros user_id' profile_id' vps_id Hother. apply Hdb.
  intros v _ _ _. congruence.
Qed.

Lemma alert_vps_list_frame_witness :
  (exists new, [DiskAlert "critical" (JStr "VPS 101") (JStr "-") (Some 100)] = [] ++ new) /\
  (forall k,
      (forall v, v ∈ scenario_E_list -> @vid_of plain_builtins v <> "" ->
                 scenario_E_fetch (@vid_of plain_builtins v) <> None ->
                 k <> (7, 1, @vid_of plain_builtins v)) ->
      set_alert_state scenario_B_db 7 1 "101" (Some "critical") None (Some 0) !! k =
      scenario_B_db !! k) /\
  (forall user_id' profile_id' vps_id,
      (user_id', profile_id') <> (7, 1) ->
      set_alert_state scenario_B_db 7 1 "101" (Some "critical") None (Some 0)
        !! (user_id', profile_id', vps_id) = scenario_B_db !! (user_id', profile_id', vps_id)).
Proof.
  apply (@alert_vps_list_frame plain_builtins default_settings 7 1 scenario_E_fetch
           scenario_E_list [] scenario_B_db _ _ None).
  vm_compute. reflexivity.
Defined.

(** * The tables *)

Lemma filter_lookup_keep {K A : Type} `{Countable K} (P : K * A -> Prop)
    `{forall x, Decision (P x)} (m : gmap K A) (i : K) :
  (forall x, m !! i = Some x -> P (i, x)) -> filter P m !! i = m !! i.
Proof.
  intros HP. destruct (m !! i) as [x|] eqn:E.
  - apply map_lookup_filter_Some. split; [exact E|apply HP; reflexivity].
  - apply map_lookup_filter_None. left. exact E.
Qed.

Lemma filter_lookup_drop {K A : Type} `{Countable K} (P : K * A -> Prop)
    `{forall x, Decision (P x)} (m : gmap K A) (i : K) :
  (forall x, m !! i = Some x -> ~ P (i, x)) -> filter P m !! i = None.
Proof.
  intros HP. apply map_lookup_filter_None. right. exact HP.
Qed.

(** X11. [delete_profile] removes the profile and forgets its alert
    state, for the owner only: afterwards the owner cannot read the
    profile and every VM of it reads as never seen, while every other
    (user, profile) pair reads exactly as before, in both tables.  In
    particular a user who passes the id of someone else's profile deletes
    nothing of theirs. *)
Theorem delete_profile_cascade (db : database) (user_id profile_id : Z) :
  get_profile (profiles (delete_profile db user_id profile_id)) user_id profile_id = None /\
  (forall vps_id,
      get_alert_state (states (delete_profile db user_id profile_id))
                      user_id profile_id vps_id =
      {| last_disk_level := None; last_bw_level := None; last_suspend := None |}) /\
  (forall user_id' profile_id',
      (user_id', profile_id') <> (user_id, profile_id) ->
      get_profile (profiles (delete_profile db user_id profile_id)) user_id' profile_id' =
      get_profile (profiles db) user_id' profile_id' /\
      forall vps_id,
        states (delete_profile db user_id profile_id) !! (user_id', profile_id', vps_id) =
        states db !! (user_id', profile_id', vps_id)).
Proof.
  unfold delete_profile. cbn [profiles states]. split; [|split].
  - unfold get_profile.
    destruct (filter _ (profiles db) !! profile_id) as [r|] eqn:E; [|reflexivity].
    apply map_lookup_filter_Some in E as [_ HP]. cbn [fst snd] in HP.
    destruct (Z.eqb_spec (c_user_id r) user_id) as [Hu|Hu]; [|reflexivity].
    exfalso. apply HP. split; [exact Hu|reflexivity].
  - intros vps_id. unfold get_alert_state.
    rewrite filter_lookup_drop; [reflexivity|].
    intros x _ HP. apply HP. split; reflexivity.
  - intros user_id' profile_id' Hother. split.
    + unfold get_profile.
      destruct (Z.eq_dec profile_id' profile_id) as [->|Hp].
      * assert (Hu : user_id' <> user_id) by congruence.
        destruct (profiles db !! profile_id) as [r|] eqn:E.
        -- destruct (Z.eq_dec (c_user_id r) user_id) as [Hr|Hr].
           ++ rewrite filter_lookup_drop.
              ** destruct (Z.eqb_spec (c_user_id r) user_id'); [congruence|reflexivity].
              ** intros x Hx HP. apply HP. cbn [fst snd]. split; congruence.
           ++ rewrite filter_lookup_keep, E; [reflexivity|].
              intros x Hx [Hx1 _]. cbn [fst snd] in Hx1. congruence.
        -- rewrite filter_lookup_keep, E; [reflexivity|]. intros x Hx. congruence.
      * rewrite filter_lookup_keep; [reflexivity|].
        intros x _ [_ Hx]. cbn [fst] in Hx. congruence.
    + intros vps_id. apply filter_lookup_keep.
      intros x _ [H1 H2]. cbn [fst snd] in H1, H2. congruence.
Qed.

(** X12. A profile can be read through [get_profile] by its owner only,
    under the id it was asked by; and [add_profile] followed by
    [get_profile] gives back what was stored, the SSL switch included,
    without changing what any other id reads as. *)
Theorem add_profile_get_profile (t : profiles_table) (new_id : Z) (user_id : Z)
    (title panel_url api_key api_pass : string) (verify_ssl : bool) :
  t !! new_id = None ->
  get_profile (add_profile t new_id user_id title panel_url api_key api_pass verify_ssl)
              user_id new_id =
    Some {| p_id := new_id; p_title := title; p_panel_url := panel_url; p_api_key := api_key;
            p_api_pass := api_pass; p_verify_ssl := verify_ssl |} /\
  (forall user_id', user_id' <> user_id ->
     get_profile (add_profile t new_id user_id title panel_url api_key api_pass verify_ssl)
                 user_id' new_id = None) /\
  (forall user_id' profile_id, profile_id <> new_id ->
     get_profile (add_profile t new_id user_id title panel_url api_key api_pass verify_ssl)
                 user_id' profile_id = get_profile t user_id' profile_id) /\
  (forall t' user_id1 user_id2 profile_id p,
     get_profile t' user_id1 profile_id = Some p -> user_id2 <> user_id1 ->
     p_id p = profile_id /\ get_profile t' user_id2 profile_id = None).
Proof.
  intros Hfresh. unfold add_profile, get_profile. split; [|split; [|split]].
  - rewrite lookup_insert_eq. cbn [c_user_id c_title c_panel_url c_api_key c_api_pass c_verify_ssl].
    rewrite Z.eqb_refl. destruct verify_ssl; reflexivity.
  - intros user_id' Hu. rewrite lookup_insert_eq. cbn [c_user_id].
    destruct (Z.eqb_spec user_id user_id'); [congruence|reflexivity].
  - intros user_id' profile_id Hp. rewrite lookup_insert_ne by congruence. reflexivity.
  - intros t' user_id1 user_id2 profile_id p Hget Hu.
    destruct (t' !! profile_id) as [r|]; [|discriminate].
    destruct (Z.eqb_spec (c_user_id r) user_id1) as [Hr|Hr]; [|discriminate].
    injection Hget as <-. split; [reflexivity|].
    destruct (Z.eqb_spec (c_user_id r) user_id2); [congruence|reflexivity].
Qed.

Lemma add_profile_get_profile_witness :
  get_profile (add_profile ∅ 1 7 "panel" "https://panel.example" "k" "p" false) 7 1 =
    Some {| p_id := 1; p_title := "panel"; p_panel_url := "https://panel.example";
            p_api_key := "k"; p_api_pass := "p"; p_verify_ssl := false |} /\
  (forall user_id', user_id' <> 7 ->
     get_profile (add_profile ∅ 1 7 "panel" "https://panel.example" "k" "p" false)
                 user_id' 1 = None) /\
  (forall user_id' profile_id, profile_id <> 1 ->
     get_profile (add_profile ∅ 1 7 "panel" "https://panel.example" "k" "p" false)
                 user_id' profile_id = get_profile ∅ user_id' profile_id) /\
  (forall t' user_id1 user_id2 profile_id p,
     get_profile t' user_id1 profile_id = Some p -> user_id2 <> user_id1 ->
     p_id p = profile_id /\ get_profile t' user_id2 profile_id = None).
Proof.
  apply (add_profile_get_profile ∅ 1 7 "panel" "https://panel.example" "k" "p" false).
  reflexivity.
Defined.

(** ** Settings *)

Lemma ensure_lookup (t : settings_table) (user_id : Z) :
  ensure_alert_settings t user_id !! user_id = Some (default default_row (t !! user_id)).
Proof.
  unfold ensure_alert_settings. destruct (t !! user_id) as [r|] eqn:E.
  - rewrite E. reflexivity.
  - rewrite lookup_insert_eq. reflexivity.
Qed.

Lemma ensure_other (t : settings_table) (user_id user_id' : Z) :
  user_id' <> user_id -> ensure_alert_settings t user_id !! user_id' = t !! user_id'.
Proof.
  intros Hu. unfold ensure_alert_settings. destruct (t !! user_id); [reflexivity|].
  apply lookup_insert_ne. congruence.
Qed.

Lemma ensure_present (t : settings_table) (user_id : Z) (r : settings_row) :
  t !! user_id = Some r -> ensure_alert_settings t user_id = t.
Proof. intros E. unfold ensure_alert_settings. rewrite E. reflexivity. Qed.

Lemma ensure_ensure (t : settings_table) (user_id : Z) :
  ensure_alert_settings (ensure_alert_settings t user_id) user_id =
  ensure_alert_settings t user_id.
Proof. eapply ensure_present. apply ensure_lookup. Qed.

(** X13. [get_alert_settings] gives a user without a row the defaults
    (alerts on, 80/100 for disk and bandwidth, suspend alerts on) and
    creates the row; for a user with a row it changes nothing.  Reading
    twice is reading once, and no other user's row is touched. *)
Theorem get_alert_settings_defaults (t : settings_table) (user_id : Z) :
  (t !! user_id = None ->
   get_alert_settings t user_id = (default_settings, <[user_id := default_row]> t)) /\
  (forall r, t !! user_id = Some r ->
   get_alert_settings t user_id = (settings_of_row r, t)) /\
  get_alert_settings (snd (get_alert_settings t user_id)) user_id =
    get_alert_settings t user_id /\
  (forall user_id', user_id' <> user_id ->
   snd (get_alert_settings t user_id) !! user_id' = t !! user_id').
Proof.
  unfold get_alert_settings. cbn [snd]. split; [|split; [|split]].
  - intros E. rewrite ensure_lookup, E. unfold ensure_alert_settings. rewrite E. reflexivity.
  - intros r E. rewrite ensure_lookup, E. rewrite (ensure_present _ _ _ E). reflexivity.
  - rewrite ensure_ensure. reflexivity.
  - intros user_id' Hu. apply ensure_other. exact Hu.
Qed.

Lemma settings_after_update (t : settings_table) (user_id : Z) (r : settings_row) :
  get_alert_settings (<[user_id := r]> t) user_id = (settings_of_row r, <[user_id := r]> t).
Proof.
  unfold get_alert_settings.
  rewrite ensure_lookup, lookup_insert_eq.
  rewrite (ensure_present _ _ r) by apply lookup_insert_eq. reflexivity.
Qed.

Lemma bound_value_int (z : Z) : z <> 0 -> bound_value (KInt z) = 1.
Proof.
  intros Hz. unfold bound_value, kwarg_truthy.
  apply Z.eqb_neq in Hz. rewrite Hz. reflexivity.
Qed.

Lemma bound_value_bool (b : bool) : bound_value (KBool b) = if b then 1 else 0.
Proof. destruct b; reflexivity. Qed.

(** X14. What [update_alert_settings] binds for a truthy keyword value is
    1, the value itself only when it is a falsy non-boolean.  So the call
    that ends the threshold dialogue returns normally and leaves 1 in
    each of the four threshold columns, whatever non-zero percentages
    were entered; the two switches are not touched.  With these settings
    every percentage from 1 up is classified "critical". *)
Theorem save_thresholds_stores_one (t : settings_table) (user_id : Z)
    (dw dc bw bc : Z) :
  dw <> 0 -> dc <> 0 -> bw <> 0 -> bc <> 0 ->
  exists t',
    save_thresholds t user_id dw dc bw bc = (t', true) /\
    let before := fst (get_alert_settings t user_id) in
    let after := fst (get_alert_settings t' user_id) in
    disk_warn after = 1 /\ disk_critical after = 1 /\
    bw_warn after = 1 /\ bw_critical after = 1 /\
    alerts_enabled after = alerts_enabled before /\
    suspend_alerts after = suspend_alerts before /\
    (forall pct, 1 <= pct ->
       classify_level (Some pct) (disk_warn after) (disk_critical after) = Some "critical" /\
       classify_level (Some pct) (bw_warn after) (bw_critical after) = Some "critical").
Proof.
  intros Hdw Hdc Hbw Hbc.
  unfold save_thresholds, update_alert_settings. cbn [assign].
  rewrite !bound_value_int by assumption.
  cbn [set_column String.eqb Ascii.eqb Bool.eqb].
  eexists. split; [reflexivity|]. cbv zeta.
  rewrite settings_after_update. cbn [fst].
  unfold get_alert_settings. cbn [fst]. rewrite ensure_lookup.
  cbn [settings_of_row c_alerts_enabled c_disk_warn c_disk_critical c_bw_warn
       c_bw_critical c_suspend_alerts alerts_enabled disk_warn disk_critical bw_warn
       bw_critical suspend_alerts].
  repeat (split; [reflexivity|]).
  intros pct Hpct. unfold classify_level.
  destruct (Z.leb_spec 1 pct); [split; reflexivity|lia].
Qed.

Lemma save_thresholds_stores_one_witness :
  exists t',
    save_thresholds ∅ 7 80 100 80 100 = (t', true) /\
    let before := fst (get_alert_settings ∅ 7) in
    let after := fst (get_alert_settings t' 7) in
    disk_warn after = 1 /\ disk_critical after = 1 /\
    bw_warn after = 1 /\ bw_critical after = 1 /\
    alerts_enabled after = alerts_enabled before /\
    suspend_alerts after = suspend_alerts before /\
    (forall pct, 1 <= pct ->
       classify_level (Some pct) (disk_warn after) (disk_critical after) = Some "critical" /\
       classify_level (Some pct) (bw_warn after) (bw_critical after) = Some "critical").
Proof. apply (save_thresholds_stores_one ∅ 7 80 100 80 100); lia. Defined.

Lemma toggle_row (t : settings_table) (user_id : Z) (k : string) (b : bool)
    (r : settings_row) :
  set_column (default default_row (t !! user_id)) k (if b then 1 else 0) = Some r ->
  get_alert_settings
    (fst (update_alert_settings (snd (get_alert_settings t user_id)) user_id [(k, KBool b)]))
    user_id =
  (settings_of_row r, <[user_id := r]> (ensure_alert_settings t user_id)).
Proof.
  intros Hset. unfold get_alert_settings at 2. cbn [snd].
  unfold update_alert_settings. rewrite ensure_ensure, ensure_lookup.
  cbn [assign from_option].
  change (Datatypes.id (default default_row (t !! user_id)))
    with (default default_row (t !! user_id)).
  rewrite bound_value_bool, Hset. cbn [fst].
  apply settings_after_update.
Qed.

(** X15. The two switch handlers flip their own switch and nothing else:
    after [cb_alerts_toggle] the settings shown differ from the ones read
    before in [alerts_enabled] only, after [cb_alerts_suspend_toggle] in
    [suspend_alerts] only; pressing a switch twice shows the initial
    settings again, and no other user's row is touched. *)
Theorem toggles_flip_one_switch (t : settings_table) (user_id : Z) :
  let before := fst (get_alert_settings t user_id) in
  (let after := fst (cb_alerts_toggle t user_id) in
   after = {| alerts_enabled := negb (alerts_enabled before);
              disk_warn := disk_warn before; disk_critical := disk_critical before;
              bw_warn := bw_warn before; bw_critical := bw_critical before;
              suspend_alerts := suspend_alerts before |}) /\
  (let after := fst (cb_alerts_suspend_toggle t user_id) in
   after = {| alerts_enabled := alerts_enabled before;
              disk_warn := disk_warn before; disk_critical := disk_critical before;
              bw_warn := bw_warn before; bw_critical := bw_critical before;
              suspend_alerts := negb (suspend_alerts before) |}) /\
  fst (cb_alerts_toggle (snd (cb_alerts_toggle t user_id)) user_id) = before /\
  fst (cb_alerts_suspend_toggle (snd (cb_alerts_suspend_toggle t user_id)) user_id) = before /\
  (forall user_id', user_id' <> user_id ->
     snd (cb_alerts_toggle t user_id) !! user_id' = t !! user_id' /\
     snd (cb_alerts_suspend_toggle t user_id) !! user_id' = t !! user_id').
Proof.
  assert (Ha : forall t, cb_alerts_toggle t user_id =
     get_alert_settings
       (fst (update_alert_settings (snd (get_alert_settings t user_id)) user_id
               [("alerts_enabled", KBool (negb (alerts_enabled (fst (get_alert_settings t user_id)))))]))
       user_id).
  { intros t0. unfold cb_alerts_toggle.
    destruct (get_alert_settings t0 user_id) as [s0 t1]. cbn [fst snd].
    destruct (update_alert_settings t1 user_id _) as [t2 ok]. reflexivity. }
  assert (Hs : forall t, cb_alerts_suspend_toggle t user_id =
     get_alert_settings
       (fst (update_alert_settings (snd (get_alert_settings t user_id)) user_id
               [("suspend_alerts", KBool (negb (suspend_alerts (fst (get_alert_settings t user_id)))))]))
       user_id).
  { intros t0. unfold cb_alerts_suspend_toggle.
    destruct (get_alert_settings t0 user_id) as [s0 t1]. cbn [fst snd].
    destruct (update_alert_settings t1 user_id _) as [t2 ok]. reflexivity. }
  assert (Ha' : forall t, cb_alerts_toggle t user_id =
     (let r := default default_row (t !! user_id) in
      let r' := {| c_alerts_enabled := if negb (negb (c_alerts_enabled r =? 0)%Z) then 1 else 0;
                   c_disk_warn := c_disk_warn r; c_disk_critical := c_disk_critical r;
                   c_bw_warn := c_bw_warn r; c_bw_critical := c_bw_critical r;
                   c_suspend_alerts := c_suspend_alerts r |} in
      (settings_of_row r', <[user_id := r']> (ensure_alert_settings t user_id)))).
  { intros t0. rewrite Ha. cbv zeta. apply toggle_row.
    unfold get_alert_settings. cbn [fst]. rewrite ensure_lookup. reflexivity. }
  assert (Hs' : forall t, cb_alerts_suspend_toggle t user_id =
     (let r := default default_row (t !! user_id) in
      let r' := {| c_alerts_enabled := c_alerts_enabled r;
                   c_disk_warn := c_disk_warn r; c_disk_critical := c_disk_critical r;
                   c_bw_warn := c_bw_warn r; c_bw_critical := c_bw_critical r;
                   c_suspend_alerts := if negb (negb (c_suspend_alerts r =? 0)%Z) then 1 else 0 |} in
      (settings_of_row r', <[user_id := r']> (ensure_alert_settings t user_id)))).
  { intros t0. rewrite Hs. cbv zeta. apply toggle_row.
    unfold get_alert_settings. cbn [fst]. rewrite ensure_lookup. reflexivity. }
  assert (Hbefore : fst (get_alert_settings t user_id) =
                    settings_of_row (default default_row (t !! user_id))).
  { unfold get_alert_settings. cbn [fst]. rewrite ensure_lookup. reflexivity. }
  cbv zeta. rewrite Hbefore. split; [|split; [|split; [|split]]].
  - rewrite Ha'. cbv zeta. cbn [fst]. unfold settings_of_row. cbn.
    destruct (c_alerts_enabled (default default_row (t !! user_id)) =? 0)%Z; reflexivity.
  - rewrite Hs'. cbv zeta. cbn [fst]. unfold settings_of_row. cbn.
    destruct (c_suspend_alerts (default default_row (t !! user_id)) =? 0)%Z; reflexivity.
  - rewrite (Ha' t). cbv zeta. cbn [snd]. rewrite Ha'. cbv zeta. cbn [fst].
    rewrite lookup_insert_eq. unfold settings_of_row. cbn.
    destruct (c_alerts_enabled (default default_row (t !! user_id)) =? 0)%Z; reflexivity.
  - rewrite (Hs' t). cbv zeta. cbn [snd]. rewrite Hs'. cbv zeta. cbn [fst].
    rewrite lookup_insert_eq. unfold settings_of_row. cbn.
    destruct (c_suspend_alerts (default default_row (t !! user_id)) =? 0)%Z; reflexivity.
  - intros user_id' Hu. rewrite Ha', Hs'. cbv zeta. cbn [snd].
    rewrite !lookup_insert_ne by congruence. rewrite ensure_other by exact Hu. auto.
Qed.

(** * Range of the percentage *)

Section PercentRange.
Local Open Scope R_scope.

(** The two constants of the range, as roundings of themselves. *)
Lemma one_rounds :
  rounds_to 1 false (binary_round_aux prec emax false 4503599627370496 (-52) loc_Exact) 1.
Proof.
  exists 4503599627370496%Z, (-52)%Z, loc_Exact.
  assert (Hb : bpow (-52) = / 4503599627370496).
  { change (-52)%Z with (Z.opp 52). rewrite bpow_opp, bpow_IZR by lia. reflexivity. }
  split; [lia|]. split; [|split; [|split; [reflexivity|]]].
  - cbn [located]. rewrite Hb. field.
  - vm_compute. discriminate.
  - replace (round_mag 4503599627370496 (-52) loc_Exact) with (4503599627370496%Z, (-52)%Z)
      by (vm_compute; reflexivity).
    cbn [fst snd]. rewrite Hb. field.
Qed.

Lemma hundred_rounds :
  rounds_to 100 false (binary_round_aux prec emax false 7036874417766400 (-46) loc_Exact) 100.
Proof.
  exists 7036874417766400%Z, (-46)%Z, loc_Exact.
  assert (Hb : bpow (-46) = / 70368744177664).
  { change (-46)%Z with (Z.opp 46). rewrite bpow_opp, bpow_IZR by lia. reflexivity. }
  split; [lia|]. split; [|split; [|split; [reflexivity|]]].
  - cbn [located]. rewrite Hb. field.
  - vm_compute. discriminate.
  - replace (round_mag 7036874417766400 (-46) loc_Exact) with (7036874417766400%Z, (-46)%Z)
      by (vm_compute; reflexivity).
    cbn [fst snd]. rewrite Hb. field.
Qed.

Lemma bpow_972_large : 100 < bpow 972.
Proof.
  pose proof (bpow_le 7 972 ltac:(lia)) as Hle.
  rewrite (bpow_IZR 7) in Hle by lia. change (2 ^ 7)%Z with 128%Z in Hle. lra.
Qed.

(** A rounding whose magnitude stays below 2^972 does not overflow. *)
Lemma rounds_to_small_finite (r : R) (s : bool) (res : spec_float) (v : R) :
  rounds_to r s res v -> v < bpow 972 -> SFfinite res = true.
Proof.
  intros (m & e & l & Hm & Hl & Hf & -> & ->) Hv.
  destruct (round_mag_spec m e l r _ _ Hm Hl Hf (surjective_pairing _))
    as (E' & m' & l' & _ & _ & _ & _ & Hmf & _).
  rewrite binary_round_aux_mag.
  destruct (fst (round_mag m e l)) as [|p|p]; [reflexivity| |lia].
  destruct (Z.leb_spec (snd (round_mag m e l)) (emax - prec)) as [Hle|Hgt]; [reflexivity|].
  exfalso. change (emax - prec)%Z with 971%Z in Hgt.
  pose proof (bpow_le 972 (snd (round_mag m e l)) ltac:(lia)) as Hb.
  assert (1 <= IZR (Z.pos p)) by (apply IZR_le; lia).
  pose proof (bpow_pos 972). nra.
Qed.

Lemma hundred_R : IZR 7036874417766400 * bpow (-46) = 100.
Proof.
  pose proof hundred_val as Hh. unfold SFval, hundred, sign_factor in Hh. lra.
Qed.

(** [(x / y) * 100] for 0 < x <= y: finite, between 0 and 100, and
    exactly 100 when x = y. *)
Lemma scaled_ratio_unit (m : positive) (e : Z) (my : positive) (ey : Z) :
  IZR (Z.pos m) * bpow e <= IZR (Z.pos my) * bpow ey ->
  SFfinite (scaled_ratio (S754_finite false m e) (S754_finite false my ey)) = true /\
  0 <= SFval (scaled_ratio (S754_finite false m e) (S754_finite false my ey)) <= 100 /\
  (IZR (Z.pos m) * bpow e = IZR (Z.pos my) * bpow ey ->
   SFval (scaled_ratio (S754_finite false m e) (S754_finite false my ey)) = 100).
Proof.
  intros Hle.
  assert (Hy : 0 < IZR (Z.pos my) * bpow ey).
  { pose proof (bpow_pos ey). assert (0 < IZR (Z.pos my)) by (apply IZR_lt; lia). nra. }
  assert (Hx : 0 < IZR (Z.pos m) * bpow e).
  { pose proof (bpow_pos e). assert (0 < IZR (Z.pos m)) by (apply IZR_lt; lia). nra. }
  set (r := IZR (Z.pos m) * bpow e / (IZR (Z.pos my) * bpow ey)).
  assert (Hr : r <= 1).
  { unfold r. apply (Rmult_le_reg_r (IZR (Z.pos my) * bpow ey)); [exact Hy|].
    unfold Rdiv. rewrite Rmult_assoc, Rinv_l by lra. lra. }
  assert (Hr1 : IZR (Z.pos m) * bpow e = IZR (Z.pos my) * bpow ey -> r = 1).
  { intros Heq. unfold r. rewrite Heq. unfold Rdiv. apply Rinv_r. lra. }
  unfold scaled_ratio.
  destruct (SFdiv_rounds false m e my ey) as [vq Hq]. fold r in Hq.
  pose proof (rounds_to_mono _ _ _ _ _ _ _ _ Hq one_rounds Hr) as Hvq.
  pose proof bpow_972_large as Hbig.
  assert (HfinQ : SFfinite (SFdiv prec emax (S754_finite false m e) (S754_finite false my ey))
                  = true).
  { apply (rounds_to_small_finite _ _ _ _ Hq). lra. }
  assert (Hvq1 : r = 1 -> vq = 1).
  { intros Hone. apply Rle_antisym; [exact Hvq|].
    apply (rounds_to_mono _ _ _ _ _ _ _ _ one_rounds Hq). lra. }
  destruct (rounds_to_cases _ _ _ _ Hq) as [[HQ Hz]|[(p & ef & HQ & Hp)|HQ]];
    rewrite HQ in HfinQ |- *; [| |discriminate HfinQ].
  - cbn [SFmul hundred xorb SFfinite SFval]. split; [reflexivity|]. split; [lra|].
    intros Heq. specialize (Hvq1 (Hr1 Heq)). lra.
  - destruct (SFmul_rounds false p ef 7036874417766400 (-46) ltac:(vm_compute; discriminate))
      as [vp Hprod].
    fold hundred in Hprod. rewrite hundred_R in Hprod. rewrite <- Hp in Hprod.
    assert (Hvp : vp <= 100).
    { apply (rounds_to_mono _ _ _ _ _ _ _ _ Hprod hundred_rounds). lra. }
    assert (Hvp0 : 0 <= vp) by exact (rounds_to_nonneg _ _ _ _ Hprod).
    assert (HfinP : SFfinite (SFmul prec emax (S754_finite false p ef) hundred) = true).
    { apply (rounds_to_small_finite _ _ _ _ Hprod). lra. }
    assert (Hval : SFval (SFmul prec emax (S754_finite false p ef) hundred) = vp).
    { destruct (rounds_to_cases _ _ _ _ Hprod) as [[HP Hz]|[(p' & ef' & HP & Hp')|HP]];
        rewrite HP in HfinP |- *; [| |discriminate HfinP].
      - cbn [SFval]. lra.
      - cbn [SFval sign_factor]. lra. }
    split; [exact HfinP|]. rewrite Hval. split; [lra|].
    intros Heq. specialize (Hvq1 (Hr1 Heq)). apply Rle_antisym; [exact Hvp|].
    apply (rounds_to_mono _ _ _ _ _ _ _ _ hundred_rounds Hprod). rewrite Hvq1. lra.
Qed.

(** The order of two valid positive floats is the order of their values. *)
Lemma SFleb_values (m1 : positive) (e1 : Z) (m2 : positive) (e2 : Z) :
  valid_binary (S754_finite false m1 e1) = true ->
  valid_binary (S754_finite false m2 e2) = true ->
  SFleb (S754_finite false m1 e1) (S754_finite false m2 e2) = true ->
  IZR (Z.pos m1) * bpow e1 <= IZR (Z.pos m2) * bpow e2.
Proof.
  intros Hv1 Hv2 Hle. apply valid_canonical in Hv1, Hv2.
  pose proof (canonical_order m1 e1 m2 e2 Hv1 Hv2) as Hord.
  unfold SFleb, SFcompare in Hle.
  destruct (e1 ?= e2)%Z; [|exact Hord|discriminate Hle].
  destruct (Pos.compare_cont Eq m1 m2);
    [rewrite Hord; lra | exact Hord | discriminate Hle].
Qed.

Lemma math_floor_finite (f : float) :
  SFfinite (Prim2SF f) = true -> exists p, math_floor f = Returns p.
Proof.
  unfold math_floor. destruct (Prim2SF f); try discriminate; eauto.
Qed.

Lemma math_floor_range (f : float) (lo hi : Z) :
  SFfinite (Prim2SF f) = true -> IZR lo <= SFval (Prim2SF f) <= IZR hi ->
  exists p, math_floor f = Returns p /\ (lo <= p <= hi)%Z.
Proof.
  intros Hfin [Hlo Hhi]. destruct (math_floor_finite f Hfin) as [p Hp].
  exists p. split; [exact Hp|].
  apply math_floor_bounds in Hp as [_ [Hp1 Hp2]].
  assert (H1 : IZR lo < IZR p + 1) by lra.
  assert (H2 : IZR p <= IZR hi) by lra.
  rewrite <- plus_IZR in H1. apply lt_IZR in H1. apply le_IZR in H2. lia.
Qed.

Lemma compute_percent_floor (used total : float) (lo hi : Z) :
  PrimFloat.leb total 0 = false ->
  SFfinite (scaled_ratio (Prim2SF used) (Prim2SF total)) = true ->
  IZR lo <= SFval (scaled_ratio (Prim2SF used) (Prim2SF total)) <= IZR hi ->
  exists p, compute_percent used total = Returns (Some p) /\ (lo <= p <= hi)%Z.
Proof.
  intros Htot Hfin Hval. unfold compute_percent. rewrite Htot.
  rewrite <- Prim2SF_scaled_ratio in Hfin, Hval.
  destruct (math_floor_range _ lo hi Hfin Hval) as [p [-> Hp]].
  exists p. split; [reflexivity|exact Hp].
Qed.

Lemma scaled_ratio_range (x y : spec_float) :
  valid_binary x = true -> valid_binary y = true ->
  SFleb (S754_zero false) x = true -> SFleb x y = true ->
  SFleb y (S754_zero false) = false -> SFltb x (S754_infinity false) = true ->
  SFfinite (scaled_ratio x y) = true /\
  0 <= SFval (scaled_ratio x y) <= 100 /\
  (x = y -> SFval (scaled_ratio x y) = 100).
Proof.
  intros Hvx Hvy H0 Hle Htot Hfin.
  destruct x as [sx|sx| |sx mx ex].
  - (* a zero *)
    destruct y as [sy|sy| |sy my ey]; try discriminate.
    + destruct sy; [discriminate|].
      split; [reflexivity|]. split; [cbn [scaled_ratio SFdiv SFmul hundred SFval]; lra|discriminate].
    + destruct sy; [discriminate|].
      split; [reflexivity|]. split; [cbn [scaled_ratio SFdiv SFmul hundred SFval]; lra|discriminate].
  - destruct sx; discriminate.
  - discriminate.
  - destruct sx; [discriminate|].
    destruct y as [sy|sy| |sy my ey]; try discriminate.
    + destruct sy; [discriminate|].
      split; [reflexivity|]. split; [cbn [scaled_ratio SFdiv SFmul hundred SFval]; lra|discriminate].
    + destruct sy; [discriminate|].
      destruct (scaled_ratio_unit mx ex my ey (SFleb_values _ _ _ _ Hvx Hvy Hle))
        as (Hf & Hv & Heq).
      split; [exact Hf|]. split; [exact Hv|].
      intros [= -> ->]. apply Heq. reflexivity.
Qed.

End PercentRange.

(** X16. For a finite usage between 0 and a positive total,
    [compute_percent] returns, and what it returns is a percentage
    between 0 and 100: neither the division nor the multiplication by
    100 can push the rounded value above 100 or make it overflow. *)
Theorem compute_percent_in_range (used total : float) :
  PrimFloat.leb 0 used = true -> PrimFloat.leb used total = true ->
  PrimFloat.leb total 0 = false -> PrimFloat.ltb used infinity = true ->
  exists p, compute_percent used total = Returns (Some p) /\ 0 <= p <= 100.
Proof.
  intros H0 Hle Htot Hfin.
  pose proof Htot as Htot'.
  rewrite leb_spec in H0, Hle, Htot'. rewrite ltb_spec in Hfin.
  destruct (scaled_ratio_range _ _ (Prim2SF_valid used) (Prim2SF_valid total)
              H0 Hle Htot' Hfin) as (Hf & Hv & _).
  apply compute_percent_floor; assumption.
Qed.

Lemma compute_percent_in_range_witness :
  exists p, compute_percent 57 100 = Returns (Some p) /\ 0 <= p <= 100.
Proof. apply (compute_percent_in_range 57 100); reflexivity. Defined.

(** X17. A resource used in full reads as exactly 100 percent, for every
    finite positive total: [x / x] is 1 and [1 * 100] is 100 without
    rounding error.  So a resource used in full or beyond reads as at
    least 100 and is critical under any critical threshold up to 100
    (the default is 100). *)
Theorem compute_percent_full (total : float) :
  PrimFloat.leb total 0 = false -> PrimFloat.ltb total infinity = true ->
  compute_percent total total = Returns (Some 100) /\
  (forall (used : float) (p warn critical : Z),
      PrimFloat.leb total used = true ->
      compute_percent used total = Returns (Some p) -> critical <= 100 ->
      100 <= p /\ classify_level (Some p) warn critical = Some "critical").
Proof.
  intros Htot Hfin.
  assert (Hfull : compute_percent total total = Returns (Some 100)).
  { pose proof Htot as Htot'.
    rewrite leb_spec in Htot'. rewrite ltb_spec in Hfin.
    change (Prim2SF 0) with (S754_zero false) in Htot'.
    assert (Hpos : exists m e, Prim2SF total = S754_finite false m e).
    { change (Prim2SF infinity) with (S754_infinity false) in Hfin.
      destruct (Prim2SF total) as [s|s| |s m e]; try discriminate.
      - destruct s; discriminate.
      - destruct s; [discriminate|]. eauto. }
    destruct Hpos as (m & e & Hpos).
    assert (H0 : SFleb (S754_zero false) (Prim2SF total) = true)
      by (rewrite Hpos; reflexivity).
    assert (Hle : SFleb (Prim2SF total) (Prim2SF total) = true).
    { rewrite Hpos. unfold SFleb, SFcompare. rewrite Z.compare_refl.
      change (Pos.compare_cont Eq m m) with (Pos.compare m m).
      rewrite Pos.compare_refl. reflexivity. }
    destruct (scaled_ratio_range _ _ (Prim2SF_valid total) (Prim2SF_valid total)
                H0 Hle Htot' Hfin) as (Hf & _ & Hv).
    specialize (Hv eq_refl).
    destruct (compute_percent_floor total total 100 100 Htot Hf) as [p [Hp Hr]];
      [rewrite Hv; split; apply Rle_refl|].
    rewrite Hp. do 2 f_equal. lia. }
  split; [exact Hfull|].
  intros used p warn critical Hle Hp Hc.
  pose proof (compute_percent_monotone total used total 100 p Hle Hfull Hp) as H100.
  split; [exact H100|]. unfold classify_level.
  destruct (Z.leb_spec critical p); [reflexivity|lia].
Qed.

Lemma compute_percent_full_witness :
  compute_percent 0x1.3f9999999999ap+6 0x1.3f9999999999ap+6 = Returns (Some 100) /\
  (forall (used : float) (p warn critical : Z),
      PrimFloat.leb 0x1.3f9999999999ap+6 used = true ->
      compute_percent used 0x1.3f9999999999ap+6 = Returns (Some p) -> critical <= 100 ->
      100 <= p /\ classify_level (Some p) warn critical = Some "critical").
Proof. apply compute_percent_full; reflexivity. Defined.

(** * Usage that is not a number *)

Lemma SFleb_false_SFeqb (x y : spec_float) : SFleb x y = false -> SFeqb x y = false.
Proof.
  unfold SFleb, SFeqb. destruct (SFcompare x y) as [[| |]|]; intros; congruence.
Qed.

Lemma positive_total_truthy (total : float) :
  PrimFloat.leb total 0 = false -> truthy (JFloat total) = true.
Proof.
  intros Htot. cbn [truthy]. rewrite FloatAxioms.eqb_spec. rewrite FloatAxioms.leb_spec in Htot.
  rewrite (SFleb_false_SFeqb _ _ Htot). reflexivity.
Qed.

Lemma nan_truthy (used : float) : Prim2SF used = S754_nan -> truthy (JFloat used) = true.
Proof. intros Hnan. cbn [truthy]. rewrite FloatAxioms.eqb_spec, Hnan. reflexivity. Qed.

Lemma compute_percent_nan (used total : float) :
  Prim2SF used = S754_nan -> PrimFloat.leb total 0 = false ->
  compute_percent used total = Raises ValueError.
Proof.
  intros Hnan Htot. unfold compute_percent, math_floor. rewrite Htot.
  rewrite Prim2SF_scaled_ratio, Hnan. reflexivity.
Qed.

(** X18. A usage that is not a number is not contained: when the disk
    usage of a VM is a NaN over a positive total, [compute_percent]
    raises [ValueError], the loop body sends and writes nothing for that
    VM, and the loop over the profile's VMs ends there: the VMs after it
    are not looked at, whatever they report. *)
Theorem sweep_stops_at_nan_usage `{PyBuiltins} (s : alert_settings) (user_id profile_id : Z)
    (fetch : string -> option pydict) (v : pydict) (rest : list pydict)
    (log : list message) (db : alert_db) (info : pydict) (used total : float) :
  vid_of v <> "" -> fetch (vid_of v) = Some info ->
  extract_disk_usage info = (Some used, Some total) ->
  Prim2SF used = S754_nan -> PrimFloat.leb total 0 = false ->
  compute_percent used total = Raises ValueError /\
  alert_vm s user_id profile_id (vid_of v) info db = Raises ValueError /\
  alert_vps_list s user_id profile_id fetch (v :: rest) log db = (log, db, Some ValueError).
Proof.
  intros Hid Hfetch Husage Hnan Htot.
  pose proof (compute_percent_nan used total Hnan Htot) as Hraise.
  assert (Hvm : alert_vm s user_id profile_id (vid_of v) info db = Raises ValueError).
  { unfold alert_vm. rewrite Husage. unfold usage_percent at 1. unfold opt_truthy.
    rewrite (nan_truthy used Hnan), (positive_total_truthy total Htot). cbn [andb].
    rewrite Hraise. reflexivity. }
  split; [exact Hraise|]. split; [exact Hvm|].
  cbn [alert_vps_list]. apply String.eqb_neq in Hid. rewrite Hid, Hfetch, Hvm. reflexivity.
Qed.

Lemma sweep_stops_at_nan_usage_witness :
  compute_percent nan 50 = Raises ValueError /\
  @alert_vm plain_builtins default_settings 7 1 (@vid_of plain_builtins [("vpsid", JStr "101")])
     [("disk_used", JFloat nan); ("disk", JFloat 50)] ∅ = Raises ValueError /\
  @alert_vps_list plain_builtins default_settings 7 1
     (fun _ => Some [("disk_used", JFloat nan); ("disk", JFloat 50)])
     ([("vpsid", JStr "101")] :: scenario_E_list) [] ∅ = ([], ∅, Some ValueError).
Proof.
  apply (@sweep_stops_at_nan_usage plain_builtins default_settings 7 1
           (fun _ => Some [("disk_used", JFloat nan); ("disk", JFloat 50)])
           [("vpsid", JStr "101")] scenario_E_list [] ∅
           [("disk_used", JFloat nan); ("disk", JFloat 50)] nan 50).
  - vm_compute. discriminate.
  - reflexivity.
  - reflexivity.
  - reflexivity.
  - reflexivity.
Defined.

(** * No total, no percentage *)

(** X19. When none of the four aliases of the total holds a truthy value
    (absent, [None], zero, empty), the percentage is unknown and nothing
    is raised: no division by zero is ever attempted.  The same holds
    for a total that is present but not above zero. *)
Theorem zero_total_is_unknown `{PyBuiltins} (info : pydict) :
  (truthy (get info "disk") = false -> truthy (get info "vps_disk") = false ->
   truthy (get info "hdd") = false -> truthy (get info "total_hdd") = false ->
   usage_percent (extract_disk_usage info) = Returns None) /\
  (truthy (get info "bandwidth") = false -> truthy (get info "bw") = false ->
   truthy (get info "total_bandwidth") = false -> truthy (get info "total_bw") = false ->
   usage_percent (extract_bw_usage info) = Returns None) /\
  (forall used total, PrimFloat.leb total 0 = true ->
     usage_percent (Some used, Some total) = Returns None).
Proof.
  assert (Hpair : forall used total, truthy total = false ->
            usage_percent (float_pair used total) = Returns None).
  { intros used total Ht. unfold float_pair.
    destruct (py_float used) as [u|]; [|reflexivity].
    destruct (py_float total) as [t|] eqn:Et; [|reflexivity].
    unfold usage_percent, opt_truthy.
    rewrite (py_float_falsy total t Ht Et), andb_false_r. reflexivity. }
  split; [|split].
  - intros H1 H2 H3 H4. unfold extract_disk_usage. apply Hpair.
    rewrite (first_truthy_falsy _ _ _ _ _ H1 H2 H3). exact H4.
  - intros H1 H2 H3 H4. unfold extract_bw_usage. apply Hpair.
    rewrite (first_truthy_falsy _ _ _ _ _ H1 H2 H3). exact H4.
  - intros used total Htot. unfold usage_percent, compute_percent. rewrite Htot.
    destruct (opt_truthy (Some used) && opt_truthy (Some total)); reflexivity.
Qed.

(** * More usage, never a lower level *)

(** X20. With thresholds fixed, more usage of the same total never gives
    a less severe level: the rounding of the two floating-point
    operations cannot make the classification go backwards. *)
Theorem usage_level_monotone (used1 used2 total : float) (warn critical p1 p2 : Z) :
  PrimFloat.leb used1 used2 = true ->
  compute_percent used1 total = Returns (Some p1) ->
  compute_percent used2 total = Returns (Some p2) ->
  severity (classify_level (Some p1) warn critical) <=
  severity (classify_level (Some p2) warn critical).
Proof.
  intros Hle H1 H2.
  pose proof (compute_percent_monotone used1 used2 total p1 p2 Hle H1 H2) as Hp.
  unfold classify_level.
  destruct (Z.leb_spec critical p1), (Z.leb_spec critical p2),
           (Z.leb_spec warn p1), (Z.leb_spec warn p2); cbn; lia.
Qed.

Lemma usage_level_monotone_witness :
  severity (classify_level (Some 79) 80 100) <= severity (classify_level (Some 80) 80 100).
Proof.
  apply (usage_level_monotone 0x1.3f9999999999ap+6 80 100 80 100 79 80);
    vm_compute; reflexivity.
Defined.

(** * Integers through [to_int] *)

Section IntegerRoundTrip.

Lemma iter_xO_value (k m : positive) :
  Z.pos (Pos.iter xO m k) = Z.pos m * 2 ^ Z.pos k.
Proof.
  induction k as [|k IH] using Pos.peano_ind.
  - cbn [Pos.iter]. lia.
  - rewrite Pos.iter_succ, Pos2Z.inj_xO, IH, Pos2Z.inj_succ, Z.pow_succ_r by lia. lia.
Qed.

Lemma iter_xO_digits (k m : positive) :
  digits2_pos (Pos.iter xO m k) = (digits2_pos m + k)%positive.
Proof.
  induction k as [|k IH] using Pos.peano_ind.
  - cbn [Pos.iter digits2_pos]. lia.
  - rewrite Pos.iter_succ. cbn [digits2_pos]. rewrite IH. lia.
Qed.

Lemma digits_below_2_53 (m : positive) :
  Z.pos m < 2 ^ 53 -> Z.pos (digits2_pos m) <= 53.
Proof.
  intros Hm. pose proof (digits2_pos_bounds m) as [Hlo _].
  apply Z.le_ngt. intros Hd.
  assert (2 ^ 53 <= 2 ^ (Z.pos (digits2_pos m) - 1)) by (apply Z.pow_le_mono_r; lia).
  lia.
Qed.

(** The alignment that precedes the rounding of an integer below 2^53:
    the mantissa is shifted up to 53 digits, so nothing is rounded off. *)
Lemma shl_align_small (m : positive) :
  Z.pos m < 2 ^ 53 ->
  exists (mz : positive) (k : Z),
    shl_align m 0 (fexp prec emax (Z.pos (digits2_pos m) + 0)) = (mz, - k) /\
    0 <= k <= 52 /\
    Z.pos mz = Z.pos m * 2 ^ k /\
    Z.pos (digits2_pos mz) = 53.
Proof.
  intros Hm. pose proof (digits_below_2_53 m Hm) as Hd.
  rewrite fexp_eq. unfold shl_align.
  destruct (Z.eq_dec (Z.pos (digits2_pos m)) 53) as [Heq|Hne].
  - exists m, 0. rewrite Heq. cbn. repeat split; lia.
  - destruct (Z.max (Z.pos (digits2_pos m) + 0 - 53) (-1074) - 0) as [|q|q] eqn:E; try lia.
    exists (Pos.iter xO m q), (Z.pos q).
    split; [f_equal; lia|]. split; [lia|].
    split; [apply iter_xO_value|].
    rewrite iter_xO_digits. lia.
Qed.

Lemma round_mag_aligned (mz : positive) (k : Z) :
  0 <= k <= 52 -> Z.pos (digits2_pos mz) = 53 ->
  round_mag (Z.pos mz) (- k) loc_Exact = (Z.pos mz, - k).
Proof.
  intros Hk Hd. unfold round_mag, shr_fexp.
  cbn [Zdigits2]. rewrite Hd, fexp_eq.
  replace (Z.max (53 + - k - 53) (-1074) - - k) with 0 by lia.
  cbn [shr shr_record_of_loc shr_m loc_of_shr_record round_nearest_even Zdigits2].
  rewrite Hd, fexp_eq.
  replace (Z.max (53 + - k - 53) (-1074) - - k) with 0 by lia.
  reflexivity.
Qed.

Lemma binary_round_small (s : bool) (m : positive) :
  Z.pos m < 2 ^ 53 ->
  exists (mz : positive) (k : Z),
    binary_round prec emax s m 0 = S754_finite s mz (- k) /\
    0 <= k <= 52 /\ Z.pos mz = Z.pos m * 2 ^ k /\
    valid_binary (S754_finite s mz (- k)) = true.
Proof.
  intros Hm. destruct (shl_align_small m Hm) as (mz & k & Halign & Hk & Hval & Hd).
  exists mz, k. unfold binary_round. rewrite Halign.
  rewrite binary_round_aux_mag, (round_mag_aligned mz k Hk Hd). cbn [fst snd].
  assert (Hle : Z.leb (- k) (Z.sub emax prec) = true) by (apply Z.leb_le; vm_compute Z.sub; lia).
  split; [|split; [exact Hk|split; [exact Hval|]]].
  - match goal with
    | |- (if ?c then _ else _) = _ => replace c with true by (symmetry; exact Hle)
    end.
    reflexivity.
  - cbn [valid_binary]. unfold SpecFloat.bounded, SpecFloat.canonical_mantissa.
    rewrite Hd, fexp_eq.
    apply andb_true_intro. split; [apply Z.eqb_eq; lia|exact Hle].
Qed.

Lemma trunc_scaled_aligned (s : bool) (m mz : positive) (k : Z) :
  0 <= k -> Z.pos mz = Z.pos m * 2 ^ k ->
  trunc_scaled (signed s mz) (- k) = signed s m.
Proof.
  intros Hk Hval. unfold trunc_scaled.
  assert (Hs : signed s mz = signed s m * 2 ^ k).
  { destruct s; unfold signed; [|exact Hval].
    change (Z.neg mz) with (- Z.pos mz). change (Z.neg m) with (- Z.pos m). lia. }
  rewrite Hs. destruct (Z.leb_spec 0 (- k)) as [H0|H0].
  - assert (Hk0 : k = 0) by lia. subst k. cbn [Z.opp]. change (2 ^ 0) with 1. lia.
  - rewrite Z.opp_involutive. apply Z.quot_mul.
    apply Z.pow_nonzero; lia.
Qed.

Lemma float_of_Z_int_of_float (z : Z) :
  - 2 ^ 53 < z < 2 ^ 53 ->
  exists f, float_of_Z z = Returns f /\ int_of_float f = Returns z.
Proof.
  intros Hz. unfold float_of_Z, binary_normalize.
  destruct z as [|m|m].
  - exists (SF2Prim (S754_zero false)). split; [reflexivity|].
    unfold int_of_float. rewrite Prim2SF_SF2Prim by reflexivity. reflexivity.
  - destruct (binary_round_small false m ltac:(lia)) as (mz & k & -> & Hk & Hval & Hvalid).
    exists (SF2Prim (S754_finite false mz (- k))). split; [reflexivity|].
    unfold int_of_float. rewrite Prim2SF_SF2Prim by exact Hvalid.
    rewrite (trunc_scaled_aligned false m mz k) by (lia || exact Hval). reflexivity.
  - destruct (binary_round_small true m ltac:(lia)) as (mz & k & -> & Hk & Hval & Hvalid).
    exists (SF2Prim (S754_finite true mz (- k))). split; [reflexivity|].
    unfold int_of_float. rewrite Prim2SF_SF2Prim by exact Hvalid.
    rewrite (trunc_scaled_aligned true m mz k) by (lia || exact Hval). reflexivity.
Qed.

End IntegerRoundTrip.

(** X21. [to_int] gives back every integer below 2^53 in magnitude
    unchanged, although it goes through a float; it maps [True] and
    [False] to 1 and 0, and answers with the default for [None], the
    empty string and containers.  So a non-zero integer "suspended" flag
    of a detail is observed as it is. *)
Theorem to_int_exact `{PyBuiltins} (z default : Z) :
  - 2 ^ 53 < z < 2 ^ 53 ->
  to_int (JInt z) default = z /\
  (forall b : bool, to_int (JBool b) default = if b then 1 else 0) /\
  to_int JNull default = default /\
  to_int (JStr "") default = default /\
  (forall l, to_int (JList l) default = default) /\
  (forall d, to_int (JDict d) default = default) /\
  (forall info, get info "suspended" = JInt z -> z <> 0 -> observed_suspended info = z).
Proof.
  intros Hz.
  assert (Hint : forall d, to_int (JInt z) d = z).
  { intros d. unfold to_int. cbn [py_float].
    destruct (float_of_Z_int_of_float z Hz) as (f & -> & ->). reflexivity. }
  split; [apply Hint|]. split; [intros [|]; vm_compute; reflexivity|].
  repeat (split; [reflexivity|]).
  intros info Hget Hnz. unfold observed_suspended. rewrite Hget.
  unfold py_or at 2. cbn [truthy]. apply Z.eqb_neq in Hnz. rewrite Hnz. cbn [negb].
  unfold py_or. cbn [truthy]. rewrite Hnz. cbn [negb]. apply Hint.
Qed.

Lemma to_int_exact_witness :
  @to_int plain_builtins (JInt 1) 0 = 1 /\
  (forall b : bool, @to_int plain_builtins (JBool b) 0 = if b then 1 else 0) /\
  @to_int plain_builtins JNull 0 = 0 /\
  @to_int plain_builtins (JStr "") 0 = 0 /\
  (forall l, @to_int plain_builtins (JList l) 0 = 0) /\
  (forall d, @to_int plain_builtins (JDict d) 0 = 0) /\
  (forall info, get info "suspended" = JInt 1 -> 1 <> 0 ->
                @observed_suspended plain_builtins info = 1).
Proof. apply (@to_int_exact plain_builtins 1 0). lia. Defined.

(** * A second sweep *)

Section SecondSweep.
Context `{PyBuiltins}.

(** The loop body reads the table through the row of its own VM only. *)
Lemma alert_vm_settled (s : alert_settings) (user_id profile_id : Z) (vps_id : string)
    (info : pydict) (db db1 dbx : alert_db) (msgs : list message) :
  alert_vm s user_id profile_id vps_id info db = Returns (msgs, db1) ->
  dbx !! (user_id, profile_id, vps_id) = db1 !! (user_id, profile_id, vps_id) ->
  alert_vm s user_id profile_id vps_id info dbx = Returns ([], dbx).
Proof.
  intros Hrun Hrow.
  destruct (alert_vm_returns _ _ _ _ _ _ _ _ Hrun)
    as (disk_pct & bw_pct & name & ip & Hd & Hb & Hdb & _).
  cbv zeta in Hdb.
  assert (Hx : dbx !! (user_id, profile_id, vps_id) =
               Some {| last_disk_level := classify_level disk_pct (disk_warn s) (disk_critical s);
                       last_bw_level := classify_level bw_pct (bw_warn s) (bw_critical s);
                       last_suspend := Some (observed_suspended info) |}).
  { rewrite Hrow, Hdb. unfold set_alert_state. apply lookup_insert_eq. }
  unfold alert_vm. rewrite Hd, Hb. cbv zeta.
  unfold get_alert_state. rewrite Hx.
  cbn [last_disk_level last_bw_level last_suspend].
  rewrite !level_changed_same.
  assert (Hflag : forall z : Z, ((z =? 1)%Z && (z =? 0)%Z = false) /\
                                ((z =? 0)%Z && (z =? 1)%Z = false)).
  { intros z. destruct (Z.eqb_spec z 1), (Z.eqb_spec z 0); split; try reflexivity; lia. }
  destruct (Hflag (observed_suspended info)) as [-> ->].
  unfold set_alert_state. rewrite (insert_id _ _ _ Hx).
  destruct (suspend_alerts s); reflexivity.
Qed.

Lemma identified_cons (v : pydict) (rest : list pydict) :
  identified (v :: rest) =
  if String.eqb (vid_of v) "" then identified rest else vid_of v :: identified rest.
Proof.
  unfold identified. cbn [map List.filter].
  destruct (String.eqb (vid_of v) ""); reflexivity.
Qed.

Lemma identified_elem (v : pydict) (vps_list : list pydict) :
  v ∈ vps_list -> vid_of v <> "" -> vid_of v ∈ identified vps_list.
Proof.
  intros Hin Hid. unfold identified. apply list_elem_of_In, List.filter_In. split.
  - apply List.in_map. apply list_elem_of_In. exact Hin.
  - apply String.eqb_neq in Hid. rewrite Hid. reflexivity.
Qed.

Lemma second_sweep (s : alert_settings) (user_id profile_id : Z)
    (fetch : string -> option pydict) (vps_list : list pydict) :
  NoDup (identified vps_list) ->
  forall (log : list message) (db : alert_db) (log' : list message) (db' : alert_db)
         (log2 : list message) (dbx : alert_db),
    alert_vps_list s user_id profile_id fetch vps_list log db = (log', db', None) ->
    (forall v, v ∈ vps_list -> vid_of v <> "" ->
               dbx !! (user_id, profile_id, vid_of v) = db' !! (user_id, profile_id, vid_of v)) ->
    alert_vps_list s user_id profile_id fetch vps_list log2 dbx = (log2, dbx, None).
Proof.
  induction vps_list as [|v rest IH]; intros Hnd log db log' db' log2 dbx Hrun Hagree;
    [reflexivity|].
  cbn [alert_vps_list] in Hrun |- *. rewrite identified_cons in Hnd.
  assert (Hrest : forall v0, v0 ∈ rest -> vid_of v0 <> "" ->
            dbx !! (user_id, profile_id, vid_of v0) = db' !! (user_id, profile_id, vid_of v0)).
  { intros v0 Hv0. apply Hagree. right. exact Hv0. }
  destruct (String.eqb_spec (vid_of v) "") as [Hempty|Hid];
    [eapply IH; eassumption|].
  apply NoDup_cons in Hnd as [Hfresh Hnd].
  destruct (fetch (vid_of v)) as [info|] eqn:Hfetch; [|eapply IH; eassumption].
  destruct (alert_vm s user_id profile_id (vid_of v) info db) as [[msgs db1]|exn] eqn:Hvm;
    [|discriminate Hrun].
  assert (Hrow : dbx !! (user_id, profile_id, vid_of v) = db1 !! (user_id, profile_id, vid_of v)).
  { rewrite (Hagree v (list_elem_of_here _ _) Hid).
    apply (proj2 (alert_vps_list_writes _ _ _ _ _ _ _ _ _ _ Hrun)).
    intros v0 Hv0 Hid0 _ [= Heq]. apply Hfresh. rewrite Heq.
    apply identified_elem; assumption. }
  rewrite (alert_vm_settled _ _ _ _ _ _ _ _ _ Hvm Hrow), app_nil_r.
  eapply IH; eassumption.
Qed.

End SecondSweep.

(** X22. When the VMs of a list have pairwise distinct identifiers and a
    sweep over them has run to its end, a second sweep over the same
    details sends nothing and leaves the table as it is: every
    notification is sent once. *)
Theorem second_sweep_silent `{PyBuiltins} (s : alert_settings) (user_id profile_id : Z)
    (fetch : string -> option pydict) (vps_list : list pydict)
    (log : list message) (db : alert_db) (log' : list message) (db' : alert_db)
    (log2 : list message) :
  NoDup (identified vps_list) ->
  alert_vps_list s user_id profile_id fetch vps_list log db = (log', db', None) ->
  alert_vps_list s user_id profile_id fetch vps_list log2 db' = (log2, db', None).
Proof.
  intros Hnd Hrun. eapply second_sweep; [exact Hnd|exact Hrun|reflexivity].
Qed.

Lemma second_sweep_silent_witness :
  @alert_vps_list plain_builtins default_settings 7 1 scenario_E_fetch scenario_E_list []
     (set_alert_state scenario_B_db 7 1 "101" (Some "critical") None (Some 0)) =
  ([], set_alert_state scenario_B_db 7 1 "101" (Some "critical") None (Some 0), None).
Proof.
  apply (@second_sweep_silent plain_builtins default_settings 7 1 scenario_E_fetch
           scenario_E_list [] scenario_B_db
           [DiskAlert "critical" (JStr "VPS 101") (JStr "-") (Some 100)]).
  - vm_compute. repeat constructor; rewrite ?elem_of_cons, ?elem_of_nil; intuition discriminate.
  - vm_compute. reflexivity.
Defined.

(** * The listing of profiles *)

Lemma insert_desc_elem (kv x : Z * profile_row) (l : list (Z * profile_row)) :
  x ∈ insert_desc kv l <-> x = kv \/ x ∈ l.
Proof.
  induction l as [|y l IH]; cbn [insert_desc].
  - rewrite elem_of_cons. reflexivity.
  - destruct (fst y <=? fst kv)%Z.
    + rewrite elem_of_cons. reflexivity.
    + rewrite !elem_of_cons, IH. tauto.
Qed.

Lemma sort_desc_elem (x : Z * profile_row) (l : list (Z * profile_row)) :
  x ∈ sort_desc l <-> x ∈ l.
Proof.
  induction l as [|y l IH]; cbn [sort_desc fold_right]; [reflexivity|].
  change (fold_right insert_desc [] l) with (sort_desc l). rewrite insert_desc_elem, elem_of_cons, IH. reflexivity.
Qed.

Lemma insert_desc_decreasing (kv : Z * profile_row) (l : list (Z * profile_row)) :
  (forall x, x ∈ l -> fst x <> fst kv) ->
  decreasing (map fst l) -> decreasing (map fst (insert_desc kv l)).
Proof.
  induction l as [|y l IH]; intros Hfresh Hdec; cbn [insert_desc map decreasing]; [auto|].
  assert (Hy : fst y <> fst kv) by (apply Hfresh; left).
  destruct (Z.leb_spec (fst y) (fst kv)) as [Hle|Hgt].
  - cbn [map decreasing]. split; [lia|exact Hdec].
  - cbn [map decreasing] in Hdec |- *. destruct Hdec as [Hhd Htl].
    split.
    + destruct l as [|z l]; cbn [insert_desc map]; [lia|].
      destruct (fst z <=? fst kv)%Z; cbn [map]; [lia|exact Hhd].
    + apply IH; [|exact Htl]. intros x Hx. apply Hfresh. right. exact Hx.
Qed.

Lemma sort_desc_decreasing (l : list (Z * profile_row)) :
  NoDup (map fst l) -> decreasing (map fst (sort_desc l)).
Proof.
  induction l as [|y l IH]; intros Hnd; cbn [sort_desc fold_right]; [exact I|].
  change (fold_right insert_desc [] l) with (sort_desc l). cbn [map] in Hnd. apply NoDup_cons in Hnd as [Hfresh Hnd].
  apply insert_desc_decreasing; [|apply IH; exact Hnd].
  intros x Hx Heq. apply Hfresh. rewrite <- Heq.
  apply (proj1 (sort_desc_elem _ _)) in Hx. apply elem_of_map. exists x. split; [reflexivity|exact Hx].
Qed.

Lemma NoDup_map_filter {A B : Type} (f : A -> B) (p : A -> bool) (l : list A) :
  NoDup (map f l) -> NoDup (map f (List.filter p l)).
Proof.
  induction l as [|x l IH]; cbn [map List.filter]; intros Hnd; [constructor|].
  apply NoDup_cons in Hnd as [Hfresh Hnd].
  destruct (p x); [|apply IH; exact Hnd].
  cbn [map]. apply NoDup_cons. split; [|apply IH; exact Hnd].
  intros Hin. apply Hfresh.
  apply elem_of_map in Hin as [y [Hy Hin]]. apply elem_of_map. exists y. split; [exact Hy|].
  apply list_elem_of_In in Hin. apply List.filter_In in Hin as [Hin _].
  apply list_elem_of_In. exact Hin.
Qed.

Lemma list_profiles_elem (t : profiles_table) (user_id : Z) (e : profile_entry) :
  e ∈ list_profiles t user_id <->
  exists r, t !! e_id e = Some r /\ c_user_id r = user_id /\ e = entry_of (e_id e, r).
Proof.
  unfold list_profiles. rewrite elem_of_map. split.
  - intros [[i r] [-> Hin]]. apply (proj1 (sort_desc_elem _ _)) in Hin.
    apply list_elem_of_In, List.filter_In in Hin as [Hin Hu]. cbn [snd] in Hu.
    apply list_elem_of_In, elem_of_map_to_list in Hin.
    exists r. cbn [entry_of e_id fst]. split; [exact Hin|]. split; [lia|reflexivity].
  - intros (r & Hr & Hu & He). exists (e_id e, r). split; [exact He|].
    apply sort_desc_elem, list_elem_of_In, List.filter_In. split.
    + apply list_elem_of_In, elem_of_map_to_list. exact Hr.
    + cbn [snd]. lia.
Qed.

(** X23. [list_profiles] lists exactly the profiles of the asking user,
    each once, with strictly decreasing ids (newest first); an entry
    carries id, title, panel URL and SSL switch but no credentials, and
    every listed id is one [get_profile] answers for the same user with
    the same title, URL and switch. *)
Theorem list_profiles_own_newest_first (t : profiles_table) (user_id : Z) :
  (forall e, e ∈ list_profiles t user_id <->
             exists r, t !! e_id e = Some r /\ c_user_id r = user_id /\
                       e = entry_of (e_id e, r)) /\
  decreasing (map e_id (list_profiles t user_id)) /\
  (forall e, e ∈ list_profiles t user_id ->
             exists p, get_profile t user_id (e_id e) = Some p /\
                       p_id p = e_id e /\ p_title p = e_title e /\
                       p_panel_url p = e_panel_url e /\
                       p_verify_ssl p = e_verify_ssl e) /\
  (forall user_id' e, user_id' <> user_id -> e ∈ list_profiles t user_id ->
                      get_profile t user_id' (e_id e) = None).
Proof.
  split; [apply list_profiles_elem|]. split; [|split].
  - unfold list_profiles. rewrite List.map_map. cbn [entry_of e_id].
    apply sort_desc_decreasing. apply NoDup_map_filter.
    pose proof (NoDup_fst_map_to_list t) as Hnd.
    replace (map fst (map_to_list t)) with ((map_to_list t).*1); [exact Hnd|].
    reflexivity.
  - intros e He. apply list_profiles_elem in He as (r & Hr & Hu & He).
    unfold get_profile. rewrite Hr.
    destruct (Z.eqb_spec (c_user_id r) user_id) as [_|Hne]; [|contradiction].
    eexists. split; [reflexivity|].
    cbn [p_id p_title p_panel_url p_verify_ssl].
    destruct e as [i ti pu vs]. cbn [e_id e_title e_panel_url e_verify_ssl] in *.
    injection He as -> -> ->. auto.
  - intros user_id' e Hu He. apply list_profiles_elem in He as (r & Hr & Hown & _).
    unfold get_profile. rewrite Hr.
    destruct (Z.eqb_spec (c_user_id r) user_id'); [congruence|reflexivity].
Qed.

(** * One pass over all users *)

Section PassFacts.
Context `{PyBuiltins}.

Lemma get_profile_id (t : profiles_table) (user_id profile_id : Z) (p : profile) :
  get_profile t user_id profile_id = Some p -> p_id p = profile_id.
Proof.
  unfold get_profile. destruct (t !! profile_id) as [r|]; [|discriminate].
  destruct (c_user_id r =? user_id)%Z; [|discriminate].
  intros [= <-]. reflexivity.
Qed.

(** The rows the loop over one user's profiles can change: those of this
    user under a profile of theirs. *)
Lemma alert_profiles_writes (net : panel) (t : profiles_table) (s : alert_settings)
    (user_id : Z) (entries : list profile_entry) :
  forall (log : list message) (db : alert_db)
         (log' : list message) (db' : alert_db) (e : option pyexn),
    alert_profiles net t s user_id entries log db = (log', db', e) ->
    (exists new, log' = log ++ new) /\
    (forall user_id' profile_id vps_id,
        user_id' <> user_id \/ get_profile t user_id profile_id = None ->
        db' !! (user_id', profile_id, vps_id) = db !! (user_id', profile_id, vps_id)).
Proof.
  induction entries as [|pr rest IH]; intros log db log' db' e Hrun;
    cbn [alert_profiles] in Hrun.
  - injection Hrun as <- <- _. split; [exists []; rewrite app_nil_r; reflexivity|auto].
  - destruct (get_profile t user_id (e_id pr)) as [p|] eqn:Hp; [|apply IH in Hrun; exact Hrun].
    destruct (list_body net p) as [body|]; [|apply IH in Hrun; exact Hrun].
    destruct (alert_vps_list s user_id (p_id p) (fetch_details net p)
                (pick_vps_list (wrap_response body)) log db) as [[log1 db1] e1] eqn:Hsweep.
    destruct (alert_vps_list_writes _ _ _ _ _ _ _ _ _ _ Hsweep) as [[new1 Hlog1] Hdb1].
    assert (Hframe : forall user_id' profile_id vps_id,
               user_id' <> user_id \/ get_profile t user_id profile_id = None ->
               db1 !! (user_id', profile_id, vps_id) = db !! (user_id', profile_id, vps_id)).
    { intros user_id' profile_id vps_id Hother. apply Hdb1.
      intros v _ _ _ [= Hu Hpid _]. destruct Hother as [Hne|Hnone]; [congruence|].
      rewrite (get_profile_id _ _ _ _ Hp) in Hpid. congruence. }
    destruct e1 as [exn|].
    + injection Hrun as <- <- _. split; [exists new1; exact Hlog1|exact Hframe].
    + destruct (IH _ _ _ _ _ Hrun) as [[new Hlog] Hdb]. split.
      * exists (new1 ++ new). rewrite Hlog, Hlog1, app_assoc. reflexivity.
      * intros user_id' profile_id vps_id Hother.
        rewrite (Hdb _ _ _ Hother). apply Hframe. exact Hother.
Qed.

Lemma get_alert_settings_stable (st : settings_table) (user_id user_id' : Z) :
  fst (get_alert_settings (snd (get_alert_settings st user_id')) user_id) =
  fst (get_alert_settings st user_id).
Proof.
  unfold get_alert_settings. cbn [fst snd]. rewrite !ensure_lookup.
  destruct (Z.eq_dec user_id user_id') as [->|Hne].
  - rewrite ensure_lookup. reflexivity.
  - rewrite ensure_other by exact Hne. reflexivity.
Qed.

End PassFacts.

(** X24. A pass of the alert loop serves each user from their own
    settings and profiles only.  Every message it sends goes to a user
    of the pass whose alerts are enabled; the alert state of a user who
    is not in the pass or has alerts disabled is not touched, nor is any
    row under a profile id the user does not own; and no settings row is
    created or changed for a user outside the pass.  This holds for
    passes that end normally and for passes ended by an exception. *)
Theorem alert_pass_isolation `{PyBuiltins} (net : panel) (t : profiles_table)
    (users : list Z) :
  forall (st : settings_table) (log : list (Z * message)) (db : alert_db)
         (st' : settings_table) (log' : list (Z * message)) (db' : alert_db)
         (e : option pyexn),
    alert_users net t users st log db = (st', log', db', e) ->
    (exists new,
        log' = log ++ new /\
        forall user_id m, (user_id, m) ∈ new ->
          user_id ∈ users /\ alerts_enabled (fst (get_alert_settings st user_id)) = true) /\
    (forall user_id profile_id vps_id,
        user_id ∉ users \/ alerts_enabled (fst (get_alert_settings st user_id)) = false \/
        get_profile t user_id profile_id = None ->
        db' !! (user_id, profile_id, vps_id) = db !! (user_id, profile_id, vps_id)) /\
    (forall user_id, user_id ∉ users -> st' !! user_id = st !! user_id).
Proof.
  induction users as [|u0 rest IH]; intros st log db st' log' db' e Hrun;
    cbn [alert_users] in Hrun.
  - injection Hrun as <- <- <- _.
    split; [exists []; split; [rewrite app_nil_r; reflexivity|intros ? ? Hin; inversion Hin]|].
    split; auto.
  - destruct (get_alert_settings st u0) as [s st1] eqn:Hget.
    assert (Hs : s = fst (get_alert_settings st u0)) by (rewrite Hget; reflexivity).
    assert (Hst1 : st1 = snd (get_alert_settings st u0)) by (rewrite Hget; reflexivity).
    assert (Hstable : forall u, fst (get_alert_settings st1 u) = fst (get_alert_settings st u)).
    { intros u. rewrite Hst1. apply get_alert_settings_stable. }
    assert (Hrow : forall u, u <> u0 -> st1 !! u = st !! u).
    { intros u Hu. rewrite Hst1. unfold get_alert_settings. cbn [snd].
      apply ensure_other. exact Hu. }
    assert (Htail : forall log1 db1,
              alert_users net t rest st1 log1 db1 = (st', log', db', e) ->
              (exists new,
                  log' = log1 ++ new /\
                  forall user_id m, (user_id, m) ∈ new ->
                    user_id ∈ u0 :: rest /\
                    alerts_enabled (fst (get_alert_settings st user_id)) = true) /\
              (forall user_id profile_id vps_id,
                  user_id ∉ u0 :: rest \/
                  alerts_enabled (fst (get_alert_settings st user_id)) = false \/
                  get_profile t user_id profile_id = None ->
                  db' !! (user_id, profile_id, vps_id) = db1 !! (user_id, profile_id, vps_id)) /\
              (forall user_id, user_id ∉ u0 :: rest -> st' !! user_id = st !! user_id)).
    { intros log1 db1 Hrest.
      destruct (IH _ _ _ _ _ _ _ Hrest) as ([new [Hlog Hnew]] & Hdb & Hst).
      split; [|split].
      - exists new. split; [exact Hlog|]. intros u m Hin.
        destruct (Hnew u m Hin) as [Hu Hen]. split; [right; exact Hu|].
        rewrite <- Hstable. exact Hen.
      - intros u pid vid Hcond. apply Hdb.
        destruct Hcond as [Hnot|[Hdis|Hnone]].
        + left. intros Hin. apply Hnot. right. exact Hin.
        + right. left. rewrite Hstable. exact Hdis.
        + right. right. exact Hnone.
      - intros u Hnot. rewrite Hst.
        + apply Hrow. intros ->. apply Hnot. left.
        + intros Hin. apply Hnot. right. exact Hin. }
    destruct (alerts_enabled s) eqn:Hen; cbn [negb] in Hrun; [|apply Htail; exact Hrun].
    destruct (alert_profiles net t s u0 (list_profiles t u0) [] db) as [[msgs db1] e1] eqn:Hprof.
    destruct (alert_profiles_writes _ _ _ _ _ _ _ _ _ _ Hprof) as [_ Hdb1].
    assert (Hframe : forall user_id profile_id vps_id,
               user_id ∉ u0 :: rest \/
               alerts_enabled (fst (get_alert_settings st user_id)) = false \/
               get_profile t user_id profile_id = None ->
               db1 !! (user_id, profile_id, vps_id) = db !! (user_id, profile_id, vps_id)).
    { intros u pid vid Hcond. apply Hdb1.
      destruct (Z.eq_dec u u0) as [->|Hne]; [|left; exact Hne].
      right. destruct Hcond as [Hnot|[Hdis|Hnone]].
      - exfalso. apply Hnot. left.
      - rewrite <- Hs, Hen in Hdis. discriminate.
      - exact Hnone. }
    assert (Hsent : forall user_id m, (user_id, m) ∈ map (pair u0) msgs ->
               user_id ∈ u0 :: rest /\
               alerts_enabled (fst (get_alert_settings st user_id)) = true).
    { intros u m Hin. apply elem_of_map in Hin as [m' [[= -> ->] _]].
      split; [left|]. rewrite <- Hs. exact Hen. }
    destruct e1 as [exn|].
    + injection Hrun as <- <- <- _. split; [|split].
      * exists (map (pair u0) msgs). split; [reflexivity|exact Hsent].
      * exact Hframe.
      * intros u Hnot. apply Hrow. intros ->. apply Hnot. left.
    + destruct (Htail _ _ Hrun) as ([new [Hlog Hnew]] & Hdb & Hst).
      split; [|split; [|exact Hst]].
      * exists (map (pair u0) msgs ++ new). split; [rewrite Hlog, app_assoc; reflexivity|].
        intros u m Hin. apply elem_of_app in Hin as [Hin|Hin]; [exact (Hsent u m Hin)|exact (Hnew u m Hin)].
      * intros u pid vid Hcond. rewrite (Hdb _ _ _ Hcond). apply Hframe. exact Hcond.
Qed.

Lemma alert_pass_isolation_witness :
  (exists new,
      [(8, DiskAlert "critical" (JStr "h") (JStr "-") (Some 100))] = [] ++ new /\
      forall user_id m, (user_id, m) ∈ new ->
        user_id ∈ [7; 8] /\
        alerts_enabled (fst (get_alert_settings ∅ user_id)) = true) /\
  (forall user_id profile_id vps_id,
      user_id ∉ [7; 8] \/ alerts_enabled (fst (get_alert_settings ∅ user_id)) = false \/
      get_profile scenario_F_profiles user_id profile_id = None ->
      set_alert_state (set_alert_state ∅ 7 1 "101" (Some "ok") None (Some 0))
                      8 2 "101" (Some "critical") None (Some 0)
        !! (user_id, profile_id, vps_id) = (∅ : alert_db) !! (user_id, profile_id, vps_id)) /\
  (forall user_id, user_id ∉ [7; 8] ->
      (<[8 := default_row]> (<[7 := default_row]> ∅) : settings_table) !! user_id =
      (∅ : settings_table) !! user_id).
Proof.
  apply (@alert_pass_isolation plain_builtins (scenario_F_panel (JInt 25)) scenario_F_profiles
           [7; 8] ∅ [] ∅ _ _ _ None).
  vm_compute. reflexivity.
Defined.

(** X25. An exception ends the pass for everyone after it: when a pass
    over [users] ends in an exception, the users split into those served
    before, whose part of the pass ended normally, the user at whom the
    exception was raised, and the users after; the outcome of the pass
    (settings, messages, alert states) is the outcome of serving that
    one user from where the users before left off.  The users after are
    not served in this pass, whatever their VMs report. *)
Theorem alert_pass_stops_at_exception `{PyBuiltins} (net : panel) (t : profiles_table)
    (users : list Z) :
  forall (st : settings_table) (log : list (Z * message)) (db : alert_db)
         (st' : settings_table) (log' : list (Z * message)) (db' : alert_db) (e : pyexn),
    alert_users net t users st log db = (st', log', db', Some e) ->
    exists before user_id after st1 log1 db1,
      users = before ++ user_id :: after /\
      alert_users net t before st log db = (st1, log1, db1, None) /\
      alert_users net t [user_id] st1 log1 db1 = (st', log', db', Some e).
Proof.
  induction users as [|u0 rest IH]; intros st log db st' log' db' e Hrun;
    cbn [alert_users] in Hrun; [discriminate|].
  destruct (get_alert_settings st u0) as [s st1] eqn:Hget.
  assert (Htail : forall log1 db1,
            alert_users net t rest st1 log1 db1 = (st', log', db', Some e) ->
            (forall us, alert_users net t (u0 :: us) st log db =
                        alert_users net t us st1 log1 db1) ->
            exists before user_id after sa la da,
              u0 :: rest = before ++ user_id :: after /\
              alert_users net t before st log db = (sa, la, da, None) /\
              alert_users net t [user_id] sa la da = (st', log', db', Some e)).
  { intros log1 db1 Hrest Hstep.
    destruct (IH _ _ _ _ _ _ _ Hrest) as (before & u & after & sa & la & da & -> & Hbefore & Hu).
    exists (u0 :: before), u, after, sa, la, da. split; [reflexivity|].
    split; [rewrite Hstep; exact Hbefore|exact Hu]. }
  destruct (alerts_enabled s) eqn:Hen; cbn [negb] in Hrun.
  - destruct (alert_profiles net t s u0 (list_profiles t u0) [] db) as [[msgs db1] e1] eqn:Hprof.
    destruct e1 as [exn|].
    + exists [], u0, rest, st, log, db. split; [reflexivity|]. split; [reflexivity|].
      cbn [alert_users]. rewrite Hget, Hen. cbn [negb]. rewrite Hprof. exact Hrun.
    + apply (Htail _ _ Hrun). intros us. cbn [alert_users].
      rewrite Hget, Hen. cbn [negb]. rewrite Hprof. reflexivity.
  - apply (Htail _ _ Hrun). intros us. cbn [alert_users].
    rewrite Hget, Hen. reflexivity.
Qed.

Lemma alert_pass_stops_at_exception_witness :
  exists before user_id after st1 log1 db1,
    [7; 8] = before ++ user_id :: after /\
    @alert_users plain_builtins (scenario_F_panel (JFloat nan)) scenario_F_profiles
       before ∅ [] ∅ = (st1, log1, db1, None) /\
    @alert_users plain_builtins (scenario_F_panel (JFloat nan)) scenario_F_profiles
       [user_id] st1 log1 db1 = (<[7 := default_row]> ∅, [], ∅, Some ValueError).
Proof.
  apply (@alert_pass_stops_at_exception plain_builtins (scenario_F_panel (JFloat nan))
           scenario_F_profiles [7; 8] ∅ [] ∅).
  vm_compute. reflexivity.
Defined.
